(** * bvp API v1: meter-data ingestion and query pipeline

    A shallow embedding of
      - [bvp/api/common/utils/api_utils.py]  ([groups_to_dict],
        [unique_ever_seen], [save_to_database], [BaseMessage], ...),
      - [bvp/api/common/responses.py]        (the response catalogue),
      - [bvp/api/v1/implementations.py]      ([collect_connection_and_value_groups],
        [create_connection_and_value_groups]),
    followed by the properties of these functions.

    Conventions.
      - [datetime] and [timedelta] are integers counting microseconds, which
        is the resolution of both Python types; the range limits of the two
        types ([OverflowError]) are not modelled.  All datetimes of one
        request carry the tzinfo of [start], so that their differences are
        plain differences of the counts.
      - A JSON number is a Python [int] or a Python [float]; a float is an
        IEEE 754 binary64 value, given by [spec_float] and the operations of
        [SpecFloat] at precision 53.
      - Python exceptions are values of [exn]; a function that may raise
        returns a sum or runs in the monad [M].                            *)

From Stdlib Require Import ZArith Bool List Lia.
From Stdlib Require Import Floats.SpecFloat.
From stdpp Require Import base option list gmap strings.

Local Open Scope Z_scope.

(* ===================================================================== *)
(** * Python values                                                       *)
(* ===================================================================== *)

Inductive exn : Type :=
  | ZeroDivisionError
  | AttributeError     (* attribute access on [None] *)
  | TypeError
  | IndexError
  | KeyError
  | IntegrityError.    (* sqlalchemy.exc.IntegrityError *)

Module Num.

Definition prec : Z := 53.
Definition emax : Z := 1024.

(** A number as [json.loads] and [ndarray.tolist] produce it. *)
Inductive num : Type :=
  | NInt (z : Z)
  | NFloat (f : spec_float).

(** [float(k)] for an int operand of a mixed operation. *)
Definition float_of_int (k : Z) : spec_float :=
  binary_normalize prec emax k 0 false.

(** [x * k] for an int literal [k]: int arithmetic on an int, binary64
    multiplication by [float(k)] on a float. *)
Definition mul_int (x : num) (k : Z) : num :=
  match x with
  | NInt z => NInt (z * k)
  | NFloat f => NFloat (SFmul prec emax f (float_of_int k))
  end.

(** [v < 0] and [v > 0]. *)
Definition lt_zero (v : num) : bool :=
  match v with
  | NInt z => z <? 0
  | NFloat f => SFltb f (S754_zero false)
  end.

Definition gt_zero (v : num) : bool :=
  match v with
  | NInt z => 0 <? z
  | NFloat f => SFltb (S754_zero false) f
  end.

(** [f == z] for a float and an int: Python compares the exact values. *)
Definition float_eq_int (f : spec_float) (z : Z) : bool :=
  match f with
  | S754_zero _ => z =? 0
  | S754_finite s m e =>
      let v := if s then Z.neg m else Z.pos m in
      if 0 <=? e then z =? v * 2 ^ e
      else (v mod 2 ^ (- e) =? 0) && (z =? v / 2 ^ (- e))
  | _ => false
  end.

(** [a == b]. *)
Definition eqb (a b : num) : bool :=
  match a, b with
  | NInt x, NInt y => x =? y
  | NFloat f, NFloat g => SFeqb f g
  | NFloat f, NInt z | NInt z, NFloat f => float_eq_int f z
  end.

(** A float that [math.isfinite] accepts, in its binary64 encoding. *)
Definition finite (v : num) : Prop :=
  match v with
  | NInt _ => True
  | NFloat (S754_zero _) => True
  | NFloat (S754_finite _ m e) => bounded prec emax m e = true
  | NFloat _ => False
  end.

End Num.
Export Num(num, NInt, NFloat).

(* ===================================================================== *)
(** * datetime and timedelta                                              *)
(* ===================================================================== *)

Module PyTime.

Definition datetime : Type := Z.
Definition timedelta : Type := Z.

(** [timedelta / int]: the quotient of the microsecond counts, rounded to
    the nearest microsecond, ties to even; [ZeroDivisionError] on 0. *)
Definition divide_nearest (t : Z) (n : Z) : Z :=
  let q := t / n in
  let r := t mod n in
  if (n <? 2 * r) || ((n =? 2 * r) && Z.odd q) then q + 1 else q.

Definition truediv (t : timedelta) (n : nat) : exn + timedelta :=
  match n with
  | O => inl ZeroDivisionError
  | S _ => inr (divide_nearest t (Z.of_nat n))
  end.

Definition minutes (k : Z) : timedelta := k * 60000000.
Definition hours (k : Z) : timedelta := k * 3600000000.

End PyTime.
Export PyTime(datetime, timedelta).

(** JSON-like Python values: numbers, strings, lists and dicts.  A dict is
    the list of its items in insertion order, with distinct keys. *)
#[warnings="-register-all"]
Inductive pyval : Type :=
  | PNum (n : num)
  | PStr (s : string)
  | PList (l : list pyval)
  | PDict (d : list (string * pyval)).

Module Dict.

Definition dict : Type := list (string * pyval).

(** [d.get(k)] *)
Fixpoint get (k : string) (d : dict) : option pyval :=
  match d with
  | [] => None
  | (k', v) :: d' => if String.eqb k k' then Some v else get k d'
  end.

(** [k in d] *)
Definition mem (k : string) (d : dict) : bool :=
  match get k d with Some _ => true | None => false end.

(** [d[k] = v] *)
Fixpoint set (k : string) (v : pyval) (d : dict) : dict :=
  match d with
  | [] => [(k, v)]
  | (k', v') :: d' =>
      if String.eqb k k' then (k, v) :: d' else (k', v') :: set k v d'
  end.

(** The dict built from the keyword arguments of [a] followed by those of
    [b]; a keyword given twice is a [TypeError]. *)
Definition merge_kwargs (a b : dict) : exn + dict :=
  if existsb (fun kv => mem (fst kv) a) b then inl TypeError
  else inr (a ++ b).

End Dict.
Export Dict(dict).

(** [a == b] on values: lists compare element-wise, dicts item-wise
    whatever the order of insertion. *)
Fixpoint py_eqb (a b : pyval) {struct a} : bool :=
  match a, b with
  | PNum x, PNum y => Num.eqb x y
  | PStr s, PStr t => String.eqb s t
  | PList l, PList m =>
      (fix all2 (l m : list pyval) {struct l} : bool :=
         match l, m with
         | [], [] => true
         | x :: l', y :: m' => py_eqb x y && all2 l' m'
         | _, _ => false
         end) l m
  | PDict d, PDict e =>
      (length d =? length e)%nat &&
      (fix items (d : list (string * pyval)) {struct d} : bool :=
         match d with
         | [] => true
         | (k, v) :: d' =>
             match Dict.get k e with
             | Some w => py_eqb v w
             | None => false
             end && items d'
         end) d
  | _, _ => false
  end.

(** Shorthands for the literals of the examples. *)
Definition pint (z : Z) : pyval := PNum (NInt z).
Definition pints (l : list Z) : pyval := PList (map pint l).

(* ===================================================================== *)
(** * responses.py                                                        *)
(* ===================================================================== *)

Module Responses.

(** A response is the pair [(dict, status code)]. *)
Definition response : Type := dict * Z.

(** The decorator [BaseMessage(base_message)] applied to [func]: the base
    message, followed by every positional argument of the call after a
    blank, is handed to [func]. *)
Definition BaseMessage (base_message : string)
    (func : string -> response) (args : list string) : response :=
  func (fold_left (fun message a => message +:+ " " +:+ a) args base_message).

Definition already_received_and_successfully_processed :=
  BaseMessage
    "Some of the data has already been received and successfully processed."
    (fun message =>
       ([("results", PStr "Rejected");
         ("status", PStr "ALREADY_RECEIVED_AND_SUCCESSFULLY_PROCESSED");
         ("message", PStr message)], 400)).

Definition invalid_domain :=
  BaseMessage
    ("Connections, sensors and markets should be identified using the EA1 addressing scheme recommended by USEF. "
     +:+ "For example:"
     +:+ " 'ea1.2018-06.com.a1-bvp:<owner-id>:<asset-id>'"
     +:+ " 'ea1.2018-06.com.a1-bvp:temperature:<latitude>:<longitude>'"
     +:+ " 'ea1.2018-06.com.a1-bvp:<market_name>'")
    (fun message =>
       ([("result", PStr "Rejected");
         ("status", PStr "INVALID_DOMAIN");
         ("message", PStr message)], 400)).

Definition power_value_too_big :=
  BaseMessage "One or more power values are too big."
    (fun message =>
       ([("result", PStr "Rejected");
         ("status", PStr "POWER_VALUE_TOO_BIG");
         ("message", PStr message)], 400)).

Definition power_value_too_small :=
  BaseMessage "One or more power values are too small."
    (fun message =>
       ([("result", PStr "Rejected");
         ("status", PStr "POWER_VALUE_TOO_SMALL");
         ("message", PStr message)], 400)).

Definition unrecognized_connection_group :=
  BaseMessage
    "One or more connections in your request were not found in your account."
    (fun message =>
       ([("result", PStr "Rejected");
         ("status", PStr "UNRECOGNIZED_CONNECTION_GROUP");
         ("message", PStr message)], 400)).

Definition request_processed :=
  BaseMessage "Request has been processed."
    (fun message =>
       ([("status", PStr "PROCESSED"); ("message", PStr message)], 200)).

(** The ["status"] entry of a response. *)
Definition status (r : response) : option pyval := Dict.get "status" (fst r).

End Responses.
Export Responses(response).

(* ===================================================================== *)
(** * api_utils.py: compaction of groups                                  *)
(* ===================================================================== *)

(** [x >>= f] on results that may be an exception. *)
Definition bind_exn {A B : Type} (x : exn + A) (f : A -> exn + B) : exn + B :=
  match x with
  | inl e => inl e
  | inr a => f a
  end.

Module ApiUtils.

(** [len(x)] *)
Definition py_len (x : pyval) : exn + nat :=
  match x with
  | PNum _ => inl TypeError
  | PStr s => inr (String.length s)
  | PList l => inr (length l)
  | PDict d => inr (length d)
  end.

(** [x[0]] *)
Definition py_getitem0 (x : pyval) : exn + pyval :=
  match x with
  | PNum _ => inl TypeError
  | PStr EmptyString => inl IndexError
  | PStr (String c _) => inr (PStr (String c EmptyString))
  | PList [] => inl IndexError
  | PList (y :: _) => inr y
  | PDict _ => inl KeyError
  end.

(** [x in u] and [u.index(x)]: the items of [u] are compared with [x]
    from the left. *)
Definition py_in (x : pyval) (u : list pyval) : bool :=
  existsb (fun item => py_eqb item x) u.

Fixpoint py_index (x : pyval) (u : list pyval) : option nat :=
  match u with
  | [] => None
  | item :: u' => if py_eqb item x then Some O else S <$> py_index x u'
  end.

(** One turn of the loop of [unique_ever_seen] on the pair
    [(iterable_element, selector_element)], with [u] and [s] as they stand.

    [us.append] mutates the list object found in [s]; when [us] was a list
    it is the caller's own selector element.  With selector elements that
    are distinct objects, as the decoded groups of a request are, that
    object occurs in [s] only, at this one index, and the lists returned
    are those of this value model. *)
Definition unique_ever_seen_step (st : list pyval * list pyval)
    (item : pyval * pyval) : exn + (list pyval * list pyval) :=
  let '(u, s) := st in
  let '(iterable_element, selector_element) := item in
  if negb (py_in iterable_element u) then
    inr (u ++ [iterable_element], s ++ [selector_element])
  else
    match py_index iterable_element u with
    | None => inl IndexError
    | Some i =>
        match s !! i with
        | None => inl IndexError
        | Some us =>
            let us := match us with
                      | PList l => l      (* isinstance(us, list) *)
                      | _ => [us]
                      end in
            let us := us ++ [selector_element] in
            inr (u, <[i := PList us]> s)
        end
    end.

Fixpoint unique_ever_seen_loop (pairs : list (pyval * pyval))
    (st : list pyval * list pyval) : exn + (list pyval * list pyval) :=
  match pairs with
  | [] => inr st
  | item :: pairs' =>
      bind_exn (unique_ever_seen_step st item) (unique_ever_seen_loop pairs')
  end.

(** Return unique iterable elements with corresponding lists of selector
    elements, preserving order. *)
Definition unique_ever_seen (iterable selector : list pyval)
    : exn + (list pyval * list pyval) :=
  unique_ever_seen_loop (zip iterable selector) ([], []).

(** The loop that fills [d["groups"]]. *)
Fixpoint groups_loop (pairs : list (pyval * pyval)) (groups : list pyval)
    : exn + list pyval :=
  match pairs with
  | [] => inr groups
  | (connection_group, value_group) :: pairs' =>
      bind_exn (py_len connection_group) (fun n =>
      if (n =? 1)%nat then
        bind_exn (py_getitem0 connection_group) (fun c =>
        groups_loop pairs'
          (groups ++ [PDict [("connection", c); ("values", value_group)]]))
      else
        groups_loop pairs'
          (groups ++ [PDict [("connections", connection_group);
                             ("values", value_group)]]))
  end.

(** Put the connections and values in a dictionary and simplify if groups
    have identical values and/or if there is only one group. *)
Definition groups_to_dict (connection_groups value_groups : list pyval)
    : exn + dict :=
  (* Simplify groups that have identical values *)
  bind_exn (unique_ever_seen value_groups connection_groups) (fun '(value_groups, connection_groups) =>
  (* Simplify if there is only one group *)
  match value_groups, connection_groups with
  | [value_groups_0], [connection_groups_0] =>
      bind_exn (py_len connection_groups_0) (fun n =>
      if (n =? 1)%nat then
        bind_exn (py_getitem0 connection_groups_0) (fun c =>
        inr [("connection", c); ("values", value_groups_0)])
      else
        inr [("connections", connection_groups_0); ("values", value_groups_0)])
  | _, _ =>
      bind_exn (groups_loop (zip connection_groups value_groups) []) (fun groups =>
      inr [("groups", PList groups)])
  end).

(** Return a list of connections, even if it's just one connection. *)
Definition parse_as_list (connection : pyval) : list pyval :=
  match connection with
  | PStr _ => [connection]
  | PList l => l
  | _ => []
  end.

End ApiUtils.

(* ===================================================================== *)
(** * The data models and the storage session                             *)
(* ===================================================================== *)

Module Asset.
(** [bvp.data.models.assets.Asset], the attributes the pipeline reads. *)
Record t : Type := {
  id : Z;
  name : string;
  is_pure_consumer : bool;
  is_pure_producer : bool;
  entity_address : string
}.
End Asset.

Module DataSource.
Record t : Type := { id : Z }.
End DataSource.

Module Power.
(** [bvp.data.models.assets.Power], as its constructor is called. *)
Record t : Type := {
  datetime : PyTime.datetime;
  value : num;
  horizon : timedelta;
  asset_id : Z;
  data_source_id : Z
}.

(** The primary key of the table, [PrimaryKeyConstraint("datetime",
    "asset_id")] in the migration. *)
Definition key (p : t) : Z * Z := (datetime p, asset_id p).
End Power.

Module Job.
(** Modelled from the spec: [make_forecasting_jobs] is imported from
    [api_utils] and not defined in it; the spec gives one descriptor
    (metricKind, assetId, start, end) for each call. *)
Record t : Type := {
  metric_kind : string;
  asset_id : Z;
  start : datetime;
  end_ : datetime
}.
End Job.

(** Modelled from the spec: [make_forecasting_jobs], see [Job.t]. *)
Definition make_forecasting_jobs (timed_value_type : string) (asset_id : Z)
    (start end_ : datetime) : list Job.t :=
  [ {| Job.metric_kind := timed_value_type; Job.asset_id := asset_id;
       Job.start := start; Job.end_ := end_ |} ].

(** A [db.Model] instance handed to the session. *)
Inductive Model : Type :=
  | MPower (p : Power.t)
  | MJob (j : Job.t).

(** What the function does to its collaborators, in order. *)
Inductive event : Type :=
  | EvLog (level msg : string)          (* current_app.logger.<level>(msg) *)
  | EvBulkSave (objects : list Model)   (* db.session.bulk_save_objects *)
  | EvMerge (o : Model)                 (* db.session.merge *)
  | EvCommit                            (* db.session.commit *)
  | EvRollback                          (* db.session.rollback *)
  | EvConfigGet (key : string).         (* current_app.config.get *)

Module Session.

(** Modelled from the spec: the storage engine is SQLAlchemy's session on
    a relational store.  The spec gives a store that enforces the
    uniqueness of (datetime, assetId) on measurements, a bulk insert that
    signals a violation, a merge write that replaces conflicting rows, and
    a transaction that becomes durable on commit.  [stored_*] is the
    committed state, [txn_*] the state seen inside the open transaction.
    Job descriptors carry no key of their own. *)
Record t : Type := {
  stored_power : gmap (Z * Z) Power.t;
  stored_jobs : list Job.t;
  txn_power : gmap (Z * Z) Power.t;
  txn_jobs : list Job.t
}.

(** A session with no open change on the committed state. *)
Definition clean (power : gmap (Z * Z) Power.t) (jobs : list Job.t) : t :=
  {| stored_power := power; stored_jobs := jobs;
     txn_power := power; txn_jobs := jobs |}.

(** INSERT of one row. *)
Definition insert (o : Model) (s : t) : exn + t :=
  match o with
  | MPower p =>
      match txn_power s !! Power.key p with
      | Some _ => inl IntegrityError
      | None =>
          inr {| stored_power := stored_power s; stored_jobs := stored_jobs s;
                 txn_power := <[Power.key p := p]> (txn_power s);
                 txn_jobs := txn_jobs s |}
      end
  | MJob j =>
      inr {| stored_power := stored_power s; stored_jobs := stored_jobs s;
             txn_power := txn_power s; txn_jobs := txn_jobs s ++ [j] |}
  end.

(** The rows are inserted in order; the first violation raises and leaves
    the transaction as it stands, to be rolled back. *)
Fixpoint bulk_save_objects (objects : list Model) (s : t) : option exn * t :=
  match objects with
  | [] => (None, s)
  | o :: objects' =>
      match insert o s with
      | inl e => (Some e, s)
      | inr s' => bulk_save_objects objects' s'
      end
  end.

(** INSERT, or UPDATE of the row with the same key. *)
Definition merge (o : Model) (s : t) : t :=
  match o with
  | MPower p =>
      {| stored_power := stored_power s; stored_jobs := stored_jobs s;
         txn_power := <[Power.key p := p]> (txn_power s);
         txn_jobs := txn_jobs s |}
  | MJob j =>
      {| stored_power := stored_power s; stored_jobs := stored_jobs s;
         txn_power := txn_power s; txn_jobs := txn_jobs s ++ [j] |}
  end.

Definition commit (s : t) : t :=
  {| stored_power := txn_power s; stored_jobs := txn_jobs s;
     txn_power := txn_power s; txn_jobs := txn_jobs s |}.

Definition rollback (s : t) : t :=
  {| stored_power := stored_power s; stored_jobs := stored_jobs s;
     txn_power := stored_power s; txn_jobs := stored_jobs s |}.

End Session.

(* ===================================================================== *)
(** * Effects: the world, early return and exceptions                     *)
(* ===================================================================== *)

Record world : Type := {
  session : Session.t;
  trace : list event       (* oldest first *)
}.

(** How a block of statements ends: it runs to its end with a value, it
    executes [return r], or it raises. *)
Inductive flow (A : Type) : Type :=
  | Normal (a : A)
  | Return (r : response)
  | Raise (e : exn).
Arguments Normal {A} a.
Arguments Return {A} r.
Arguments Raise {A} e.

Definition M (A : Type) : Type := world -> flow A * world.

#[global] Instance M_ret : MRet M := fun A a w => (Normal a, w).

#[global] Instance M_bind : MBind M := fun A B f m w =>
  match m w with
  | (Normal a, w') => f a w'
  | (Return r, w') => (Return r, w')
  | (Raise e, w') => (Raise e, w')
  end.

Definition py_return {A : Type} (r : response) : M A := fun w => (Return r, w).
Definition py_raise {A : Type} (e : exn) : M A := fun w => (Raise e, w).

Definition lift_exn {A : Type} (x : exn + A) : M A :=
  match x with
  | inl e => py_raise e
  | inr a => mret a
  end.

(** The world after one more event. *)
Definition after_event (ev : event) (w : world) : world :=
  {| session := session w; trace := trace w ++ [ev] |}.

Definition emit (ev : event) : M unit := fun w => (Normal tt, after_event ev w).

Definition with_session (f : Session.t -> Session.t) : M unit := fun w =>
  (Normal tt, {| session := f (session w); trace := trace w |}).

(** [try: body except IntegrityError: handler] *)
Definition try_except_IntegrityError {A : Type} (body handler : M A) : M A :=
  fun w =>
    match body w with
    | (Raise IntegrityError, w') => handler w'
    | other => other
    end.

Definition logger_info (msg : string) : M unit := emit (EvLog "info" msg).
Definition logger_warn (msg : string) : M unit := emit (EvLog "warn" msg).

Module db_session.

Definition run_bulk_save (objects : list Model) : M unit := fun w =>
  let '(r, s) := Session.bulk_save_objects objects (session w) in
  (match r with Some e => Raise e | None => Normal tt end,
   {| session := s; trace := trace w |}).

Definition bulk_save_objects (objects : list Model) : M unit :=
  emit (EvBulkSave objects) ;; run_bulk_save objects.

Definition merge (o : Model) : M unit :=
  emit (EvMerge o) ;; with_session (Session.merge o).

Definition commit : M unit := emit EvCommit ;; with_session Session.commit.

Definition rollback : M unit :=
  emit EvRollback ;; with_session Session.rollback.

End db_session.

(** Utility function to save to database, either efficiently with a bulk
    save, or inefficiently with a merge save. *)
Fixpoint merge_each (objects : list Model) : M unit :=
  match objects with
  | [] => mret tt
  | o :: objects' => db_session.merge o ;; merge_each objects'
  end.

Definition save_to_database (objects : list Model) (overwrite : bool) : M unit :=
  if negb overwrite then db_session.bulk_save_objects objects
  else merge_each objects.

(* ===================================================================== *)
(** * implementations.py                                                  *)
(* ===================================================================== *)

(** What a request finds around it: the validators and the queries the
    pipeline calls, which are not part of these files. *)
Record Env : Type := {
  (** [validate_entity_address(connection, entity_type)], as the
      ["asset_id"] entry of the parsed address, [None] when it does not
      parse *)
  validate_entity_address : string -> string -> option Z;
  (** [get_assets()] *)
  get_assets : list Asset.t;
  (** [Asset.query.filter(Asset.id == asset_id).one_or_none()] *)
  Asset_by_id : Z -> option Asset.t;
  (** [Asset.query.filter(Asset.name == asset_name).one_or_none()] *)
  Asset_by_name : string -> option Asset.t;
  (** [DataSource.query.filter(DataSource.user == current_user).one_or_none()] *)
  DataSource_of_current_user : option DataSource.t;
  (** [current_app.config] *)
  config : gmap string string;
  (** [Power.collect(...)], as the items of the dict it returns with the
      values [v.y.tolist()] of each *)
  Power_collect :
    list string -> datetime * datetime -> string ->
    option timedelta * option timedelta -> bool ->
    option (list Z) -> option (list Z) -> list (string * list num);
  (** [isodate.datetime_isoformat] and [isodate.duration_isoformat] *)
  datetime_isoformat : datetime -> string;
  duration_isoformat : timedelta -> string
}.

Section Pipeline.

Variable env : Env.

Definition config_get (key dflt : string) : M string :=
  emit (EvConfigGet key) ;; mret (default dflt (config env !! key)).

(** [x.attr] on the result of [one_or_none()] *)
Definition getattr {A B : Type} (x : option A) (attr : A -> B) : exn + B :=
  match x with
  | Some a => inr (attr a)
  | None => inl AttributeError
  end.

Section CreatePower.

Variables (horizon : timedelta) (rolling : bool)
          (start : datetime) (duration : timedelta).

(** [dt = start + j * duration / len(value_group)] *)
Definition slot_datetime (value_group : list num) (j : nat) : exn + datetime :=
  bind_exn (PyTime.truediv (Z.of_nat j * duration) (length value_group)) (fun q =>
  inr (start + q)).

(** The horizon [h] of the slot that starts at [dt]. *)
Definition slot_horizon (value_group : list num) (dt : datetime)
    : exn + timedelta :=
  if rolling then inr horizon
  else
    (* Deduct the difference in end times of the individual timeslot and
       the timeseries duration *)
    bind_exn (PyTime.truediv duration (length value_group)) (fun q =>
    inr (horizon - ((start + duration) - (dt + q)))).

(** [for j, value in enumerate(value_group)], from index [j] on, with
    [values] the values still to come. *)
Fixpoint power_loop (data_source : option DataSource.t) (asset : Asset.t)
    (value_group : list num) (j : nat) (values : list num)
    (power_measurements : list Power.t) (end_ : datetime)
    : exn + (list Power.t * datetime) :=
  match values with
  | [] => inr (power_measurements, end_)
  | value :: values' =>
      bind_exn (slot_datetime value_group j) (fun dt =>
      bind_exn (slot_horizon value_group dt) (fun h =>
      bind_exn (getattr data_source DataSource.id) (fun data_source_id =>
      let p := {| Power.datetime := dt;
                  Power.value := Num.mul_int value (-1);
                    (* Reverse sign for BVP specs with positive production
                       and negative consumption *)
                  Power.horizon := h;
                  Power.asset_id := Asset.id asset;
                  Power.data_source_id := data_source_id |} in
      power_loop data_source asset value_group (S j) values'
        (power_measurements ++ [p]) dt)))
  end.

(** The body of [for connection in connection_group]. *)
Definition connection_body (data_source : option DataSource.t)
    (user_asset_ids : list Z) (value_group : list num)
    (connection : string) (st : list Power.t * list Job.t)
    : M (list Power.t * list Job.t) :=
  let '(power_measurements, forecasting_jobs) := st in
  (* Parse the entity address *)
  match validate_entity_address env connection "connection" with
  | None =>
      logger_warn "Cannot parse this connection's entity address: %s" ;;
      py_return (Responses.invalid_domain [])
  | Some asset_id =>
      (* Look for the Asset object *)
      asset ← (if existsb (Z.eqb asset_id) user_asset_ids
               then mret (Asset_by_id env asset_id)
               else logger_warn "Cannot identify connection %s" ;;
                    py_return (Responses.unrecognized_connection_group []));
      (* Validate the sign of the values *)
      is_pure_consumer ← lift_exn (getattr asset Asset.is_pure_consumer);
      if is_pure_consumer && existsb Num.lt_zero value_group then
        extra_info ← lift_exn (getattr asset (fun a =>
          "Connection " +:+ Asset.entity_address a +:+
          " is registered as a pure consumer and can only receive non-negative values."));
        py_return (Responses.power_value_too_small [extra_info])
      else
        is_pure_producer ← lift_exn (getattr asset Asset.is_pure_producer);
        if is_pure_producer && existsb Num.gt_zero value_group then
          extra_info ← lift_exn (getattr asset (fun a =>
            "Connection " +:+ Asset.entity_address a +:+
            " is registered as a pure producer and can only receive non-positive values."));
          py_return (Responses.power_value_too_big [extra_info])
        else
          (* Create new Power objects *)
          asset ← lift_exn (getattr asset (fun a => a));
          '(power_measurements, end_) ←
            lift_exn (power_loop data_source asset value_group 0 value_group
                        power_measurements start);
          if start <? end_ then
            mret (power_measurements,
                  forecasting_jobs ++
                    make_forecasting_jobs "Power" asset_id start end_)
          else mret (power_measurements, forecasting_jobs)
  end.

Fixpoint connection_loop (data_source : option DataSource.t)
    (user_asset_ids : list Z) (value_group : list num)
    (connection_group : list string) (st : list Power.t * list Job.t)
    : M (list Power.t * list Job.t) :=
  match connection_group with
  | [] => mret st
  | connection :: connection_group' =>
      st' ← connection_body data_source user_asset_ids value_group
              connection st;
      connection_loop data_source user_asset_ids value_group
        connection_group' st'
  end.

(** [for connection_group, value_group in zip(...)] *)
Fixpoint group_loop (data_source : option DataSource.t)
    (user_asset_ids : list Z) (pairs : list (list string * list num))
    (st : list Power.t * list Job.t) : M (list Power.t * list Job.t) :=
  match pairs with
  | [] => mret st
  | (connection_group, value_group) :: pairs' =>
      st' ← connection_loop data_source user_asset_ids value_group
              connection_group st;
      group_loop data_source user_asset_ids pairs' st'
  end.

(** The last block of the function: the write and its conflict handling. *)
Definition save_block (power_measurements : list Power.t)
    (forecasting_jobs : list Job.t) : M unit :=
  logger_info "SAVING TO DB..." ;;
  try_except_IntegrityError
    (save_to_database (MPower <$> power_measurements) false ;;
     save_to_database (MJob <$> forecasting_jobs) false ;;
     db_session.commit ;;
     py_return (Responses.request_processed []))
    (logger_warn "IntegrityError" ;;
     db_session.rollback ;;
     (* Allow meter data to be replaced only in play mode *)
     mode ← config_get "BVP_MODE" "";
     if String.eqb mode "play" then
       save_to_database (MPower <$> power_measurements) true ;;
       save_to_database (MJob <$> forecasting_jobs) true ;;
       db_session.commit ;;
       py_return (Responses.request_processed [])
     else
       py_return (Responses.already_received_and_successfully_processed [])).

Definition create_connection_and_value_groups (unit_ : string)
    (generic_asset_name_groups : list (list string))
    (value_groups : list (list num)) : M unit :=
  logger_info "POSTING POWER DATA" ;;
  let data_source := DataSource_of_current_user env in
  let user_assets := get_assets env in
  (match user_assets with
   | [] => logger_info "User doesn't seem to have any assets"
   | _ => mret tt
   end) ;;
  let user_asset_ids := Asset.id <$> user_assets in
  '(power_measurements, forecasting_jobs) ←
    group_loop data_source user_asset_ids
      (zip generic_asset_name_groups value_groups) ([], []);
  save_block power_measurements forecasting_jobs.

End CreatePower.

(** Look up the owner and id given the asset name and construct a type 1
    USEF entity address.  The names are strings; another value cannot be
    compared with [Asset.name] and is a [TypeError] here. *)
Fixpoint asset_replace_name_with_id (connections_as_name : list pyval)
    : exn + list pyval :=
  match connections_as_name with
  | [] => inr []
  | PStr asset_name :: rest =>
      bind_exn (getattr (Asset_by_name env asset_name) Asset.entity_address) (fun ea =>
      bind_exn (asset_replace_name_with_id rest) (fun connections_as_ea =>
      inr (PStr ea :: connections_as_ea)))
  | _ :: _ => inl TypeError
  end.

(** The branch of [message_replace_name_with_ea] on one dict that holds
    ["connection"] or ["connections"]; [None] when it holds neither. *)
Definition replace_in (d : dict) : option (exn + dict) :=
  match Dict.get "connection" d with
  | Some c =>
      Some (bind_exn (asset_replace_name_with_id (ApiUtils.parse_as_list c)) (fun eas =>
            inr (Dict.set "connection" (PList eas) d)))
  | None =>
      match Dict.get "connections" d with
      | Some c =>
          Some (bind_exn (asset_replace_name_with_id (ApiUtils.parse_as_list c)) (fun eas =>
                inr (Dict.set "connections" (PList eas) d)))
      | None => None
      end
  end.

Fixpoint replace_in_groups (groups : list pyval) : exn + list pyval :=
  match groups with
  | [] => inr []
  | PDict group :: groups' =>
      bind_exn (match replace_in group with
                | Some r => r
                | None => inr group
                end) (fun group' =>
      bind_exn (replace_in_groups groups') (fun rest =>
      inr (PDict group' :: rest)))
  | _ :: _ => inl TypeError
  end.

(** For each connection in the message specified by a name, replace that
    name with the correct entity address.  The groups of the message are the
    dicts that [groups_to_dict] builds. *)
Definition message_replace_name_with_ea (message : dict) : exn + dict :=
  match replace_in message with
  | Some r => r
  | None =>
      match Dict.get "groups" message with
      | Some (PList groups) =>
          bind_exn (replace_in_groups groups) (fun groups' =>
          inr (Dict.set "groups" (PList groups') message))
      | Some _ => inl TypeError
      | None => inr message
      end
  end.

Section CollectPower.

Variables (user_asset_ids : list Z).

(** [for connection in connections], filling [asset_names]. *)
Fixpoint asset_names_loop (connections : list string)
    (asset_names : list string) : M (list string) :=
  match connections with
  | [] => mret asset_names
  | connection :: connections' =>
      (* Parse the entity address *)
      match validate_entity_address env connection "connection" with
      | None =>
          logger_warn "Cannot parse this connection's entity address: %s" ;;
          py_return (Responses.invalid_domain [])
      | Some asset_id =>
          (* Look for the Asset object *)
          asset ← (if existsb (Z.eqb asset_id) user_asset_ids
                   then mret (Asset_by_id env asset_id)
                   else logger_warn "Cannot identify connection %s" ;;
                        py_return (Responses.unrecognized_connection_group []));
          name ← lift_exn (getattr asset Asset.name);
          asset_names_loop connections' (asset_names ++ [name])
      end
  end.

(** [for k, v in ts_values.items()] *)
Fixpoint ts_values_loop (items : list (string * list num))
    (st : list pyval * list pyval) : list pyval * list pyval :=
  match items with
  | [] => st
  | (k, v) :: items' =>
      let '(value_groups, new_connection_groups) := st in
      ts_values_loop items'
        (value_groups ++
           [PList ((fun x => PNum (Num.mul_int x (-1))) <$> v)],
           (* Reverse sign of values (from BVP specs to USEF specs) *)
         new_connection_groups ++ [PStr k])
  end.

Fixpoint connections_loop (resolution : string)
    (horizon_window : option timedelta * option timedelta)
    (start end_ : datetime)
    (preferred_source_ids fallback_source_ids : option (list Z))
    (rolling : bool) (connection_groups : list (list string))
    (st : list pyval * list pyval) : M (list pyval * list pyval) :=
  match connection_groups with
  | [] => mret st
  | connections :: connection_groups' =>
      (* Get the asset names *)
      asset_names ← asset_names_loop connections [];
      (* Get the power values *)
      let ts_values :=
        Power_collect env asset_names (start, end_) resolution
          horizon_window rolling preferred_source_ids fallback_source_ids in
      connections_loop resolution horizon_window start end_
        preferred_source_ids fallback_source_ids rolling
        connection_groups' (ts_values_loop ts_values st)
  end.

End CollectPower.

Definition collect_connection_and_value_groups (unit_ resolution : string)
    (horizon_window : option timedelta * option timedelta)
    (start : datetime) (duration : timedelta)
    (connection_groups : list (list string))
    (preferred_source_ids fallback_source_ids : option (list Z))
    (rolling : bool) : M unit :=
  logger_info "GETTING" ;;
  let user_assets := get_assets env in
  (match user_assets with
   | [] => logger_info "User doesn't seem to have any assets"
   | _ => mret tt
   end) ;;
  let user_asset_ids := Asset.id <$> user_assets in
  let end_ := start + duration in
  '(value_groups, new_connection_groups) ←
    connections_loop user_asset_ids resolution horizon_window start end_
      preferred_source_ids fallback_source_ids rolling connection_groups
      ([], []);
  response ← lift_exn (ApiUtils.groups_to_dict new_connection_groups value_groups);
  response ← lift_exn (message_replace_name_with_ea response);
  let response := Dict.set "start" (PStr (datetime_isoformat env start)) response in
  let response := Dict.set "duration" (PStr (duration_isoformat env duration)) response in
  let response := Dict.set "unit" (PStr unit_) response in
  let '(d, s) := Responses.request_processed [] in
  merged ← lift_exn (Dict.merge_kwargs response d);
  py_return (merged, s).

End Pipeline.

(* ===================================================================== *)
(** * Closed forms and predicates used in the statements                  *)
(* ===================================================================== *)

Section Closed.

Variable env : Env.
Variables (horizon : timedelta) (rolling : bool)
          (start : datetime) (duration : timedelta).

(** The start of slot [j] of [n] equal slots of the window. *)
Definition dt_at (n j : nat) : datetime :=
  start + PyTime.divide_nearest (Z.of_nat j * duration) (Z.of_nat n).

(** The horizon of slot [j] in the words of the horizon rule: [horizon]
    when rolling, and otherwise
    [horizon - ((start + duration) - (dt_j + duration/N))]. *)
Definition horizon_at (n j : nat) : timedelta :=
  if rolling then horizon
  else horizon - ((start + duration)
                  - (dt_at n j + PyTime.divide_nearest duration (Z.of_nat n))).

(** The measurement of [value], at index [j] of a group of [n] values of
    the asset [asset], written by the data source [data_source_id]. *)
Definition power_at (data_source_id : Z) (asset : Asset.t) (n j : nat)
    (value : num) : Power.t :=
  {| Power.datetime := dt_at n j;
     Power.value := Num.mul_int value (-1);
     Power.horizon := horizon_at n j;
     Power.asset_id := Asset.id asset;
     Power.data_source_id := data_source_id |}.

(** The asset a connection address stands for: the address parses, its
    asset id is one of the user's, and the asset row exists. *)
Definition resolve (user_asset_ids : list Z) (connection : string)
    : option Asset.t :=
  match validate_entity_address env connection "connection" with
  | Some asset_id =>
      if existsb (Z.eqb asset_id) user_asset_ids
      then Asset_by_id env asset_id else None
  | None => None
  end.

(** The measurements of a whole group of values for one asset. *)
Definition powers_of (data_source_id : Z) (value_group : list num)
    (asset : Asset.t) : list Power.t :=
  imap (power_at data_source_id asset (length value_group)) value_group.

(** The measurements of a whole group of values for one connection. *)
Definition block (data_source_id : Z) (user_asset_ids : list Z)
    (value_group : list num) (connection : string) : list Power.t :=
  match resolve user_asset_ids connection with
  | Some asset => powers_of data_source_id value_group asset
  | None => []
  end.

(** The batch of a request: for every pair, for every connection of its
    group, the measurements of the whole value group. *)
Definition batch_of (data_source_id : Z) (user_asset_ids : list Z)
    (pairs : list (list string * list num)) : list Power.t :=
  p ← pairs; p.1 ≫= block data_source_id user_asset_ids p.2.

(** The sign rule on a value group for an asset. *)
Definition too_small (asset : Asset.t) (value_group : list num) : bool :=
  Asset.is_pure_consumer asset && existsb Num.lt_zero value_group.

Definition too_big (asset : Asset.t) (value_group : list num) : bool :=
  Asset.is_pure_producer asset && existsb Num.gt_zero value_group.

(** A connection that the loop passes: it resolves, its values respect the
    sign rule, and a data source is there to sign its measurements. *)
Definition accepted (data_source : option DataSource.t)
    (user_asset_ids : list Z) (value_group : list num)
    (connection : string) : bool :=
  match resolve user_asset_ids connection with
  | Some asset =>
      negb (too_small asset value_group)
      && negb (too_big asset value_group)
      && match value_group, data_source with
         | _ :: _, None => false
         | _, _ => true
         end
  | None => false
  end.

Definition accepted_group (data_source : option DataSource.t)
    (user_asset_ids : list Z) (p : list string * list num) : bool :=
  forallb (accepted data_source user_asset_ids p.2) p.1.

(** The messages of the two sign rejections for an asset. *)
Definition too_small_response (asset : Asset.t) : response :=
  Responses.power_value_too_small
    ["Connection " +:+ Asset.entity_address asset +:+
     " is registered as a pure consumer and can only receive non-negative values."].

Definition too_big_response (asset : Asset.t) : response :=
  Responses.power_value_too_big
    ["Connection " +:+ Asset.entity_address asset +:+
     " is registered as a pure producer and can only receive non-positive values."].

End Closed.

(** The world after the first lines of either pipeline: the line logged on
    entry, [tag], and the line on a user without assets. *)
Definition entered (env : Env) (tag : string) (w : world) : world :=
  let w1 := after_event (EvLog "info" tag) w in
  match get_assets env with
  | [] => after_event (EvLog "info" "User doesn't seem to have any assets") w1
  | _ :: _ => w1
  end.

(** No element of the list equals a later one. *)
Fixpoint all_distinct (l : list pyval) : bool :=
  match l with
  | [] => true
  | x :: l' => negb (existsb (fun y => py_eqb x y) l') && all_distinct l'
  end.

(** The events that write to storage. *)
Definition is_write (ev : event) : bool :=
  match ev with
  | EvBulkSave _ | EvMerge _ | EvCommit => true
  | _ => false
  end.

Definition is_log (ev : event) : bool :=
  match ev with
  | EvLog _ _ => true
  | _ => false
  end.

(** The world [w'] is [w] after some logging and nothing else: the session
    is the same, and so is the trace but for log events at its end. *)
Definition only_logged (w w' : world) : Prop :=
  session w' = session w /\
  exists logs, trace w' = trace w ++ logs /\ forallb is_log logs = true.

(** A request that ends without the success response: it returns a
    response with status code 400, or it raises. *)
Definition rejected {A : Type} (fl : flow A) : Prop :=
  match fl with
  | Normal _ => False
  | Return r => r.2 = 400
  | Raise _ => True
  end.

(** The merge write of a batch on a table. *)
Definition upsert_all (table : gmap (Z * Z) Power.t) (batch : list Power.t)
    : gmap (Z * Z) Power.t :=
  foldl (fun m p => <[Power.key p := p]> m) table batch.

(** Earlier slots have strictly larger horizons than later ones. *)
Definition earlier_horizons_larger (pm : list Power.t) : Prop :=
  forall (j k : nat) (p q : Power.t),
    (j < k)%nat -> pm !! j = Some p -> pm !! k = Some q ->
    Power.horizon q < Power.horizon p.

(** [x * -1], the sign reversal of both pipelines. *)
Definition reverse_sign (x : num) : num := Num.mul_int x (-1).

(* ===================================================================== *)
(** * Example data                                                        *)
(* ===================================================================== *)

Module Example.

Definition house : Asset.t :=
  {| Asset.id := 1; Asset.name := "house";
     Asset.is_pure_consumer := true; Asset.is_pure_producer := false;
     Asset.entity_address := "ea1.2018-06.com.a1-bvp:1:1" |}.

Definition solar : Asset.t :=
  {| Asset.id := 2; Asset.name := "solar";
     Asset.is_pure_consumer := false; Asset.is_pure_producer := true;
     Asset.entity_address := "ea1.2018-06.com.a1-bvp:1:2" |}.

(** An asset that [get_assets] lists and whose row is gone when the
    pipeline queries it by id. *)
Definition gone : Asset.t :=
  {| Asset.id := 3; Asset.name := "gone";
     Asset.is_pure_consumer := false; Asset.is_pure_producer := false;
     Asset.entity_address := "ea1.2018-06.com.a1-bvp:1:3" |}.

Definition source : DataSource.t := {| DataSource.id := 7 |}.

Definition parse (connection entity_type : string) : option Z :=
  if String.eqb connection "ea1.2018-06.com.a1-bvp:1:1" then Some 1
  else if String.eqb connection "ea1.2018-06.com.a1-bvp:1:2" then Some 2
  else if String.eqb connection "ea1.2018-06.com.a1-bvp:1:3" then Some 3
  else if String.eqb connection "ea1.2018-06.com.a1-bvp:9:4" then Some 4
  else None.

Definition by_id (asset_id : Z) : option Asset.t :=
  if asset_id =? 1 then Some house
  else if asset_id =? 2 then Some solar
  else None.

Definition by_name (asset_name : string) : option Asset.t :=
  if String.eqb asset_name "house" then Some house
  else if String.eqb asset_name "solar" then Some solar
  else None.

Definition env (mode : gmap string string) : Env :=
  {| validate_entity_address := parse;
     get_assets := [house; solar; gone];
     Asset_by_id := by_id;
     Asset_by_name := by_name;
     DataSource_of_current_user := Some source;
     config := mode;
     Power_collect := fun names _ _ _ _ _ _ =>
                        (fun n => (n, [NInt 1; NInt (-2)])) <$> names;
     datetime_isoformat := fun _ => "2018-05-07T00:00:00+00:00";
     duration_isoformat := fun _ => "PT1H" |}.

Definition strict : Env := env ∅.
Definition play : Env := env {[ "BVP_MODE" := "play" ]}.

Definition ids : list Z := [1; 2; 3].

Definition ea_house : string := "ea1.2018-06.com.a1-bvp:1:1".
Definition ea_solar : string := "ea1.2018-06.com.a1-bvp:1:2".
Definition ea_gone : string := "ea1.2018-06.com.a1-bvp:1:3".

(** Four quarters of an hour. *)
Definition quarters : list num := [NInt 1; NInt 2; NInt 3; NInt 4].

(** A measurement already stored for [house] at the start of the window. *)
Definition old : Power.t :=
  {| Power.datetime := 0; Power.value := NInt 5; Power.horizon := 0;
     Power.asset_id := 1; Power.data_source_id := 7 |}.

(** The same slot of the house, submitted again with another value. *)
Definition again : Power.t :=
  {| Power.datetime := 0; Power.value := NInt 9; Power.horizon := 0;
     Power.asset_id := 1; Power.data_source_id := 7 |}.

Definition fresh : world :=
  {| session := Session.clean ∅ []; trace := [] |}.

Definition filled : world :=
  {| session := Session.clean {[ Power.key old := old ]} []; trace := [] |}.

(** A binary64 value: 1.5, as 3 * 2^51 * 2^-52. *)
Definition one_and_a_half : spec_float :=
  S754_finite false 6755399441055744 (-52).

End Example.

(* ===================================================================== *)
(** * Further functions of the three files                                *)
(* ===================================================================== *)

(** The exceptions of the functions below: those of [exn], and the end of
    an iterator. *)
Inductive py_exc : Type :=
  | Exn (e : exn)
  | StopIteration.

Definition lift_exc {A : Type} (x : exn + A) : py_exc + A :=
  match x with
  | inl e => inl (Exn e)
  | inr a => inr a
  end.

(** [d[k]] for a string key: a [KeyError] on a dict without the key, a
    [TypeError] on a value that is no dict. *)
Definition py_getitem (d : pyval) (k : string) : exn + pyval :=
  match d with
  | PDict items =>
      match Dict.get k items with
      | Some v => inr v
      | None => inl KeyError
      end
  | _ => inl TypeError
  end.

(** [for x in v]: the elements of a list, the characters of a string, the
    keys of a dict. *)
Fixpoint chars (s : string) : list pyval :=
  match s with
  | EmptyString => []
  | String c s' => PStr (String c EmptyString) :: chars s'
  end.

Definition py_iter (v : pyval) : exn + list pyval :=
  match v with
  | PNum _ => inl TypeError
  | PStr s => inr (chars s)
  | PList l => inr l
  | PDict d => inr ((fun kv => PStr kv.1) <$> d)
  end.

(** [t in s] on strings. *)
Fixpoint is_substring (t s : string) : bool :=
  String.prefix t s
  || match s with
     | EmptyString => false
     | String _ s' => is_substring t s'
     end.

(** [role in container] for a string [role]. *)
Definition str_in (role : string) (container : pyval) : exn + bool :=
  match container with
  | PNum _ => inl TypeError
  | PStr s => inr (is_substring role s)
  | PList l => inr (ApiUtils.py_in (PStr role) l)
  | PDict d => inr (Dict.mem role d)
  end.

Module MoreResponses.

Definition invalid_method (request_method : string) : response :=
  ([("result", PStr "Rejected");
    ("status", PStr "INVALID_METHOD");
    ("message", PStr ("Request method " +:+ request_method +:+ " not supported."))],
   405).

Definition invalid_role (requested_access_role : string) : response :=
  ([("result", PStr "Rejected");
    ("status", PStr "INVALID_ROLE");
    ("message", PStr ("No known services for specified role "
                      +:+ requested_access_role +:+ "."))],
   400).

Definition invalid_message_type (message_type : string) : response :=
  ([("result", PStr "Rejected");
    ("status", PStr "INVALID_MESSAGE_TYPE");
    ("message", PStr ("Request message should specify type '"
                      +:+ message_type +:+ "'."))],
   400).

Definition unrecognized_market (requested_market : string) : response :=
  ([("result", PStr "Rejected");
    ("status", PStr "UNRECOGNIZED_MARKET");
    ("message", PStr ("The requested market named " +:+ requested_market
                      +:+ " is not known."))],
   400).

Definition invalid_horizon :=
  Responses.BaseMessage "The prognosis horizon in your request could not be parsed."
    (fun message =>
       ([("result", PStr "Rejected"); ("status", PStr "INVALID_HORIZON");
         ("message", PStr message)], 400)).

Definition invalid_period :=
  Responses.BaseMessage "A time period in your request doesn't seem right."
    (fun message =>
       ([("result", PStr "Rejected"); ("status", PStr "INVALID_PERIOD");
         ("message", PStr message)], 400)).

Definition invalid_ptu_duration :=
  Responses.BaseMessage
    ("Start time should be on the hour or a multiple of 15 minutes thereafter, "
     +:+ "duration should be some multiple N of 15 minutes, and "
     +:+ "the number of values should be some factor of N.")
    (fun message =>
       ([("result", PStr "Rejected"); ("status", PStr "INVALID_PTU_DURATION");
         ("message", PStr message)], 400)).

Definition invalid_resolution :=
  Responses.BaseMessage "Only a 15 minute resolution is currently supported."
    (fun message =>
       ([("result", PStr "Rejected"); ("status", PStr "INVALID_RESOLUTION");
         ("message", PStr message)], 400)).

Definition invalid_timezone :=
  Responses.BaseMessage "Start time should explicitly state a timezone."
    (fun message =>
       ([("result", PStr "Rejected"); ("status", PStr "INVALID_TIMEZONE");
         ("message", PStr message)], 400)).

Definition no_backup :=
  Responses.BaseMessage "Request message should include 'backup'."
    (fun message =>
       ([("result", PStr "Rejected"); ("status", PStr "NO_BACKUP");
         ("message", PStr message)], 400)).

Definition no_message_type :=
  Responses.BaseMessage "Request message should include 'type'."
    (fun message =>
       ([("result", PStr "Rejected"); ("status", PStr "NO_MESSAGE_TYPE");
         ("message", PStr message)], 400)).

Definition ptus_incomplete :=
  Responses.BaseMessage "Missing values."
    (fun message =>
       ([("result", PStr "Rejected"); ("status", PStr "PTUS_INCOMPLETE");
         ("message", PStr message)], 400)).

Definition unrecognized_backup :=
  Responses.BaseMessage "The requested backup is not known."
    (fun message =>
       ([("result", PStr "Rejected"); ("status", PStr "UNRECOGNIZED_BACKUP");
         ("message", PStr message)], 400)).

(** Adding a trailing 's' works well for USEF roles. *)
Definition pluralize (usef_role_name : string) : string :=
  usef_role_name +:+ "s".

End MoreResponses.

Module MoreApiUtils.

(** The generator of [check_access] run by [next]: the services are looked
    at in order, and only as far as the first one of the name. *)
Fixpoint check_access_next (services : list pyval) (service_name : pyval)
    : py_exc + pyval :=
  match services with
  | [] => inl StopIteration
  | service :: services' =>
      match py_getitem service "name" with
      | inl e => inl (Exn e)
      | inr name =>
          if py_eqb name service_name
          then lift_exc (py_getitem service "access")
          else check_access_next services' service_name
      end
  end.

(** For a given USEF service name (API endpoint) in a service listing,
    return the list of USEF roles that are allowed to access the service. *)
Definition check_access (service_listing service_name : pyval)
    : py_exc + pyval :=
  match bind_exn (py_getitem service_listing "services") py_iter with
  | inl e => inl (Exn e)
  | inr services => check_access_next services service_name
  end.

(** Return True if any of the items in the groups is empty.  An item is a
    string or [None]. *)
Fixpoint contains_empty_items (groups : list (list (option string))) : bool :=
  match groups with
  | [] => false
  | group :: groups' =>
      if existsb (fun item => match item with
                              | Some s => String.eqb s ""
                              | None => true
                              end) group
      then true
      else contains_empty_items groups'
  end.

(** A request as [get_form_from_request] reads it: its method, its query
    arguments as [args.to_dict(flat=False)] gives them, a list of values
    for each key, and the result of [get_json(force=True)]. *)
Record Request : Type := {
  method : string;
  args : list (string * list string);
  get_json : exn + pyval
}.

Section Form.

(** [parse_json(v)] as far as the function looks at it: the list that [v]
    decodes to, and [None] when [v] does not decode or decodes to another
    value; in both of these cases the function keeps [v] itself. *)
Variable json_list : string -> option (list pyval).

(** [for v in v_list] *)
Fixpoint parse_v_list (v_list : list string) (parsed_v_list : list pyval)
    : list pyval :=
  match v_list with
  | [] => parsed_v_list
  | v :: v_list' =>
      match json_list v with
      | Some parsed_v => parse_v_list v_list' (parsed_v_list ++ parsed_v)
      | None => parse_v_list v_list' (parsed_v_list ++ [PStr v])
      end
  end.

(** [for k, v_list in d.items()] *)
Fixpoint form_loop (items : list (string * list string)) (parsed_d : dict)
    : dict :=
  match items with
  | [] => parsed_d
  | (k, v_list) :: items' =>
      let parsed_v_list := parse_v_list v_list [] in
      form_loop items'
        (match parsed_v_list with
         | [single] => Dict.set k single parsed_d  (* Flatten single-value lists *)
         | _ => Dict.set k (PList parsed_v_list) parsed_d
         end)
  end.

Definition get_form_from_request (_request : Request) : exn + option pyval :=
  if String.eqb (method _request) "GET" then
    inr (Some (PDict (form_loop (args _request) [])))
  else if String.eqb (method _request) "POST" then
    bind_exn (get_json _request) (fun form => inr (Some form))
  else inr None.

End Form.

End MoreApiUtils.

Section Endpoints.

Variable env : Env.

(** The end of [get_service_response]: the response with the keywords of
    [request_processed()]. *)
Definition processed_with (resp : dict) : exn + Responses.response :=
  let '(d, s) := Responses.request_processed [] in
  bind_exn (Dict.merge_kwargs resp d) (fun merged => inr (merged, s)).

(** [for service in service_listing["services"]] *)
Fixpoint accessible_loop (requested_access_role : string)
    (services accessible_services : list pyval) : exn + list pyval :=
  match services with
  | [] => inr accessible_services
  | service :: services' =>
      bind_exn (py_getitem service "access") (fun access =>
      bind_exn (str_in requested_access_role access) (fun granted =>
      accessible_loop requested_access_role services'
        (if granted then accessible_services ++ [service]
         else accessible_services)))
  end.

(** Lists the available services for the public endpoint version, either
    all of them or only those that apply to the requested access role.
    [requested_access_role] is [request.args.get("access")]. *)
Definition get_service_response (requested_access_role : option string)
    (service_listing : pyval) : exn + Responses.response :=
  bind_exn (py_getitem service_listing "version") (fun version =>
  let response := [("version", version)] in
  match requested_access_role with
  | Some (String c role' as role) =>
      bind_exn (py_getitem service_listing "services") (fun services =>
      bind_exn (py_iter services) (fun services =>
      bind_exn (accessible_loop role services []) (fun accessible_services =>
      let response := Dict.set "services" (PList accessible_services) response in
      match accessible_services with
      | [] => inr (MoreResponses.invalid_role role)
      | _ :: _ => processed_with response
      end)))
  | _ =>
      bind_exn (py_getitem service_listing "services") (fun services =>
      processed_with (Dict.set "services" services response))
  end).

(** Read out the power values for each asset. *)
Definition get_meter_data_response (unit_ resolution : string)
    (generic_asset_name_groups : list (list string))
    (horizon : option timedelta) (rolling : bool)
    (start : datetime) (duration : timedelta)
    (preferred_source_ids fallback_source_ids : option (list Z)) : M unit :=
  (* Any meter data observed at most <horizon> after the fact and not
     before the fact *)
  let horizon_window := (horizon, Some 0) in
  collect_connection_and_value_groups env unit_ resolution horizon_window
    start duration generic_asset_name_groups preferred_source_ids
    fallback_source_ids rolling.

(** Store the new power values for each asset. *)
Definition post_meter_data_response (unit_ : string)
    (generic_asset_name_groups : list (list string))
    (value_groups : list (list num)) (horizon : timedelta) (rolling : bool)
    (start : datetime) (duration : timedelta) : M unit :=
  create_connection_and_value_groups env horizon rolling start duration
    unit_ generic_asset_name_groups value_groups.

End Endpoints.

(* ===================================================================== *)
(** * Further predicates used in the statements                           *)
(* ===================================================================== *)

(** The connections that a selector element of [unique_ever_seen] stands
    for: the elements of a list, and any other value itself. *)
Definition members (c : pyval) : list pyval :=
  match c with
  | PList l => l
  | _ => [c]
  end.

Definition is_list (c : pyval) : bool :=
  match c with
  | PList _ => true
  | _ => false
  end.

(** A value that has a length and a first element when the length is one:
    a list or a string. *)
Definition is_sequence (c : pyval) : bool :=
  match c with
  | PList _ | PStr _ => true
  | _ => false
  end.

(** The lines of [collect_connection_and_value_groups] after its loop, on
    the value groups and the connection groups that the loop has built:
    the response that is returned, or the exception that is raised. *)
Definition collect_end (env : Env) (unit_ : string) (start : datetime)
    (duration : timedelta) (value_groups new_connection_groups : list pyval)
    : exn + Responses.response :=
  bind_exn (ApiUtils.groups_to_dict new_connection_groups value_groups) (fun resp =>
  bind_exn (message_replace_name_with_ea env resp) (fun resp =>
  let resp := Dict.set "start" (PStr (datetime_isoformat env start)) resp in
  let resp := Dict.set "duration" (PStr (duration_isoformat env duration)) resp in
  let resp := Dict.set "unit" (PStr unit_) resp in
  let '(d, s) := Responses.request_processed [] in
  bind_exn (Dict.merge_kwargs resp d) (fun merged => inr (merged, s)))).

(** A value that is the name of an asset. *)
Definition is_asset_name (env : Env) (x : pyval) : Prop :=
  match x with
  | PStr n => is_Some (Asset_by_name env n)
  | _ => False
  end.

(** A service that lists the role among its access roles. *)
Definition grants (role : string) (service : pyval) : bool :=
  match py_getitem service "access" with
  | inr (PList access) => ApiUtils.py_in (PStr role) access
  | _ => false
  end.

(** What [get_form_from_request] stores for the values read under one key:
    a single value itself, and else the list. *)
Definition flatten_single (parsed_v_list : list pyval) : pyval :=
  match parsed_v_list with
  | [single] => single
  | _ => PList parsed_v_list
  end.

Module Sample.

Definition service (name : string) (access : list string) : pyval :=
  PDict [("name", PStr name); ("access", PList (PStr <$> access))].

Definition listing : pyval :=
  PDict [("version", PStr "1.0");
         ("services", PList [service "getMeterData" ["MDC"; "Prosumer"];
                             service "postMeterData" ["MDC"];
                             service "getService" ["MDC"; "Prosumer"; "ESCo"]])].

(** [parse_json] on the strings that hold a list of ints in brackets; the
    two lists of the examples. *)
Definition json_list (v : string) : option (list pyval) :=
  if String.eqb v "[1, 2]" then Some [pint 1; pint 2]
  else if String.eqb v "[7]" then Some [pint 7]
  else None.

Definition get_request : MoreApiUtils.Request :=
  {| MoreApiUtils.method := "GET";
     MoreApiUtils.args := [("unit", ["MW"]); ("horizon", ["3"]);
                           ("connection", ["a"; "b"]); ("values", ["[1, 2]"]);
                           ("value", ["[7]"])];
     MoreApiUtils.get_json := inl TypeError |}.

End Sample.

(** The entry that [get_form_from_request] builds of one key of the query
    and its values: a value that decodes to a list adds its elements, any
    other value is kept as the string it is. *)
Definition form_entry (json_list : string -> option (list pyval))
    (item : string * list string) : string * pyval :=
  (item.1, flatten_single (item.2 ≫= fun v => default [PStr v] (json_list v))).


(* ===================================================================== *)
(** * Properties: compaction of groups                                    *)
(* ===================================================================== *)

(** C8.  One connection group [[1]] with one value group [[300, 300, 300]]
    gives the flat dict with the singular key and the scalar connection,
    [{"connection": 1, "values": [300, 300, 300]}]. *)
Theorem groups_to_dict_single :
  ApiUtils.groups_to_dict [PList [pint 1]] [pints [300; 300; 300]]
  = inr [("connection", pint 1); ("values", pints [300; 300; 300])].
Proof. reflexivity. Qed.

(** C7.  The groups [[1], [2]] with the distinct value groups
    [[300, 300, 300]] and [[400, 400, 400]] give the nested dict, one entry
    for each value group in the order of the input, each under the singular
    key ["connection"]. *)
Theorem groups_to_dict_split :
  ApiUtils.groups_to_dict [PList [pint 1]; PList [pint 2]]
    [pints [300; 300; 300]; pints [400; 400; 400]]
  = inr [("groups",
          PList [PDict [("connection", pint 1); ("values", pints [300; 300; 300])];
                 PDict [("connection", pint 2); ("values", pints [400; 400; 400])]])].
Proof. reflexivity. Qed.

(** C1.  On the groups [[1], [2]] with twice the value group
    [[300, 300, 300]] the function returns the key ["connections"] with the
    list [[1, [2]]]: the second group is appended as a list to the first one
    instead of its connection, so that the result is not the flat
    [{"connections": [1, 2], "values": [300, 300, 300]}] of the docstring. *)
Theorem groups_to_dict_merge_nests :
  ApiUtils.groups_to_dict [PList [pint 1]; PList [pint 2]]
    [pints [300; 300; 300]; pints [300; 300; 300]]
  = inr [("connections", PList [pint 1; PList [pint 2]]);
         ("values", pints [300; 300; 300])]
  /\ ApiUtils.groups_to_dict [PList [pint 1]; PList [pint 2]]
       [pints [300; 300; 300]; pints [300; 300; 300]]
     <> inr [("connections", PList [pint 1; pint 2]);
             ("values", pints [300; 300; 300])].
Proof. split; [reflexivity | discriminate]. Qed.

(** The merge is flat when the selectors are not lists, as the names that
    the query pipeline passes. *)
Lemma groups_to_dict_merge_names :
  ApiUtils.groups_to_dict [PStr "house"; PStr "solar"]
    [pints [300; 300; 300]; pints [300; 300; 300]]
  = inr [("connections", PList [PStr "house"; PStr "solar"]);
         ("values", pints [300; 300; 300])].
Proof. reflexivity. Qed.

(** On value groups that are all distinct nothing is merged: the loop
    appends every element and every selector in the order of the input. *)
Lemma unique_ever_seen_loop_distinct (iterable : list pyval) :
  forall (selector u s : list pyval),
    length iterable = length selector ->
    all_distinct iterable = true ->
    forallb (fun x => negb (ApiUtils.py_in x u)) iterable = true ->
    ApiUtils.unique_ever_seen_loop (zip iterable selector) (u, s)
    = inr (u ++ iterable, s ++ selector).
Proof.
  induction iterable as [|x iterable IH]; intros selector u s Hlen Hd Hu.
  - destruct selector; [|done]. cbn. by rewrite !app_nil_r.
  - destruct selector as [|c selector]; [done|].
    cbn [all_distinct forallb] in Hd, Hu.
    apply andb_prop in Hd as [Hx Hd]. apply andb_prop in Hu as [Hxu Hu].
    cbn [zip zip_with ApiUtils.unique_ever_seen_loop ApiUtils.unique_ever_seen_step].
    rewrite Hxu. cbn [bind_exn]. rewrite IH.
    + by rewrite <- !app_assoc.
    + cbn in Hlen. lia.
    + done.
    + apply forallb_forall. intros y Hy.
      rewrite forallb_forall in Hu. specialize (Hu y Hy).
      apply negb_true_iff in Hu, Hx. apply negb_true_iff.
      unfold ApiUtils.py_in in *. rewrite existsb_app, Hu. cbn [existsb orb].
      rewrite orb_false_r.
      destruct (py_eqb x y) eqn:E; [|done].
      assert (existsb (fun y0 => py_eqb x y0) iterable = true) as Hex
        by (apply existsb_exists; eauto).
      congruence.
Qed.

Lemma unique_ever_seen_distinct (iterable selector : list pyval) :
  length iterable = length selector ->
  all_distinct iterable = true ->
  ApiUtils.unique_ever_seen iterable selector = inr (iterable, selector).
Proof.
  intros Hlen Hd. unfold ApiUtils.unique_ever_seen.
  rewrite unique_ever_seen_loop_distinct; [done..|].
  apply forallb_forall. by intros.
Qed.

(* ===================================================================== *)
(** * Properties: the horizon of each value                               *)
(* ===================================================================== *)

Lemma truediv_pos (t : timedelta) (n : nat) :
  (0 < n)%nat -> PyTime.truediv t n = inr (PyTime.divide_nearest t (Z.of_nat n)).
Proof. destruct n; [lia | reflexivity]. Qed.

Lemma truediv_zero (t : timedelta) : PyTime.truediv t 0 = inl ZeroDivisionError.
Proof. reflexivity. Qed.

(** A quotient that is exact is not rounded. *)
Lemma divide_nearest_exact (k n : Z) :
  0 < n -> PyTime.divide_nearest (k * n) n = k.
Proof.
  intros Hn. unfold PyTime.divide_nearest.
  rewrite Z.mod_mul, Z.div_mul by lia.
  replace (n <? 2 * 0) with false by (symmetry; apply Z.ltb_ge; lia).
  replace (n =? 2 * 0) with false by (symmetry; apply Z.eqb_neq; lia).
  reflexivity.
Qed.

(** Rounding to the nearest is monotone in the dividend. *)
Lemma divide_nearest_mono (a b n : Z) :
  0 < n -> a <= b -> PyTime.divide_nearest a n <= PyTime.divide_nearest b n.
Proof.
  intros Hn Hab. unfold PyTime.divide_nearest.
  pose proof (Z.div_mod a n ltac:(lia)) as Ha.
  pose proof (Z.div_mod b n ltac:(lia)) as Hb.
  pose proof (Z.mod_pos_bound a n Hn) as Ra.
  pose proof (Z.mod_pos_bound b n Hn) as Rb.
  assert (a / n <= b / n) as Hq by (apply Z.div_le_mono; lia).
  destruct (Z.ltb_spec n (2 * (a mod n))), (Z.ltb_spec n (2 * (b mod n)));
    destruct (Z.eqb_spec n (2 * (a mod n))), (Z.eqb_spec n (2 * (b mod n)));
    cbn [orb andb]; try lia;
    destruct (Z.odd (a / n)) eqn:Oa; destruct (Z.odd (b / n)) eqn:Ob; try lia;
    assert (a / n = b / n \/ a / n < b / n) as [E|L] by lia; try lia;
    try (rewrite E in *; congruence); try nia.
Qed.

Section HorizonProofs.

Variables (horizon : timedelta) (rolling : bool)
          (start : datetime) (duration : timedelta).

Lemma slot_datetime_eq (vg : list num) (j : nat) :
  (0 < length vg)%nat ->
  slot_datetime start duration vg j = inr (dt_at start duration (length vg) j).
Proof.
  intros H. unfold slot_datetime. rewrite truediv_pos by done. reflexivity.
Qed.

Lemma slot_horizon_eq (vg : list num) (j : nat) :
  (0 < length vg)%nat ->
  slot_horizon horizon rolling start duration vg
    (dt_at start duration (length vg) j)
  = inr (horizon_at horizon rolling start duration (length vg) j).
Proof.
  intros H. unfold slot_horizon, horizon_at. destruct rolling; [done|].
  rewrite truediv_pos by done. reflexivity.
Qed.

(** The loop from index [j] on builds the measurement [power_at] of every
    value that is left, and ends on the start of the last slot. *)
Lemma power_loop_closed ds asset (vg values : list num) : forall j pm e,
  (0 < length vg)%nat \/ values = [] ->
  power_loop horizon rolling start duration (Some ds) asset vg j values pm e
  = inr (pm ++ imap (fun i => power_at horizon rolling start duration
                                (DataSource.id ds) asset (length vg) (j + i))
                 values,
         match values with
         | [] => e
         | _ :: _ => dt_at start duration (length vg) (j + length values - 1)
         end).
Proof.
  induction values as [|v values IH]; intros j pm e Hn.
  - cbn. by rewrite app_nil_r.
  - destruct Hn as [Hn|Hn]; [|done].
    cbn [power_loop]. rewrite slot_datetime_eq by done. cbn [bind_exn].
    rewrite slot_horizon_eq by done. cbn [bind_exn getattr].
    rewrite IH by auto. rewrite imap_cons. rewrite Nat.add_0_r.
    rewrite <- app_assoc. cbn [app]. f_equal. f_equal.
    + f_equal. f_equal. apply imap_ext. intros. cbn. f_equal. lia.
    + destruct values; cbn [length]; f_equal; lia.
Qed.

Lemma power_loop_whole ds asset (vg : list num) pm :
  power_loop horizon rolling start duration (Some ds) asset vg 0 vg pm start
  = inr (pm ++ powers_of horizon rolling start duration (DataSource.id ds) vg asset,
         match vg with
         | [] => start
         | _ :: _ => dt_at start duration (length vg) (length vg - 1)
         end).
Proof.
  rewrite power_loop_closed.
  - reflexivity.
  - destruct vg; [by right | left; cbn; lia].
Qed.

(** Without a data source the loop raises on the first value. *)
Lemma power_loop_no_source asset (vg : list num) v values j pm e :
  (0 < length vg)%nat ->
  power_loop horizon rolling start duration None asset vg j (v :: values) pm e
  = inl AttributeError.
Proof.
  intros Hn. cbn [power_loop]. rewrite slot_datetime_eq by done. cbn [bind_exn].
  rewrite slot_horizon_eq by done. reflexivity.
Qed.

(** When the duration is a whole multiple [q * n] of the number of slots,
    slot [j] starts at [start + j * q] ... *)
Lemma dt_at_exact (q : Z) (n j : nat) :
  (0 < n)%nat -> duration = q * Z.of_nat n ->
  dt_at start duration n j = start + Z.of_nat j * q.
Proof.
  intros Hn ->. unfold dt_at.
  replace (Z.of_nat j * (q * Z.of_nat n)) with (Z.of_nat j * q * Z.of_nat n) by lia.
  rewrite divide_nearest_exact by lia. reflexivity.
Qed.

(** ... and its fixed horizon lacks one [q] for every slot after it. *)
Lemma horizon_at_exact (q : Z) (n j : nat) :
  (0 < n)%nat -> duration = q * Z.of_nat n -> rolling = false ->
  horizon_at horizon rolling start duration n j
  = horizon - (Z.of_nat n - 1 - Z.of_nat j) * q.
Proof.
  intros Hn Hd ->. unfold horizon_at. rewrite (dt_at_exact q) by done.
  rewrite Hd at 2. rewrite divide_nearest_exact by lia. lia.
Qed.

(** In general the fixed horizon does not decrease with the index. *)
Lemma horizon_at_mono (n j k : nat) :
  (0 < n)%nat -> 0 <= duration -> (j <= k)%nat ->
  horizon_at horizon rolling start duration n j
  <= horizon_at horizon rolling start duration n k.
Proof.
  intros Hn Hd Hjk. unfold horizon_at, dt_at. destruct rolling; [lia|].
  pose proof (divide_nearest_mono (Z.of_nat j * duration) (Z.of_nat k * duration)
                (Z.of_nat n) ltac:(lia) ltac:(nia)).
  lia.
Qed.

End HorizonProofs.

(** C4, as the code has it.  The loop over a value group of length [N]
    builds one measurement for each index [j], at
    [dt_j = start + j * duration / N].  When [rolling] is true its horizon
    is the baseline horizon.  When [rolling] is false its horizon is
    [horizon - ((start + duration) - (dt_j + duration / N))]; if moreover
    the duration is a whole multiple of [N] microseconds, the last index
    gets the baseline horizon exactly, and for a positive duration every
    earlier index gets a strictly smaller horizon than any later one. *)
Theorem horizon_per_value (horizon : timedelta) (rolling : bool)
    (start : datetime) (duration : timedelta)
    (ds : DataSource.t) (asset : Asset.t) (vg : list num) :
  exists pm e,
    power_loop horizon rolling start duration (Some ds) asset vg 0 vg [] start
    = inr (pm, e)
    /\ length pm = length vg
    /\ forall (j : nat) (p : Power.t), pm !! j = Some p ->
         Power.datetime p
         = start + PyTime.divide_nearest (Z.of_nat j * duration) (Z.of_nat (length vg))
         /\ (rolling = true -> Power.horizon p = horizon)
         /\ (rolling = false ->
             Power.horizon p
             = horizon - ((start + duration)
                          - (Power.datetime p
                             + PyTime.divide_nearest duration (Z.of_nat (length vg)))))
         /\ (rolling = false -> (Z.of_nat (length vg) | duration) ->
             (j = (length vg - 1)%nat -> Power.horizon p = horizon)
             /\ (0 < duration ->
                 forall (k : nat) (q : Power.t),
                   (j < k)%nat -> pm !! k = Some q ->
                   Power.horizon p < Power.horizon q)).
Proof.
  eexists _, _. split; [apply power_loop_whole|]. cbn [app].
  split; [apply length_imap|].
  intros j p Hp. unfold powers_of in Hp. rewrite list_lookup_imap in Hp.
  destruct (vg !! j) as [v|] eqn:Hv; [|done]. cbn in Hp. injection Hp as <-.
  apply lookup_lt_Some in Hv as Hj. cbn [Power.datetime Power.horizon power_at].
  split; [reflexivity|]. split; [by intros ->|]. split; [by intros ->|].
  intros Hr [q Hq]. rewrite (horizon_at_exact _ _ _ _ q) by (done || lia).
  split.
  { intros ->.
    replace (Z.of_nat (length vg) - 1 - Z.of_nat (length vg - 1)) with 0 by lia.
    lia. }
  intros Hd k p' Hjk Hp'. unfold powers_of in Hp'.
  rewrite list_lookup_imap in Hp'.
  destruct (vg !! k) as [v'|] eqn:Hv'; [|done]. cbn in Hp'. injection Hp' as <-.
  apply lookup_lt_Some in Hv' as Hk. cbn [Power.horizon power_at].
  rewrite (horizon_at_exact _ _ _ _ q) by (done || lia). nia.
Qed.

(** The fixed horizons of four quarters of an hour with a baseline of two
    hours: the last one is the two hours. *)
Lemma horizon_per_value_witness :
  exists pm e,
    power_loop (PyTime.hours 2) false 0 (PyTime.hours 1) (Some Example.source)
      Example.house Example.quarters 0 Example.quarters [] 0 = inr (pm, e)
    /\ forall p, pm !! 3%nat = Some p -> Power.horizon p = PyTime.hours 2.
Proof.
  destruct (horizon_per_value (PyTime.hours 2) false 0 (PyTime.hours 1)
              Example.source Example.house Example.quarters)
    as (pm & e & Hrun & _ & Hall).
  exists pm, e. split; [exact Hrun|].
  intros p Hp. destruct (Hall 3%nat p Hp) as (_ & _ & _ & Hdiv).
  apply Hdiv; [reflexivity | by exists 900000000 | reflexivity].
Defined.

(** C4, as the claim has it, fails.  With a baseline of two hours the
    fixed horizons of four quarters of an hour are 1h15, 1h30, 1h45 and 2h:
    the earlier slots have the smaller horizons, not the larger ones.  And
    on a window of one microsecond cut in two, both quotients round to zero
    and the last horizon is one microsecond short of the baseline. *)
Lemma horizon_earlier_not_larger :
  (exists pm e,
     power_loop (PyTime.hours 2) false 0 (PyTime.hours 1) (Some Example.source)
       Example.house Example.quarters 0 Example.quarters [] 0 = inr (pm, e)
     /\ Power.horizon <$> pm
        = [PyTime.minutes 75; PyTime.minutes 90; PyTime.minutes 105; PyTime.hours 2]
     /\ ~ earlier_horizons_larger pm)
  /\ (exists pm e,
        power_loop 10 false 0 1 (Some Example.source)
          Example.house [NInt 1; NInt 2] 0 [NInt 1; NInt 2] [] 0 = inr (pm, e)
        /\ Power.horizon <$> pm = [9; 9]).
Proof.
  split.
  - eexists _, _. split; [reflexivity|]. split; [reflexivity|].
    intros H. specialize (H 0%nat 3%nat _ _ ltac:(lia) eq_refl eq_refl).
    vm_compute in H. discriminate.
  - eexists _, _. split; reflexivity.
Qed.

(* ===================================================================== *)
(** * Properties: running the loops of the ingestion                      *)
(* ===================================================================== *)

Lemma run_bind {A B : Type} (m : M A) (f : A -> M B) (w : world) :
  (m ≫= f) w =
  match m w with
  | (Normal a, w') => f a w'
  | (Return r, w') => (Return r, w')
  | (Raise e, w') => (Raise e, w')
  end.
Proof. reflexivity. Qed.

Lemma run_ret {A : Type} (a : A) (w : world) : (mret a : M A) w = (Normal a, w).
Proof. reflexivity. Qed.

Lemma run_ret_bind {A B : Type} (a : A) (f : A -> M B) (w : world) :
  (mret a ≫= f) w = f a w.
Proof. reflexivity. Qed.

Lemma only_logged_refl (w : world) : only_logged w w.
Proof. split; [done|]. exists []. by rewrite app_nil_r. Qed.

Lemma only_logged_trans (w1 w2 w3 : world) :
  only_logged w1 w2 -> only_logged w2 w3 -> only_logged w1 w3.
Proof.
  intros [S1 (l1 & T1 & F1)] [S2 (l2 & T2 & F2)]. split; [congruence|].
  exists (l1 ++ l2). rewrite T2, T1, app_assoc. split; [done|].
  rewrite forallb_app, F1, F2. done.
Qed.

Lemma only_logged_event (level msg : string) (w : world) :
  only_logged w (after_event (EvLog level msg) w).
Proof. split; [done|]. by exists [EvLog level msg]. Qed.

Lemma only_logged_entered (env : Env) (tag : string) (w : world) :
  only_logged w (entered env tag w).
Proof.
  unfold entered. destruct (get_assets env).
  - eapply only_logged_trans; apply only_logged_event.
  - apply only_logged_event.
Qed.

(** No event of a world that was only logged to is a write. *)
Lemma only_logged_no_write (w w' : world) :
  only_logged w w' ->
  exists logs, trace w' = trace w ++ logs /\ existsb is_write logs = false.
Proof.
  intros [_ (logs & Ht & Hl)]. exists logs. split; [done|].
  clear Ht. induction logs as [|ev logs IH]; [done|].
  cbn in *. apply andb_prop in Hl as [H1 H2]. rewrite (IH H2).
  destruct ev; done.
Qed.

Section LoopProofs.

Variable env : Env.
Variables (horizon : timedelta) (rolling : bool)
          (start : datetime) (duration : timedelta).
Variables (data_source : option DataSource.t) (user_asset_ids : list Z).

Local Abbreviation body :=
  (connection_body env horizon rolling start duration data_source user_asset_ids).
Local Abbreviation cloop :=
  (connection_loop env horizon rolling start duration data_source user_asset_ids).
Local Abbreviation gloop :=
  (group_loop env horizon rolling start duration data_source user_asset_ids).
Local Abbreviation ds_id := (default 0 (DataSource.id <$> data_source)).

Lemma resolve_Some (c : string) (a : Asset.t) :
  resolve env user_asset_ids c = Some a <->
  exists asset_id,
    validate_entity_address env c "connection" = Some asset_id
    /\ existsb (Z.eqb asset_id) user_asset_ids = true
    /\ Asset_by_id env asset_id = Some a.
Proof.
  unfold resolve. split.
  - destruct (validate_entity_address env c "connection") as [aid|]; [|done].
    destruct (existsb (Z.eqb aid) user_asset_ids) eqn:E; [|done]. eauto.
  - intros (aid & -> & -> & ->). done.
Qed.

(** The body on a connection whose address parses to an id of the user. *)
Lemma body_authorized vg c asset_id pm jobs w :
  validate_entity_address env c "connection" = Some asset_id ->
  existsb (Z.eqb asset_id) user_asset_ids = true ->
  body vg c (pm, jobs) w =
  match Asset_by_id env asset_id with
  | None => (Raise AttributeError, w)
  | Some a =>
      if too_small a vg then (Return (too_small_response a), w)
      else if too_big a vg then (Return (too_big_response a), w)
      else
        match power_loop horizon rolling start duration data_source a vg 0 vg
                pm start with
        | inl e => (Raise e, w)
        | inr (pm', end_) =>
            (Normal (pm', if start <? end_
                          then jobs ++ make_forecasting_jobs "Power" asset_id start end_
                          else jobs), w)
        end
  end.
Proof.
  intros Hv Hin. unfold connection_body. rewrite Hv, Hin.
  destruct (Asset_by_id env asset_id) as [a|]; [|reflexivity].
  unfold too_small, too_big.
  rewrite !run_bind, run_ret. cbn [getattr lift_exn]. rewrite run_ret_bind.
  destruct (Asset.is_pure_consumer a && existsb Num.lt_zero vg); [reflexivity|].
  rewrite run_ret_bind.
  destruct (Asset.is_pure_producer a && existsb Num.gt_zero vg); [reflexivity|].
  rewrite run_ret_bind, run_bind.
  destruct (power_loop _ _ _ _ _ _ _ _ _ _ _) as [e|[pm' end_]]; [reflexivity|].
  cbn [lift_exn]. rewrite run_ret.
  destruct (start <? end_); reflexivity.
Qed.

(** The body where the address does not parse, and where its id is not one
    of the user's. *)
Lemma body_unparsable vg c st w :
  validate_entity_address env c "connection" = None ->
  body vg c st w =
  (Return (Responses.invalid_domain []),
   after_event (EvLog "warn" "Cannot parse this connection's entity address: %s") w).
Proof. intros Hv. destruct st. unfold connection_body. rewrite Hv. reflexivity. Qed.

Lemma body_unauthorized vg c asset_id st w :
  validate_entity_address env c "connection" = Some asset_id ->
  existsb (Z.eqb asset_id) user_asset_ids = false ->
  body vg c st w =
  (Return (Responses.unrecognized_connection_group []),
   after_event (EvLog "warn" "Cannot identify connection %s") w).
Proof.
  intros Hv Hin. destruct st. unfold connection_body. rewrite Hv, Hin. reflexivity.
Qed.

(** Whatever happens to one connection, the session is left alone, the
    trace grows by log lines only, and a response returned is a rejection. *)
Lemma body_effects vg c st w :
  only_logged w (body vg c st w).2
  /\ match (body vg c st w).1 with Return r => r.2 = 400 | _ => True end.
Proof.
  destruct st as [pm jobs].
  destruct (validate_entity_address env c "connection") as [aid|] eqn:Hv.
  - destruct (existsb (Z.eqb aid) user_asset_ids) eqn:Hin.
    + rewrite (body_authorized _ _ _ _ _ _ Hv Hin).
      destruct (Asset_by_id env aid) as [a|]; [|split; [apply only_logged_refl|done]].
      destruct (too_small a vg); [split; [apply only_logged_refl|done]|].
      destruct (too_big a vg); [split; [apply only_logged_refl|done]|].
      destruct (power_loop _ _ _ _ _ _ _ _ _ _ _) as [e|[pm' end_]];
        (split; [apply only_logged_refl|done]).
    + rewrite (body_unauthorized _ _ _ _ _ Hv Hin).
      split; [apply only_logged_event|done].
  - rewrite (body_unparsable _ _ _ _ Hv). split; [apply only_logged_event|done].
Qed.

Lemma cloop_effects vg cg : forall st w,
  only_logged w (cloop vg cg st w).2
  /\ match (cloop vg cg st w).1 with Return r => r.2 = 400 | _ => True end.
Proof.
  induction cg as [|c cg IH]; intros st w; [split; [apply only_logged_refl|done]|].
  cbn [connection_loop]. rewrite run_bind.
  pose proof (body_effects vg c st w) as [Hb Hr].
  destruct (body vg c st w) as [[st'|r|e] w1]; cbn [fst snd] in *; [|done..].
  destruct (IH st' w1) as [Hl Hr']. split; [|done].
  eapply only_logged_trans; [exact Hb | exact Hl].
Qed.

Lemma gloop_effects pairs : forall st w,
  only_logged w (gloop pairs st w).2
  /\ match (gloop pairs st w).1 with Return r => r.2 = 400 | _ => True end.
Proof.
  induction pairs as [|[cg vg] pairs IH]; intros st w;
    [split; [apply only_logged_refl|done]|].
  cbn [group_loop]. rewrite run_bind.
  pose proof (cloop_effects vg cg st w) as [Hb Hr].
  destruct (cloop vg cg st w) as [[st'|r|e] w1]; cbn [fst snd] in *; [|done..].
  destruct (IH st' w1) as [Hl Hr']. split; [|done].
  eapply only_logged_trans; [exact Hb | exact Hl].
Qed.

(** The loops on a list in two parts. *)
Lemma cloop_app vg cg1 cg2 : forall st w,
  cloop vg (cg1 ++ cg2) st w =
  match cloop vg cg1 st w with
  | (Normal st', w') => cloop vg cg2 st' w'
  | (Return r, w') => (Return r, w')
  | (Raise e, w') => (Raise e, w')
  end.
Proof.
  induction cg1 as [|c cg1 IH]; intros st w; [reflexivity|].
  cbn [app connection_loop]. rewrite !run_bind.
  destruct (body vg c st w) as [[st'|r|e] w1]; [apply IH | done..].
Qed.

Lemma gloop_app pre post : forall st w,
  gloop (pre ++ post) st w =
  match gloop pre st w with
  | (Normal st', w') => gloop post st' w'
  | (Return r, w') => (Return r, w')
  | (Raise e, w') => (Raise e, w')
  end.
Proof.
  induction pre as [|[cg vg] pre IH]; intros st w; [reflexivity|].
  cbn [app group_loop]. rewrite !run_bind.
  destruct (cloop vg cg st w) as [[st'|r|e] w1]; [apply IH | done..].
Qed.

End LoopProofs.

Section AcceptedProofs.

Variable env : Env.
Variables (horizon : timedelta) (rolling : bool)
          (start : datetime) (duration : timedelta).
Variables (data_source : option DataSource.t) (user_asset_ids : list Z).

Local Abbreviation body :=
  (connection_body env horizon rolling start duration data_source user_asset_ids).
Local Abbreviation cloop :=
  (connection_loop env horizon rolling start duration data_source user_asset_ids).
Local Abbreviation gloop :=
  (group_loop env horizon rolling start duration data_source user_asset_ids).
Local Abbreviation ds_id := (default 0 (DataSource.id <$> data_source)).
Local Abbreviation blocks :=
  (block env horizon rolling start duration ds_id user_asset_ids).

(** An accepted connection adds the measurements of its block and leaves
    the world as it is. *)
Lemma body_accepted vg c pm jobs w :
  accepted env data_source user_asset_ids vg c = true ->
  exists jobs', body vg c (pm, jobs) w = (Normal (pm ++ blocks vg c, jobs'), w).
Proof.
  unfold accepted, block.
  destruct (resolve env user_asset_ids c) as [a|] eqn:Hr; [|done].
  intros H. apply andb_prop in H as [H Hds]. apply andb_prop in H as [Hs Hb].
  apply negb_true_iff in Hs, Hb.
  apply resolve_Some in Hr as (aid & Hv & Hin & Ha).
  assert (exists e,
    power_loop horizon rolling start duration data_source a vg 0 vg pm start
    = inr (pm ++ powers_of horizon rolling start duration ds_id vg a, e))
    as [e Hloop].
  { destruct data_source as [ds|].
    - eexists. apply power_loop_whole.
    - destruct vg; [|done]. exists start. cbn. by rewrite app_nil_r. }
  eexists. rewrite (body_authorized _ _ _ _ _ _ _ _ _ _ _ _ _ Hv Hin).
  rewrite Ha, Hs, Hb, Hloop. reflexivity.
Qed.

(** Only an accepted connection lets the loop go on. *)
Lemma body_Normal vg c st w st' w' :
  body vg c st w = (Normal st', w') ->
  accepted env data_source user_asset_ids vg c = true.
Proof.
  destruct st as [pm jobs]. intros H. unfold accepted, resolve.
  destruct (validate_entity_address env c "connection") as [aid|] eqn:Hv.
  - destruct (existsb (Z.eqb aid) user_asset_ids) eqn:Hin.
    + rewrite (body_authorized _ _ _ _ _ _ _ _ _ _ _ _ _ Hv Hin) in H.
      destruct (Asset_by_id env aid) as [a|]; [|done].
      destruct (too_small a vg); [done|].
      destruct (too_big a vg); [done|]. cbn [negb andb].
      destruct vg as [|v vg]; [done|]. destruct data_source; [done|].
      rewrite power_loop_no_source in H by (cbn; lia). done.
    + by rewrite (body_unauthorized _ _ _ _ _ _ _ _ _ _ _ _ Hv Hin) in H.
  - by rewrite (body_unparsable _ _ _ _ _ _ _ _ _ _ _ Hv) in H.
Qed.

Lemma cloop_accepted vg cg : forall pm jobs w,
  forallb (accepted env data_source user_asset_ids vg) cg = true ->
  exists jobs', cloop vg cg (pm, jobs) w = (Normal (pm ++ (cg ≫= blocks vg), jobs'), w).
Proof.
  induction cg as [|c cg IH]; intros pm jobs w Hacc.
  - exists jobs. cbn. by rewrite app_nil_r.
  - cbn [forallb] in Hacc. apply andb_prop in Hacc as [Hc Hcg].
    destruct (body_accepted vg c pm jobs w Hc) as (jobs1 & Hb).
    destruct (IH (pm ++ blocks vg c) jobs1 w Hcg) as (jobs2 & Hl).
    exists jobs2. cbn [connection_loop]. rewrite run_bind, Hb, Hl.
    by rewrite bind_cons, app_assoc.
Qed.

Lemma cloop_Normal vg cg : forall st w st' w',
  cloop vg cg st w = (Normal st', w') ->
  forallb (accepted env data_source user_asset_ids vg) cg = true.
Proof.
  induction cg as [|c cg IH]; intros st w st' w' H; [done|].
  cbn [connection_loop] in H. rewrite run_bind in H.
  destruct (body vg c st w) as [[st1|r|e] w1] eqn:Hb; [|done..].
  cbn [forallb]. rewrite (body_Normal _ _ _ _ _ _ Hb). cbn [andb]. eauto.
Qed.

Lemma gloop_accepted pairs : forall pm jobs w,
  forallb (accepted_group env data_source user_asset_ids) pairs = true ->
  exists jobs',
    gloop pairs (pm, jobs) w
    = (Normal (pm ++ batch_of env horizon rolling start duration ds_id
                       user_asset_ids pairs, jobs'), w).
Proof.
  induction pairs as [|[cg vg] pairs IH]; intros pm jobs w Hacc.
  - exists jobs. cbn. by rewrite app_nil_r.
  - cbn [forallb] in Hacc. apply andb_prop in Hacc as [Hc Hcg].
    destruct (cloop_accepted vg cg pm jobs w Hc) as (jobs1 & Hb).
    destruct (IH (pm ++ (cg ≫= blocks vg)) jobs1 w Hcg) as (jobs2 & Hl).
    exists jobs2. cbn [group_loop]. rewrite run_bind, Hb, Hl.
    unfold batch_of. by rewrite bind_cons, app_assoc.
Qed.

Lemma gloop_Normal pairs : forall st w st' w',
  gloop pairs st w = (Normal st', w') ->
  forallb (accepted_group env data_source user_asset_ids) pairs = true.
Proof.
  induction pairs as [|[cg vg] pairs IH]; intros st w st' w' H; [done|].
  cbn [group_loop] in H. rewrite run_bind in H.
  destruct (cloop vg cg st w) as [[st1|r|e] w1] eqn:Hb; [|done..].
  cbn [forallb]. unfold accepted_group at 1. cbn [fst snd].
  rewrite (cloop_Normal _ _ _ _ _ _ Hb). cbn [andb]. eauto.
Qed.

Lemma accepted_resolves vg c :
  accepted env data_source user_asset_ids vg c = true ->
  is_Some (resolve env user_asset_ids c).
Proof. unfold accepted. destruct (resolve env user_asset_ids c); [eauto|done]. Qed.

Lemma accepted_groups_resolve pairs :
  forallb (accepted_group env data_source user_asset_ids) pairs = true ->
  Forall (fun p => Forall (fun c => is_Some (resolve env user_asset_ids c)) p.1) pairs.
Proof.
  intros H. rewrite forallb_forall in H.
  apply Forall_forall. intros p Hp. apply list_elem_of_In in Hp.
  specialize (H p Hp). unfold accepted_group in H. rewrite forallb_forall in H.
  apply Forall_forall. intros c Hc. apply list_elem_of_In in Hc.
  eapply accepted_resolves, H, Hc.
Qed.

Lemma batch_of_length (id_ : Z) pairs :
  Forall (fun p => Forall (fun c => is_Some (resolve env user_asset_ids c)) p.1) pairs ->
  length (batch_of env horizon rolling start duration id_ user_asset_ids pairs)
  = sum_list ((fun p => length p.1 * length p.2)%nat <$> pairs).
Proof.
  induction 1 as [|[cg vg] pairs Hcg _ IH]; [done|].
  unfold batch_of in *. rewrite bind_cons, length_app, IH.
  cbn [fmap list_fmap sum_list sum_list_with fst snd].
  f_equal. cbn [fst] in Hcg. clear IH.
  induction Hcg as [|c cg [a Ha] _ IH]; [done|].
  rewrite bind_cons, length_app, IH. unfold block at 1. rewrite Ha.
  unfold powers_of. rewrite length_imap. cbn [length]. unfold id. lia.
Qed.

End AcceptedProofs.

(** C10.  When the loop over the pairs of a request completes, its batch
    holds, for every pair and every connection of its group, one
    measurement for each value of the whole value group: at index [j] the
    datetime [start + j * duration / len], the value with its sign
    reversed, the horizon, the id of the asset of the connection and the id
    of the data source.  Every connection resolves to an asset, and the
    batch has as many measurements as the sum over the pairs of the length
    of the group times the length of the values. *)
Theorem batch_covers_groups (env : Env) (horizon : timedelta) (rolling : bool)
    (start : datetime) (duration : timedelta) (ds : DataSource.t)
    (user_asset_ids : list Z) (pairs : list (list string * list num))
    (w w' : world) (pm : list Power.t) (jobs : list Job.t) :
  group_loop env horizon rolling start duration (Some ds) user_asset_ids
    pairs ([], []) w = (Normal (pm, jobs), w') ->
  pm = batch_of env horizon rolling start duration (DataSource.id ds)
         user_asset_ids pairs
  /\ Forall (fun p => Forall (fun c => is_Some (resolve env user_asset_ids c)) p.1)
       pairs
  /\ length pm = sum_list ((fun p => length p.1 * length p.2)%nat <$> pairs).
Proof.
  intros Hrun. pose proof (gloop_Normal _ _ _ _ _ _ _ _ _ _ _ _ Hrun) as Hacc.
  destruct (gloop_accepted env horizon rolling start duration (Some ds)
              user_asset_ids pairs [] [] w Hacc) as (jobs' & Heq).
  rewrite Hrun in Heq. injection Heq as -> _ _. cbn [app].
  pose proof (accepted_groups_resolve _ _ _ _ Hacc) as Hres.
  split; [reflexivity|]. split; [exact Hres|].
  by apply batch_of_length.
Qed.

(** A request of four values for the house and two for the solar panel:
    six measurements. *)
Lemma batch_covers_groups_witness :
  exists pm jobs w',
    group_loop Example.strict (PyTime.hours 2) false 0 (PyTime.hours 1)
      (Some Example.source) Example.ids
      [([Example.ea_house], Example.quarters);
       ([Example.ea_solar], [NInt (-1); NInt (-2)])] ([], []) Example.fresh
    = (Normal (pm, jobs), w')
    /\ length pm = 6%nat.
Proof.
  destruct (group_loop Example.strict (PyTime.hours 2) false 0 (PyTime.hours 1)
      (Some Example.source) Example.ids
      [([Example.ea_house], Example.quarters);
       ([Example.ea_solar], [NInt (-1); NInt (-2)])] ([], []) Example.fresh)
    as [[[pm jobs]|r|e] w'] eqn:Hrun;
    [|vm_compute in Hrun; discriminate..].
  exists pm, jobs, w'. split; [reflexivity|].
  destruct (batch_covers_groups _ _ _ _ _ _ _ _ _ _ _ _ Hrun) as (_ & _ & Hlen).
  rewrite Hlen. reflexivity.
Defined.

(* ===================================================================== *)
(** * Properties: empty value groups                                      *)
(* ===================================================================== *)

(** C9.  On an empty value group the body of the connection loop depends on
    the address alone: a connection that resolves leaves the measurements,
    the job descriptors and the world as they are; the only other outcomes
    are the two address rejections and the missing asset row.  There is no
    sign rejection and no [ZeroDivisionError], although the division by the
    length 0 would raise.  Hence a pair with an empty value group whose
    connections resolve can be dropped from the request. *)
Theorem empty_value_group_noop (env : Env) (horizon : timedelta)
    (rolling : bool) (start : datetime) (duration : timedelta)
    (data_source : option DataSource.t) (user_asset_ids : list Z) :
  (forall c pm jobs w,
     connection_body env horizon rolling start duration data_source
       user_asset_ids [] c (pm, jobs) w
     = match validate_entity_address env c "connection" with
       | None =>
           (Return (Responses.invalid_domain []),
            after_event
              (EvLog "warn" "Cannot parse this connection's entity address: %s") w)
       | Some asset_id =>
           if existsb (Z.eqb asset_id) user_asset_ids then
             match Asset_by_id env asset_id with
             | Some _ => (Normal (pm, jobs), w)
             | None => (Raise AttributeError, w)
             end
           else
             (Return (Responses.unrecognized_connection_group []),
              after_event (EvLog "warn" "Cannot identify connection %s") w)
       end)
  /\ (forall cg pre post st w,
        Forall (fun c => is_Some (resolve env user_asset_ids c)) cg ->
        connection_loop env horizon rolling start duration data_source
          user_asset_ids [] cg st w = (Normal st, w)
        /\ group_loop env horizon rolling start duration data_source
             user_asset_ids (pre ++ (cg, []) :: post) st w
           = group_loop env horizon rolling start duration data_source
               user_asset_ids (pre ++ post) st w)
  /\ PyTime.truediv duration (length (@nil num)) = inl ZeroDivisionError.
Proof.
  assert (forall c pm jobs w,
     connection_body env horizon rolling start duration data_source
       user_asset_ids [] c (pm, jobs) w
     = match validate_entity_address env c "connection" with
       | None =>
           (Return (Responses.invalid_domain []),
            after_event
              (EvLog "warn" "Cannot parse this connection's entity address: %s") w)
       | Some asset_id =>
           if existsb (Z.eqb asset_id) user_asset_ids then
             match Asset_by_id env asset_id with
             | Some _ => (Normal (pm, jobs), w)
             | None => (Raise AttributeError, w)
             end
           else
             (Return (Responses.unrecognized_connection_group []),
              after_event (EvLog "warn" "Cannot identify connection %s") w)
       end) as Hbody.
  { intros c pm jobs w.
    destruct (validate_entity_address env c "connection") as [aid|] eqn:Hv;
      [|by apply body_unparsable].
    destruct (existsb (Z.eqb aid) user_asset_ids) eqn:Hin;
      [|by eapply body_unauthorized].
    rewrite (body_authorized _ _ _ _ _ _ _ _ _ _ _ _ _ Hv Hin).
    destruct (Asset_by_id env aid) as [a|]; [|reflexivity].
    unfold too_small, too_big. cbn [existsb power_loop].
    rewrite !andb_false_r, Z.ltb_irrefl. reflexivity. }
  assert (forall cg st w,
        Forall (fun c => is_Some (resolve env user_asset_ids c)) cg ->
        connection_loop env horizon rolling start duration data_source
          user_asset_ids [] cg st w = (Normal st, w)) as Hloop.
  { intros cg st w Hres. induction Hres as [|c cg [a Ha] _ IH]; [reflexivity|].
    cbn [connection_loop]. rewrite run_bind. destruct st as [pm jobs].
    rewrite Hbody. apply resolve_Some in Ha as (aid & -> & -> & ->). exact IH. }
  split; [exact Hbody|]. split; [|reflexivity].
  intros cg pre post st w Hres. split; [by apply Hloop|].
  rewrite !gloop_app.
  destruct (group_loop _ _ _ _ _ _ _ pre st w) as [[st'|r|e] w1]; [|done..].
  cbn [group_loop]. rewrite run_bind, Hloop by done. reflexivity.
Qed.

(** A request whose first pair has no values for the house and the solar
    panel builds what the request without that pair builds. *)
Lemma empty_value_group_noop_witness :
  Forall (fun c => is_Some (resolve Example.strict Example.ids c))
    [Example.ea_house; Example.ea_solar]
  /\ group_loop Example.strict (PyTime.hours 2) false 0 (PyTime.hours 1) None
       Example.ids
       ([] ++ ([Example.ea_house; Example.ea_solar], [])
           :: [([Example.ea_house], [])]) ([], []) Example.fresh
     = group_loop Example.strict (PyTime.hours 2) false 0 (PyTime.hours 1) None
         Example.ids ([] ++ [([Example.ea_house], [])]) ([], []) Example.fresh.
Proof.
  assert (Forall (fun c => is_Some (resolve Example.strict Example.ids c))
            [Example.ea_house; Example.ea_solar]) as Hres.
  { repeat constructor; vm_compute; eauto. }
  split; [exact Hres|].
  apply (empty_value_group_noop Example.strict (PyTime.hours 2) false 0
           (PyTime.hours 1) None Example.ids).
  exact Hres.
Defined.

(* ===================================================================== *)
(** * Properties: the sign rule                                           *)
(* ===================================================================== *)

(** The function is its first lines, the loop over the pairs, and the save
    block when the loop completes. *)
Lemma create_run (env : Env) (horizon : timedelta) (rolling : bool)
    (start : datetime) (duration : timedelta) (unit_ : string)
    (groups : list (list string)) (values : list (list num)) (w : world) :
  create_connection_and_value_groups env horizon rolling start duration
    unit_ groups values w
  = match group_loop env horizon rolling start duration
            (DataSource_of_current_user env) (Asset.id <$> get_assets env)
            (zip groups values) ([], []) (entered env "POSTING POWER DATA" w) with
    | (Normal (pm, jobs), w1) => save_block env pm jobs w1
    | (Return r, w1) => (Return r, w1)
    | (Raise e, w1) => (Raise e, w1)
    end.
Proof.
  unfold create_connection_and_value_groups, entered.
  rewrite run_bind. cbn [logger_info emit]. rewrite run_bind.
  destruct (get_assets env) as [|a0 assets]; cbn [logger_info emit];
    rewrite ?run_ret, run_bind;
    destruct (group_loop _ _ _ _ _ _ _ _ _ _) as [[[pm jobs]|r|e] w1];
    reflexivity.
Qed.

Section SignRule.

Variable env : Env.
Variables (horizon : timedelta) (rolling : bool)
          (start : datetime) (duration : timedelta).
Variables (data_source : option DataSource.t) (user_asset_ids : list Z).

(** A connection that breaks the sign rule is not accepted. *)
Lemma violation_not_accepted vg c a :
  resolve env user_asset_ids c = Some a ->
  too_small a vg || too_big a vg = true ->
  accepted env data_source user_asset_ids vg c = false.
Proof.
  intros Hr Hv. unfold accepted. rewrite Hr.
  destruct (too_small a vg), (too_big a vg); done.
Qed.

(** The loop stops at the first connection that breaks the sign rule, with
    the rejection of that connection. *)
Lemma gloop_first_violation pre cg1 c cg2 vg post a pm jobs w :
  forallb (accepted_group env data_source user_asset_ids) pre = true ->
  forallb (accepted env data_source user_asset_ids vg) cg1 = true ->
  resolve env user_asset_ids c = Some a ->
  too_small a vg || too_big a vg = true ->
  group_loop env horizon rolling start duration data_source user_asset_ids
    (pre ++ (cg1 ++ c :: cg2, vg) :: post) (pm, jobs) w
  = (Return (if too_small a vg then too_small_response a
             else too_big_response a), w).
Proof.
  intros Hpre Hcg1 Hr Hv.
  destruct (gloop_accepted env horizon rolling start duration data_source
              user_asset_ids pre pm jobs w Hpre) as (jobs1 & H1).
  rewrite gloop_app, H1. cbn [group_loop]. rewrite run_bind, cloop_app.
  destruct (cloop_accepted env horizon rolling start duration data_source
              user_asset_ids vg cg1
              (pm ++ batch_of env horizon rolling start duration
                       (default 0 (DataSource.id <$> data_source))
                       user_asset_ids pre) jobs1 w Hcg1) as (jobs2 & H2).
  rewrite H2. cbn [connection_loop]. rewrite run_bind.
  apply resolve_Some in Hr as (aid & Hp & Hin & Ha).
  rewrite (body_authorized _ _ _ _ _ _ _ _ _ _ _ _ _ Hp Hin), Ha.
  destruct (too_small a vg); [reflexivity|].
  cbn [orb] in Hv. rewrite Hv. reflexivity.
Qed.

End SignRule.

(** C3, as the code has it.  A request with a connection that resolves to a
    pure consumer and is paired with a negative value, or to a pure producer
    and paired with a positive value, writes nothing: the session is
    unchanged, the trace grows by log lines only, and the request ends on a
    response with status code 400 or on an exception.  When every connection
    before this one is accepted, the response is [PowerValueTooSmall] for
    the consumer with a negative value, and else [PowerValueTooBig]. *)
Theorem sign_violation_rejects (env : Env) (horizon : timedelta)
    (rolling : bool) (start : datetime) (duration : timedelta)
    (unit_ : string) (groups : list (list string)) (values : list (list num))
    (w : world) (cg : list string) (vg : list num) (c : string) (a : Asset.t) :
  (cg, vg) ∈ zip groups values ->
  c ∈ cg ->
  resolve env (Asset.id <$> get_assets env) c = Some a ->
  too_small a vg || too_big a vg = true ->
  exists fl w',
    create_connection_and_value_groups env horizon rolling start duration
      unit_ groups values w = (fl, w')
    /\ only_logged w w'
    /\ existsb is_write (drop (length (trace w)) (trace w')) = false
    /\ rejected fl
    /\ forall pre cg1 cg2 post,
         zip groups values = pre ++ (cg1 ++ c :: cg2, vg) :: post ->
         forallb (accepted_group env (DataSource_of_current_user env)
                    (Asset.id <$> get_assets env)) pre = true ->
         forallb (accepted env (DataSource_of_current_user env)
                    (Asset.id <$> get_assets env) vg) cg1 = true ->
         fl = Return (if too_small a vg then too_small_response a
                      else too_big_response a).
Proof.
  intros Hin Hc Hr Hv. rewrite create_run.
  pose proof (violation_not_accepted env (DataSource_of_current_user env)
                _ vg c a Hr Hv) as Hna.
  pose proof (only_logged_entered env "POSTING POWER DATA" w) as Hent.
  pose proof (gloop_effects env horizon rolling start duration
                (DataSource_of_current_user env) (Asset.id <$> get_assets env)
                (zip groups values) ([], [])
                (entered env "POSTING POWER DATA" w)) as [Hlog Hcode].
  destruct (group_loop _ _ _ _ _ _ _ _ _ _) as [[[pm jobs]|r|e] w1] eqn:Hrun;
    cbn [fst snd] in *.
  - apply gloop_Normal in Hrun. rewrite forallb_forall in Hrun.
    apply list_elem_of_In in Hin. specialize (Hrun _ Hin).
    unfold accepted_group in Hrun. cbn [fst snd] in Hrun.
    rewrite forallb_forall in Hrun. apply list_elem_of_In in Hc.
    rewrite (Hrun _ Hc) in Hna. done.
  - assert (only_logged w w1) as Hw by (eapply only_logged_trans; eauto).
    exists (Return r), w1. split; [done|]. split; [done|]. split.
    { destruct (only_logged_no_write _ _ Hw) as (logs & -> & Hl).
      by rewrite drop_app_length. }
    split; [done|]. intros pre cg1 cg2 post Hz Hpre Hcg1. rewrite Hz in Hrun.
    rewrite (gloop_first_violation _ _ _ _ _ _ _ _ _ _ _ _ _ a) in Hrun by done.
    by injection Hrun as <- _.
  - assert (only_logged w w1) as Hw by (eapply only_logged_trans; eauto).
    exists (Raise e), w1. split; [done|]. split; [done|]. split.
    { destruct (only_logged_no_write _ _ Hw) as (logs & -> & Hl).
      by rewrite drop_app_length. }
    split; [done|]. intros pre cg1 cg2 post Hz Hpre Hcg1. rewrite Hz in Hrun.
    rewrite (gloop_first_violation _ _ _ _ _ _ _ _ _ _ _ _ _ a) in Hrun by done.
    done.
Qed.

(** A negative value for the house: the request is answered with
    [PowerValueTooSmall] and the stored measurement is as it was. *)
Lemma sign_violation_rejects_witness :
  exists fl w',
    create_connection_and_value_groups Example.strict (PyTime.hours 2) false 0
      (PyTime.hours 1) "MW" [[Example.ea_house]] [[NInt (-1)]] Example.filled
    = (fl, w')
    /\ session w' = session Example.filled
    /\ fl = Return (too_small_response Example.house).
Proof.
  destruct (sign_violation_rejects Example.strict (PyTime.hours 2) false 0
              (PyTime.hours 1) "MW" [[Example.ea_house]] [[NInt (-1)]]
              Example.filled [Example.ea_house] [NInt (-1)] Example.ea_house
              Example.house)
    as (fl & w' & Hrun & [Hs _] & _ & _ & Hfirst).
  - repeat constructor.
  - repeat constructor.
  - reflexivity.
  - reflexivity.
  - exists fl, w'. split; [exact Hrun|]. split; [exact Hs|].
    apply (Hfirst [] [] [] []); reflexivity.
Defined.

(** C3, as the claim has it, fails.  The solar panel, a pure producer, comes
    first with a positive value, and the house, a pure consumer, second with
    a negative one: the request has a pure consumer with a negative value
    and is answered with [PowerValueTooBig], not [PowerValueTooSmall]. *)
Lemma sign_violation_not_always_too_small :
  ([Example.ea_house], [NInt (-1)])
    ∈ zip [[Example.ea_solar]; [Example.ea_house]] [[NInt 1]; [NInt (-1)]]
  /\ resolve Example.strict (Asset.id <$> get_assets Example.strict)
       Example.ea_house = Some Example.house
  /\ Asset.is_pure_consumer Example.house = true
  /\ existsb Num.lt_zero [NInt (-1)] = true
  /\ (create_connection_and_value_groups Example.strict (PyTime.hours 2) false 0
        (PyTime.hours 1) "MW" [[Example.ea_solar]; [Example.ea_house]]
        [[NInt 1]; [NInt (-1)]] Example.fresh).1
     = Return (too_big_response Example.solar)
  /\ Responses.status (too_big_response Example.solar)
     = Some (PStr "POWER_VALUE_TOO_BIG")
  /\ Responses.status (too_big_response Example.solar)
     <> Responses.status (too_small_response Example.house).
Proof.
  split; [repeat constructor|].
  split; [reflexivity|]. split; [reflexivity|]. split; [reflexivity|].
  split; [vm_compute; reflexivity|]. split; [reflexivity|].
  vm_compute. discriminate.
Qed.

(* ===================================================================== *)
(** * Properties: an asset of the user without a row                      *)
(* ===================================================================== *)

Lemma collect_run (env : Env) (unit_ resolution : string)
    (horizon_window : option timedelta * option timedelta)
    (start : datetime) (duration : timedelta)
    (connection_groups : list (list string))
    (preferred fallback : option (list Z)) (rolling : bool) (w : world)
    (e : exn) (w1 : world) :
  connections_loop env (Asset.id <$> get_assets env) resolution horizon_window
    start (start + duration) preferred fallback rolling connection_groups
    ([], []) (entered env "GETTING" w) = (Raise e, w1) ->
  collect_connection_and_value_groups env unit_ resolution horizon_window
    start duration connection_groups preferred fallback rolling w
  = (Raise e, w1).
Proof.
  intros H. unfold collect_connection_and_value_groups, entered in *.
  rewrite run_bind. cbn [logger_info emit]. rewrite run_bind.
  destruct (get_assets env) as [|a0 assets]; cbn [logger_info emit] in *;
    rewrite ?run_ret, run_bind, H; reflexivity.
Qed.

(** C6.  The address [c] parses to an asset id of the user and the asset
    table has no row for it.  Then a query and an ingestion that meet [c]
    first both end on an [AttributeError], raised where the attribute of
    the missing asset is read; nothing is logged about it and no
    [UnrecognizedConnectionGroup] is returned. *)
Theorem missing_asset_row_raises (env : Env) (c : string) (asset_id : Z) :
  validate_entity_address env c "connection" = Some asset_id ->
  existsb (Z.eqb asset_id) (Asset.id <$> get_assets env) = true ->
  Asset_by_id env asset_id = None ->
  (forall unit_ resolution horizon_window start duration cg rest preferred
          fallback rolling w,
     collect_connection_and_value_groups env unit_ resolution horizon_window
       start duration ((c :: cg) :: rest) preferred fallback rolling w
     = (Raise AttributeError, entered env "GETTING" w))
  /\ (forall horizon rolling start duration unit_ cg rest vg vrest w,
        create_connection_and_value_groups env horizon rolling start duration
          unit_ ((c :: cg) :: rest) (vg :: vrest) w
        = (Raise AttributeError, entered env "POSTING POWER DATA" w)).
Proof.
  intros Hv Hin Ha. split.
  - intros. apply collect_run. cbn [connections_loop asset_names_loop].
    rewrite Hv, Hin, run_bind, run_bind, run_ret, Ha. reflexivity.
  - intros. rewrite create_run. cbn [zip zip_with group_loop connection_loop].
    rewrite !run_bind.
    rewrite (body_authorized _ _ _ _ _ _ _ _ _ _ _ _ _ Hv Hin), Ha.
    reflexivity.
Qed.

(** The asset that [get_assets] lists and that has no row. *)
Lemma missing_asset_row_raises_witness :
  (collect_connection_and_value_groups Example.strict "MW" "PT15M"
     (Some 0, Some 0) 0 (PyTime.hours 1) [[Example.ea_gone]] None None false
     Example.fresh).1 = Raise AttributeError
  /\ (create_connection_and_value_groups Example.strict (PyTime.hours 2) false 0
        (PyTime.hours 1) "MW" [[Example.ea_gone]] [Example.quarters]
        Example.fresh).1 = Raise AttributeError.
Proof.
  destruct (missing_asset_row_raises Example.strict Example.ea_gone 3)
    as [Hq Hp]; [reflexivity..|].
  split; [by rewrite Hq | by rewrite Hp].
Defined.

(* ===================================================================== *)
(** * Properties: the reversal of the sign                                *)
(* ===================================================================== *)

(** [float(-1)] is -1.0: sign bit set, mantissa 2^52, exponent -52. *)
Lemma float_of_int_m1 :
  Num.float_of_int (-1) = S754_finite true 4503599627370496 (-52).
Proof. reflexivity. Qed.

Lemma digits2_pos_shift52 (m : positive) :
  Z.pos (digits2_pos (4503599627370496 * m)) = Z.pos (digits2_pos m) + 52.
Proof. cbv [Pos.mul]. cbn [digits2_pos]. rewrite !Pos2Z.inj_succ. lia. Qed.

Lemma shr_52 (m : positive) (e : Z) :
  shr {| shr_m := Z.pos (4503599627370496 * m); shr_r := false; shr_s := false |} e 52
  = ({| shr_m := Z.pos m; shr_r := false; shr_s := false |}, e + 52).
Proof. reflexivity. Qed.

(** The product of a binary64 number and -1.0 is exact: the rounding of
    [m * 2^52] at exponent [e - 52] shifts the 52 zeros out again. *)
Lemma mul_m1_finite (s : bool) (m : positive) (e : Z) :
  bounded Num.prec Num.emax m e = true ->
  SFmul Num.prec Num.emax (S754_finite s m e) (Num.float_of_int (-1))
  = S754_finite (negb s) m e.
Proof.
  intros Hb. unfold bounded in Hb. apply andb_prop in Hb as [Hc He].
  unfold canonical_mantissa in Hc. apply Z.eqb_eq in Hc.
  rewrite float_of_int_m1. cbn [SFmul]. rewrite Pos.mul_comm.
  unfold binary_round_aux, shr_fexp. cbn [Zdigits2 shr_record_of_loc].
  rewrite digits2_pos_shift52.
  replace (Z.pos (digits2_pos m) + 52 + (e + -52))
    with (Z.pos (digits2_pos m) + e) by lia.
  rewrite Hc. replace (e - (e + -52)) with 52 by lia.
  rewrite shr_52.
  cbn [shr_m loc_of_shr_record round_nearest_even Zdigits2 shr_record_of_loc].
  replace (e + -52 + 52) with e by lia. rewrite Hc, Z.sub_diag. cbn [shr shr_m].
  rewrite He. by destruct s.
Qed.

(** On a finite number the reversal is the negation. *)
Lemma reverse_sign_opp (x : num) :
  Num.finite x ->
  reverse_sign x = match x with
                   | NInt z => NInt (- z)
                   | NFloat f => NFloat (SFopp f)
                   end.
Proof.
  unfold reverse_sign, Num.mul_int.
  destruct x as [z|[s|s| |s m e]]; cbn [Num.finite]; intros H.
  - f_equal. lia.
  - destruct s; reflexivity.
  - destruct H.
  - destruct H.
  - by rewrite mul_m1_finite.
Qed.

Lemma reverse_sign_finite (x : num) : Num.finite x -> Num.finite (reverse_sign x).
Proof.
  intros H. rewrite reverse_sign_opp by done.
  destruct x as [z|[s|s| |s m e]]; done.
Qed.

Lemma reverse_sign_involutive (x : num) :
  Num.finite x -> reverse_sign (reverse_sign x) = x.
Proof.
  intros H. rewrite (reverse_sign_opp (reverse_sign x)) by by apply reverse_sign_finite.
  rewrite reverse_sign_opp by done.
  destruct x as [z|[s|s| |s m e]]; cbn [SFopp]; rewrite ?negb_involutive; try done.
  f_equal. lia.
Qed.

(** C5.  The reversal of the sign, [x * -1], is the negation on finite
    numbers, and applied twice to an array of finite numbers it gives the
    array back.  It is the one operation at both boundaries: the
    measurements that the ingestion builds of a value group carry the
    reversed values, and the value groups that the query builds of the
    stored series are the reversed series. *)
Theorem sign_translation_involutive :
  (forall v : list num,
     Forall Num.finite v ->
     reverse_sign <$> (reverse_sign <$> v) = v
     /\ reverse_sign <$> v
        = (fun x => match x with
                    | NInt z => NInt (- z)
                    | NFloat f => NFloat (SFopp f)
                    end) <$> v)
  /\ (forall horizon rolling start duration ds asset vg pm e,
        power_loop horizon rolling start duration (Some ds) asset vg 0 vg []
          start = inr (pm, e) ->
        Power.value <$> pm = reverse_sign <$> vg)
  /\ (forall items : list (string * list num),
        ts_values_loop items ([], [])
        = ((fun kv => PList (PNum <$> (reverse_sign <$> kv.2))) <$> items,
           (fun kv => PStr kv.1) <$> items)).
Proof.
  split; [|split].
  - intros v Hv. split.
    + induction Hv as [|x v Hx _ IH]; [done|].
      cbn [fmap list_fmap] in *. by rewrite reverse_sign_involutive, IH.
    + induction Hv as [|x v Hx _ IH]; [done|].
      cbn [fmap list_fmap] in *. by rewrite reverse_sign_opp, IH.
  - intros horizon rolling start duration ds asset vg pm e Hrun.
    rewrite power_loop_whole in Hrun. injection Hrun as <- _. cbn [app].
    unfold powers_of. apply list_eq. intros i.
    rewrite !list_lookup_fmap, list_lookup_imap.
    by destruct (vg !! i).
  - intros items.
    assert (forall vgs cgs,
      ts_values_loop items (vgs, cgs)
      = (vgs ++ ((fun kv => PList (PNum <$> (reverse_sign <$> kv.2))) <$> items),
         cgs ++ ((fun kv => PStr kv.1) <$> items))) as H.
    { induction items as [|[k v] items IH]; intros vgs cgs.
      - cbn. by rewrite !app_nil_r.
      - cbn [ts_values_loop]. rewrite IH. cbn [fmap list_fmap fst snd].
        rewrite <- !app_assoc. cbn [app]. do 3 f_equal.
        unfold reverse_sign. by rewrite <- list_fmap_compose. }
    apply H.
Qed.

(** An int, the float 1.5 and the float 0.0. *)
Lemma sign_translation_involutive_witness :
  Forall Num.finite
    [NInt 300; NFloat Example.one_and_a_half; NFloat (S754_zero false)]
  /\ reverse_sign <$> (reverse_sign <$>
       [NInt 300; NFloat Example.one_and_a_half; NFloat (S754_zero false)])
     = [NInt 300; NFloat Example.one_and_a_half; NFloat (S754_zero false)].
Proof.
  assert (Forall Num.finite
    [NInt 300; NFloat Example.one_and_a_half; NFloat (S754_zero false)]) as H.
  { repeat constructor. }
  split; [exact H|].
  apply (proj1 sign_translation_involutive _ H).
Defined.

(* ===================================================================== *)
(** * Properties: the write and its conflict handling                     *)
(* ===================================================================== *)

Lemma bulk_save_stored objects : forall s,
  Session.stored_power (Session.bulk_save_objects objects s).2 = Session.stored_power s
  /\ Session.stored_jobs (Session.bulk_save_objects objects s).2 = Session.stored_jobs s.
Proof.
  induction objects as [|o objects IH]; intros s; [done|].
  cbn [Session.bulk_save_objects].
  destruct (Session.insert o s) as [e|s'] eqn:Hi; [done|].
  destruct (IH s') as [H1 H2]. rewrite H1, H2.
  destruct o as [p|j]; cbn in Hi.
  - destruct (Session.txn_power s !! Power.key p); [done|]. by injection Hi as <-.
  - by injection Hi as <-.
Qed.

Lemma rollback_stored s s' :
  Session.stored_power s' = Session.stored_power s ->
  Session.stored_jobs s' = Session.stored_jobs s ->
  Session.rollback s' = Session.rollback s.
Proof. intros H1 H2. unfold Session.rollback. by rewrite H1, H2. Qed.

Lemma merge_each_run objects : forall w,
  merge_each objects w
  = (Normal tt,
     {| session := foldl (fun s o => Session.merge o s) (session w) objects;
        trace := trace w ++ (EvMerge <$> objects) |}).
Proof.
  induction objects as [|o objects IH]; intros w.
  - cbn. rewrite app_nil_r. by destruct w.
  - cbn [merge_each]. rewrite run_bind. unfold db_session.merge at 1.
    rewrite run_bind. cbn [emit with_session]. rewrite IH.
    cbn [foldl fmap list_fmap session trace after_event].
    by rewrite <- app_assoc.
Qed.

Lemma merge_powers pm : forall s,
  foldl (fun s o => Session.merge o s) s (MPower <$> pm)
  = {| Session.stored_power := Session.stored_power s;
       Session.stored_jobs := Session.stored_jobs s;
       Session.txn_power := upsert_all (Session.txn_power s) pm;
       Session.txn_jobs := Session.txn_jobs s |}.
Proof.
  induction pm as [|p pm IH]; intros s; [by destruct s|].
  cbn [fmap list_fmap foldl]. rewrite IH. reflexivity.
Qed.

Lemma merge_jobs jobs : forall s,
  foldl (fun s o => Session.merge o s) s (MJob <$> jobs)
  = {| Session.stored_power := Session.stored_power s;
       Session.stored_jobs := Session.stored_jobs s;
       Session.txn_power := Session.txn_power s;
       Session.txn_jobs := Session.txn_jobs s ++ jobs |}.
Proof.
  induction jobs as [|j jobs IH]; intros s.
  - cbn. rewrite app_nil_r. by destruct s.
  - cbn [fmap list_fmap foldl]. rewrite IH. cbn. by rewrite <- app_assoc.
Qed.

Lemma upsert_all_other (k : Z * Z) pm : forall t : gmap (Z * Z) Power.t,
  k ∉ Power.key <$> pm -> upsert_all t pm !! k = t !! k.
Proof.
  induction pm as [|p pm IH]; intros t Hk; [done|].
  cbn [fmap list_fmap] in Hk. apply not_elem_of_cons in Hk as [Hne Hk].
  unfold upsert_all in *. cbn [foldl]. rewrite IH by done.
  by rewrite lookup_insert_ne.
Qed.

Lemma upsert_all_last (l1 : list Power.t) (p : Power.t) (l2 : list Power.t)
    (t : gmap (Z * Z) Power.t) :
  Power.key p ∉ Power.key <$> l2 ->
  upsert_all t (l1 ++ p :: l2) !! Power.key p = Some p.
Proof.
  intros Hk. unfold upsert_all. rewrite foldl_app. cbn [foldl].
  fold (upsert_all (<[Power.key p:=p]> (foldl (λ m p0, <[Power.key p0:=p0]> m) t l1)) l2).
  rewrite upsert_all_other by done. apply lookup_insert_eq.
Qed.

(** C2.  When the bulk insert of the batch raises [IntegrityError], the
    session is rolled back first and the mode is read next, whatever the
    mode.  Outside of play mode the request is answered with
    [AlreadyReceivedAndSuccessfullyProcessed] after these steps, and the
    session is the rolled back one: the stored data is what it was.  In
    play mode every measurement and every job descriptor of the same batch
    is merged, the session is committed and the request is answered as
    processed; the stored table is the old one overwritten with the batch,
    so that every measurement of the batch that no later one of the batch
    overwrites is stored as submitted, and the other keys are untouched. *)
Theorem conflict_rollback_then_mode (env : Env) (pm : list Power.t)
    (jobs : list Job.t) (w : world) :
  (Session.bulk_save_objects (MPower <$> pm) (session w)).1 = Some IntegrityError ->
  let mode := default "" (config env !! "BVP_MODE") in
  let handled :=
    trace w ++ [EvLog "info" "SAVING TO DB..."; EvBulkSave (MPower <$> pm);
                EvLog "warn" "IntegrityError"; EvRollback;
                EvConfigGet "BVP_MODE"] in
  exists w',
    if String.eqb mode "play" then
      save_block env pm jobs w = (Return (Responses.request_processed []), w')
      /\ trace w' = handled ++ (EvMerge <$> (MPower <$> pm))
                            ++ (EvMerge <$> (MJob <$> jobs)) ++ [EvCommit]
      /\ Session.stored_power (session w')
         = upsert_all (Session.stored_power (session w)) pm
      /\ Session.stored_jobs (session w') = Session.stored_jobs (session w) ++ jobs
      /\ (forall l1 p l2,
            pm = l1 ++ p :: l2 -> Power.key p ∉ Power.key <$> l2 ->
            Session.stored_power (session w') !! Power.key p = Some p)
      /\ (forall k, k ∉ Power.key <$> pm ->
            Session.stored_power (session w') !! k
            = Session.stored_power (session w) !! k)
    else
      save_block env pm jobs w
      = (Return (Responses.already_received_and_successfully_processed []), w')
      /\ trace w' = handled
      /\ session w' = Session.rollback (session w)
      /\ Session.stored_power (session w') = Session.stored_power (session w)
      /\ Session.stored_jobs (session w') = Session.stored_jobs (session w).
Proof.
  intros Hraise mode handled.
  pose proof (bulk_save_stored (MPower <$> pm) (session w)) as [Hsp Hsj].
  destruct (Session.bulk_save_objects (MPower <$> pm) (session w)) as [r s1] eqn:Hb.
  cbn [fst snd] in *. subst r.
  assert (
    save_block env pm jobs w
    = (config_get env "BVP_MODE" "" ≫= fun mode =>
        if String.eqb mode "play" then
           save_to_database (MPower <$> pm) true ;;
           save_to_database (MJob <$> jobs) true ;;
           db_session.commit ;;
           py_return (Responses.request_processed [])
         else
           py_return (Responses.already_received_and_successfully_processed []))
       {| session := Session.rollback (session w);
          trace := trace w ++ [EvLog "info" "SAVING TO DB..."; EvBulkSave (MPower <$> pm);
                EvLog "warn" "IntegrityError"; EvRollback] |}) as Hsave.
  { unfold save_block. rewrite run_bind. cbn [logger_info emit].
    unfold try_except_IntegrityError.
    rewrite run_bind. unfold save_to_database at 1. cbn [negb].
    unfold db_session.bulk_save_objects. rewrite run_bind. cbn [emit].
    unfold db_session.run_bulk_save. cbn [session after_event]. rewrite Hb.
    rewrite run_bind. cbn [logger_warn emit]. rewrite run_bind.
    unfold db_session.rollback at 1. rewrite run_bind. cbn [emit with_session].
    cbn [session trace after_event].
    rewrite (rollback_stored (session w) s1) by done.
    rewrite <- !app_assoc. reflexivity. }
  rewrite run_bind in Hsave.
  unfold config_get in Hsave. rewrite run_bind in Hsave. cbn [emit] in Hsave.
  rewrite run_ret in Hsave. fold mode in Hsave.
  unfold after_event in Hsave. cbn [session trace] in Hsave.
  rewrite <- app_assoc in Hsave. cbn [app] in Hsave. fold handled in Hsave.
  destruct (String.eqb mode "play").
  - unfold save_to_database in Hsave. cbn [negb] in Hsave.
    rewrite run_bind, merge_each_run in Hsave.
    rewrite run_bind, merge_each_run in Hsave.
    unfold db_session.commit in Hsave. rewrite !run_bind in Hsave.
    cbn [emit with_session after_event session trace py_return] in Hsave.
    rewrite merge_powers, merge_jobs in Hsave.
    eexists. split; [exact Hsave|]. cbn [session trace Session.commit Session.rollback
      Session.stored_power Session.stored_jobs Session.txn_power Session.txn_jobs].
    split; [by rewrite <- !app_assoc|]. split; [done|]. split; [done|].
    split.
    + intros l1 p l2 -> Hk. by apply upsert_all_last.
    + intros k Hk. by apply upsert_all_other.
  - eexists. split; [exact Hsave|]. done.
Qed.

(** A request whose connections are all accepted reaches the save block
    with the batch of its pairs, in the world it was entered in. *)
Lemma create_saves_batch (env : Env) (horizon : timedelta) (rolling : bool)
    (start : datetime) (duration : timedelta) (unit_ : string)
    (groups : list (list string)) (values : list (list num)) (w : world) :
  forallb (accepted_group env (DataSource_of_current_user env)
             (Asset.id <$> get_assets env)) (zip groups values) = true ->
  exists jobs,
    create_connection_and_value_groups env horizon rolling start duration
      unit_ groups values w
    = save_block env
        (batch_of env horizon rolling start duration
           (default 0 (DataSource.id <$> DataSource_of_current_user env))
           (Asset.id <$> get_assets env) (zip groups values))
        jobs (entered env "POSTING POWER DATA" w).
Proof.
  intros Hacc. rewrite create_run.
  destruct (gloop_accepted env horizon rolling start duration
              (DataSource_of_current_user env) (Asset.id <$> get_assets env)
              (zip groups values) [] [] (entered env "POSTING POWER DATA" w) Hacc)
    as (jobs & ->).
  by exists jobs.
Qed.

(** A measurement stored once is a conflict when it is inserted again. *)
Lemma resubmission_conflicts (p : Power.t) (pm : list Power.t) (s : Session.t) :
  is_Some (Session.txn_power s !! Power.key p) ->
  (Session.bulk_save_objects (MPower <$> p :: pm) s).1 = Some IntegrityError.
Proof.
  intros [old Hold]. cbn [fmap list_fmap Session.bulk_save_objects Session.insert].
  by rewrite Hold.
Qed.

(** The same request twice in strict mode: processed, then already
    received, and the session after the second is the one after the first. *)
Lemma resubmission_strict :
  exists w1 w2,
    create_connection_and_value_groups Example.strict (PyTime.hours 2) false 0
      (PyTime.hours 1) "MW" [[Example.ea_house]] [Example.quarters] Example.fresh
    = (Return (Responses.request_processed []), w1)
    /\ create_connection_and_value_groups Example.strict (PyTime.hours 2) false 0
         (PyTime.hours 1) "MW" [[Example.ea_house]] [Example.quarters] w1
       = (Return (Responses.already_received_and_successfully_processed []), w2)
    /\ session w2 = session w1
    /\ size (Session.stored_power (session w1)) = 4%nat.
Proof.
  eexists _, _. split; [vm_compute; reflexivity|].
  split; [vm_compute; reflexivity|]. split; vm_compute; reflexivity.
Qed.

(** Other values for the same slots in play mode: processed twice, and the
    first slot holds the second value, with its sign reversed. *)
Lemma resubmission_play :
  exists w1 w2,
    create_connection_and_value_groups Example.play (PyTime.hours 2) false 0
      (PyTime.hours 1) "MW" [[Example.ea_house]] [Example.quarters] Example.fresh
    = (Return (Responses.request_processed []), w1)
    /\ create_connection_and_value_groups Example.play (PyTime.hours 2) false 0
         (PyTime.hours 1) "MW" [[Example.ea_house]]
         [[NInt 5; NInt 6; NInt 7; NInt 8]] w1
       = (Return (Responses.request_processed []), w2)
    /\ Power.value <$> (Session.stored_power (session w2) !! (0, 1))
       = Some (NInt (-5)).
Proof.
  eexists _, _. split; [vm_compute; reflexivity|].
  split; [vm_compute; reflexivity|]. vm_compute; reflexivity.
Qed.

(** The slot of the house is submitted again: the strict mode keeps the
    stored value, the play mode stores the new one. *)
Lemma conflict_rollback_then_mode_witness :
  (Session.bulk_save_objects (MPower <$> [Example.again])
     (session Example.filled)).1 = Some IntegrityError
  /\ (exists w',
        save_block Example.strict [Example.again] [] Example.filled
        = (Return (Responses.already_received_and_successfully_processed []), w')
        /\ Session.stored_power (session w') !! Power.key Example.again
           = Some Example.old)
  /\ (exists w',
        save_block Example.play [Example.again] [] Example.filled
        = (Return (Responses.request_processed []), w')
        /\ Session.stored_power (session w') !! Power.key Example.again
           = Some Example.again).
Proof.
  assert ((Session.bulk_save_objects (MPower <$> [Example.again])
             (session Example.filled)).1 = Some IntegrityError) as Hraise.
  { vm_compute. reflexivity. }
  split; [exact Hraise|]. split.
  - destruct (conflict_rollback_then_mode Example.strict [Example.again] []
                Example.filled Hraise) as [w' Hw].
    cbv zeta in Hw.
    change (String.eqb (default "" (config Example.strict !! "BVP_MODE")) "play")
      with false in Hw.
    destruct Hw as (Hrun & _ & _ & Hs & _). exists w'. split; [exact Hrun|].
    rewrite Hs. vm_compute. reflexivity.
  - destruct (conflict_rollback_then_mode Example.play [Example.again] []
                Example.filled Hraise) as [w' Hw].
    cbv zeta in Hw.
    change (String.eqb (default "" (config Example.play !! "BVP_MODE")) "play")
      with true in Hw.
    destruct Hw as (Hrun & _ & _ & _ & Hlast & _). exists w'.
    split; [exact Hrun|].
    apply (Hlast [] Example.again []); [reflexivity | apply not_elem_of_nil].
Defined.

(* ===================================================================== *)
(** * Further properties: compaction of groups                            *)
(* ===================================================================== *)

Lemma py_in_index (x : pyval) (u : list pyval) :
  ApiUtils.py_in x u = true ->
  exists i, ApiUtils.py_index x u = Some i /\ (i < length u)%nat.
Proof.
  unfold ApiUtils.py_in. induction u as [|item u IH]; [done|].
  cbn [existsb ApiUtils.py_index length]. destruct (py_eqb item x).
  - intros _. exists 0%nat. split; [done|lia].
  - cbn [orb]. intros H. destruct (IH H) as (i & -> & Hi).
    exists (S i). split; [done|lia].
Qed.

Lemma all_distinct_snoc (u : list pyval) (x : pyval) :
  all_distinct u = true -> ApiUtils.py_in x u = false ->
  all_distinct (u ++ [x]) = true.
Proof.
  unfold ApiUtils.py_in. induction u as [|a u IH]; [done|].
  cbn [all_distinct existsb app]. intros Hd Hx.
  apply andb_prop in Hd as [Ha Hd]. apply orb_false_elim in Hx as [Hax Hx].
  rewrite existsb_app. cbn [existsb]. rewrite Hax, orb_false_r, Ha, IH; done.
Qed.

(** What the loop keeps: [u] and [s] have one length, no element of [u]
    equals a later one, and [u] grows by a sublist of the elements met. *)
Lemma unique_ever_seen_loop_inv (pairs : list (pyval * pyval)) :
  forall u s : list pyval,
    length u = length s -> all_distinct u = true ->
    exists k s',
      ApiUtils.unique_ever_seen_loop pairs (u, s) = inr (u ++ k, s')
      /\ length (u ++ k) = length s'
      /\ all_distinct (u ++ k) = true
      /\ k `sublist_of` pairs.*1.
Proof.
  induction pairs as [|[x c] pairs IH]; intros u s Hlen Hd.
  - exists [], s. rewrite app_nil_r. done.
  - cbn [ApiUtils.unique_ever_seen_loop ApiUtils.unique_ever_seen_step].
    destruct (ApiUtils.py_in x u) eqn:Hin; cbn [negb].
    + destruct (py_in_index _ _ Hin) as (i & -> & Hi).
      destruct (lookup_lt_is_Some_2 s i ltac:(lia)) as [us ->]. cbn [bind_exn].
      destruct (IH u (<[i:=PList (match us with PList l => l | _ => [us] end ++ [c])]> s))
        as (k & s' & -> & H1 & H2 & H3); [by rewrite length_insert | done |].
      exists k, s'. repeat split; try done. cbn [fmap list_fmap fst].
      by apply sublist_cons.
    + cbn [bind_exn].
      destruct (IH (u ++ [x]) (s ++ [c])) as (k & s' & Heq & H1 & H2 & H3).
      { rewrite !length_app. cbn. lia. }
      { by apply all_distinct_snoc. }
      exists (x :: k), s'. rewrite <- app_assoc in *. cbn [app] in *.
      repeat split; try done. cbn [fmap list_fmap fst]. by apply sublist_skip.
Qed.

Lemma zip_fst_sublist {A B : Type} (l : list A) : forall k : list B,
  (zip l k).*1 `sublist_of` l.
Proof.
  induction l as [|a l IH]; intros [|b k]; cbn; try constructor; auto.
  apply sublist_nil_l.
Qed.

Lemma unique_ever_seen_same_length (iterable selector : list pyval) :
  exists u s,
    ApiUtils.unique_ever_seen iterable selector = inr (u, s)
    /\ length u = length s.
Proof.
  destruct (unique_ever_seen_loop_inv (zip iterable selector) [] [] eq_refl eq_refl)
    as (k & s & Hrun & Hlen & _). by exists k, s.
Qed.

(** X1.  [unique_ever_seen] raises on no input: the index it looks up in
    [s] is always in range, because [u] and [s] keep one length.  The two
    lists it returns have the same length, at most that of either input. *)
Theorem unique_ever_seen_never_raises (iterable selector : list pyval) :
  exists u s,
    ApiUtils.unique_ever_seen iterable selector = inr (u, s)
    /\ length u = length s
    /\ (length u <= length iterable)%nat
    /\ (length u <= length selector)%nat.
Proof.
  destruct (unique_ever_seen_loop_inv (zip iterable selector) [] [] eq_refl eq_refl)
    as (k & s & Hrun & Hlen & _ & Hsub).
  exists k, s. cbn [app] in *. split; [exact Hrun|]. split; [exact Hlen|].
  apply sublist_length in Hsub. rewrite length_fmap, length_zip_with in Hsub.
  lia.
Qed.

(** X2.  In the first list that [unique_ever_seen] returns no element
    equals a later one, and the list is a sublist of the iterable: the
    elements kept are in the order of the input. *)
Theorem unique_ever_seen_unique_in_order (iterable selector u s : list pyval) :
  ApiUtils.unique_ever_seen iterable selector = inr (u, s) ->
  all_distinct u = true /\ u `sublist_of` iterable.
Proof.
  intros Hrun.
  destruct (unique_ever_seen_loop_inv (zip iterable selector) [] [] eq_refl eq_refl)
    as (k & s' & Hrun' & _ & Hd & Hsub).
  unfold ApiUtils.unique_ever_seen in Hrun. rewrite Hrun' in Hrun.
  cbn [app] in *. injection Hrun as -> ->. split; [exact Hd|].
  etrans; [exact Hsub | apply zip_fst_sublist].
Qed.

Lemma members_insert (s : list pyval) (i : nat) (us c : pyval) :
  s !! i = Some us ->
  (<[i:=PList (members us ++ [c])]> s) ≫= members ≡ₚ (s ≫= members) ++ [c].
Proof.
  intros Hi. apply lookup_lt_Some in Hi as Hlt.
  rewrite insert_take_drop by done.
  rewrite <- (take_drop_middle s i us Hi) at 3.
  rewrite !bind_app, !bind_cons. cbn [members].
  rewrite <- !app_assoc. do 2 f_equiv. apply Permutation_app_comm.
Qed.

Lemma unique_ever_seen_loop_members (pairs : list (pyval * pyval)) :
  forall u s u' s' : list pyval,
    Forall (fun p => is_list p.2 = false) pairs ->
    ApiUtils.unique_ever_seen_loop pairs (u, s) = inr (u', s') ->
    s' ≫= members ≡ₚ (s ≫= members) ++ pairs.*2.
Proof.
  induction pairs as [|[x c] pairs IH]; intros u s u' s' Hat Hrun.
  - cbn in Hrun. injection Hrun as <- <-. by rewrite app_nil_r.
  - apply Forall_cons in Hat as [Hc Hat]. cbn [snd] in Hc.
    cbn [ApiUtils.unique_ever_seen_loop ApiUtils.unique_ever_seen_step] in Hrun.
    cbn [fmap list_fmap snd].
    destruct (ApiUtils.py_in x u); cbn [negb] in Hrun.
    + destruct (ApiUtils.py_index x u) as [i|]; [|done].
      destruct (s !! i) as [us|] eqn:Hi; [|done]. cbn [bind_exn] in Hrun.
      apply IH in Hrun; [|done]. rewrite Hrun.
      change (match us with PList l => l | _ => [us] end) with (members us).
      rewrite members_insert by done. by rewrite <- app_assoc.
    + cbn [bind_exn] in Hrun. apply IH in Hrun; [|done]. rewrite Hrun.
      rewrite bind_app, bind_singleton. destruct c; try done.
      all: by rewrite <- app_assoc.
Qed.

(** X3.  With selector elements that are not lists, and as many of them as
    iterable elements, no selector is lost or repeated: the members of the
    second list returned are a permutation of the selector. *)
Theorem unique_ever_seen_keeps_selectors (iterable selector u s : list pyval) :
  Forall (fun c => is_list c = false) selector ->
  length iterable = length selector ->
  ApiUtils.unique_ever_seen iterable selector = inr (u, s) ->
  s ≫= members ≡ₚ selector.
Proof.
  intros Hat Hlen Hrun. unfold ApiUtils.unique_ever_seen in Hrun.
  apply unique_ever_seen_loop_members in Hrun.
  - rewrite Hrun. cbn. by rewrite snd_zip by lia.
  - apply Forall_forall. intros [x c] Hin. cbn.
    apply elem_of_zip_r in Hin. rewrite Forall_forall in Hat. by apply Hat.
Qed.
Lemma unique_ever_seen_loop_merge (names : list string) :
  forall (vs l : list pyval) (v0 : pyval),
    Forall (fun v => py_eqb v0 v = true) vs ->
    length vs = length names ->
    ApiUtils.unique_ever_seen_loop (zip vs (PStr <$> names)) ([v0], [PList l])
    = inr ([v0], [PList (l ++ (PStr <$> names))]).
Proof.
  induction names as [|n names IH]; intros vs l v0 Hvs Hlen.
  - destruct vs; [|done]. cbn. by rewrite app_nil_r.
  - destruct vs as [|v vs]; [done|]. apply Forall_cons in Hvs as [Hv Hvs].
    cbn [fmap list_fmap zip zip_with ApiUtils.unique_ever_seen_loop
         ApiUtils.unique_ever_seen_step ApiUtils.py_in existsb
         ApiUtils.py_index].
    rewrite Hv. cbn [orb negb lookup list_lookup bind_exn insert list_insert].
    rewrite IH by (done || (cbn in Hlen; lia)).
    by rewrite <- app_assoc.
Qed.

(** X5.  Two or more names whose value groups all equal the first one give
    the flat dict with all the names under ["connections"], in the order of
    the input, and the first value group under ["values"]. *)
Theorem groups_to_dict_merges_names (n0 n1 : string) (names : list string)
    (v0 v1 : pyval) (vs : list pyval) :
  Forall (fun v => py_eqb v0 v = true) (v1 :: vs) ->
  length vs = length names ->
  ApiUtils.groups_to_dict (PStr <$> n0 :: n1 :: names) (v0 :: v1 :: vs)
  = inr [("connections", PList (PStr <$> n0 :: n1 :: names)); ("values", v0)].
Proof.
  intros Hvs Hlen. apply Forall_cons in Hvs as [Hv1 Hvs].
  unfold ApiUtils.groups_to_dict, ApiUtils.unique_ever_seen.
  cbn [fmap list_fmap zip zip_with ApiUtils.unique_ever_seen_loop
       ApiUtils.unique_ever_seen_step ApiUtils.py_in existsb
       ApiUtils.py_index negb bind_exn app].
  rewrite Hv1. cbn [orb negb lookup list_lookup bind_exn insert list_insert app].
  rewrite unique_ever_seen_loop_merge by done. cbn [bind_exn ApiUtils.py_len app length].
  reflexivity.
Qed.


Lemma unique_ever_seen_loop_sequences (pairs : list (pyval * pyval)) :
  forall u s u' s' : list pyval,
    Forall (fun p => is_sequence p.2 = true) pairs ->
    Forall (fun c => is_sequence c = true) s ->
    ApiUtils.unique_ever_seen_loop pairs (u, s) = inr (u', s') ->
    Forall (fun c => is_sequence c = true) s'.
Proof.
  induction pairs as [|[x c] pairs IH]; intros u s u' s' Hp Hs Hrun.
  - cbn in Hrun. by injection Hrun as <- <-.
  - apply Forall_cons in Hp as [Hc Hp]. cbn [snd] in Hc.
    cbn [ApiUtils.unique_ever_seen_loop ApiUtils.unique_ever_seen_step] in Hrun.
    destruct (ApiUtils.py_in x u); cbn [negb] in Hrun.
    + destruct (ApiUtils.py_index x u) as [i|]; [|done].
      destruct (s !! i) as [us|] eqn:Hi; [|done]. cbn [bind_exn] in Hrun.
      eapply IH; [done| |exact Hrun]. by apply Forall_insert.
    + cbn [bind_exn] in Hrun. eapply IH; [done| |exact Hrun].
      apply Forall_app. split; [done|]. by constructor.
Qed.

(** A sequence has a length, and a first element when the length is one. *)
Lemma sequence_entry (c : pyval) :
  is_sequence c = true ->
  exists n, ApiUtils.py_len c = inr n
    /\ (n = 1%nat -> exists x, ApiUtils.py_getitem0 c = inr x).
Proof.
  destruct c as [n|s|l|d]; try done; intros _.
  - exists (String.length s). split; [done|]. destruct s; [done|eauto].
  - exists (length l). split; [done|]. destruct l; [done|eauto].
Qed.

Lemma groups_loop_sequences (pairs : list (pyval * pyval)) :
  forall groups : list pyval,
    Forall (fun p => is_sequence p.1 = true) pairs ->
    exists groups', ApiUtils.groups_loop pairs groups = inr groups'.
Proof.
  induction pairs as [|[c v] pairs IH]; intros groups Hp; [by eexists|].
  apply Forall_cons in Hp as [Hc Hp]. cbn [fst] in Hc.
  destruct (sequence_entry c Hc) as (n & Hn & H1).
  cbn [ApiUtils.groups_loop]. rewrite Hn. cbn [bind_exn].
  destruct (Nat.eqb_spec n 1) as [->|_]; [|apply IH; done].
  destruct (H1 eq_refl) as [x ->]. cbn [bind_exn]. by apply IH.
Qed.

(** X7.  On connection groups that are lists or strings [groups_to_dict]
    never raises, and its result holds either ["groups"], or ["values"]
    with one of ["connection"] and ["connections"]. *)
Theorem groups_to_dict_never_raises (connection_groups value_groups : list pyval) :
  Forall (fun c => is_sequence c = true) connection_groups ->
  exists d,
    ApiUtils.groups_to_dict connection_groups value_groups = inr d
    /\ (Dict.mem "groups" d = true
        \/ (Dict.mem "values" d = true
            /\ Dict.mem "connection" d || Dict.mem "connections" d = true)).
Proof.
  intros Hseq. unfold ApiUtils.groups_to_dict.
  destruct (unique_ever_seen_same_length value_groups connection_groups)
    as (u & s & Hrun & Hlen). rewrite Hrun. cbn [bind_exn].
  assert (Forall (fun c => is_sequence c = true) s) as Hs.
  { unfold ApiUtils.unique_ever_seen in Hrun.
    eapply unique_ever_seen_loop_sequences; [|constructor|exact Hrun].
    apply Forall_forall. intros [x c] Hin. cbn.
    apply elem_of_zip_r in Hin. rewrite Forall_forall in Hseq. by apply Hseq. }
  assert (exists groups, ApiUtils.groups_loop (zip s u) [] = inr groups) as [g Hg].
  { apply groups_loop_sequences. apply Forall_forall. intros [c x] Hin. cbn.
    apply elem_of_zip_l in Hin. rewrite Forall_forall in Hs. by apply Hs. }
  destruct u as [|v [|v' u]], s as [|c [|c' s]]; try done;
    try (rewrite Hg; cbn [bind_exn]; eexists; split; [reflexivity|by left]).
  apply Forall_cons in Hs as [Hc _].
  destruct (sequence_entry c Hc) as (n & Hn & H1). rewrite Hn. cbn [bind_exn].
  destruct (Nat.eqb_spec n 1) as [->|_].
  - destruct (H1 eq_refl) as [x ->]. cbn [bind_exn].
    eexists. split; [reflexivity|by right].
  - eexists. split; [reflexivity|by right].
Qed.

(** A connection group that is a number has no length. *)
Lemma groups_to_dict_number_selector (n : num) (v : pyval) :
  ApiUtils.groups_to_dict [PNum n] [v] = inl TypeError.
Proof. reflexivity. Qed.

Lemma unique_ever_seen_unique_in_order_witness :
  ApiUtils.unique_ever_seen [pint 1; pint 2; pint 1] [PStr "a"; PStr "b"; PStr "c"]
  = inr ([pint 1; pint 2], [PList [PStr "a"; PStr "c"]; PStr "b"])
  /\ all_distinct [pint 1; pint 2] = true
  /\ [pint 1; pint 2] `sublist_of` [pint 1; pint 2; pint 1].
Proof.
  assert (ApiUtils.unique_ever_seen [pint 1; pint 2; pint 1]
            [PStr "a"; PStr "b"; PStr "c"]
          = inr ([pint 1; pint 2], [PList [PStr "a"; PStr "c"]; PStr "b"])) as H
    by reflexivity.
  split; [exact H|]. exact (unique_ever_seen_unique_in_order _ _ _ _ H).
Defined.

Lemma unique_ever_seen_keeps_selectors_witness :
  [PList [PStr "a"; PStr "c"]; PStr "b"] ≫= members
  ≡ₚ [PStr "a"; PStr "b"; PStr "c"].
Proof.
  apply (unique_ever_seen_keeps_selectors [pint 1; pint 2; pint 1]
           [PStr "a"; PStr "b"; PStr "c"] [pint 1; pint 2]).
  - repeat constructor.
  - reflexivity.
  - reflexivity.
Defined.

(** X4.  Value groups of which none equals a later one are not merged:
    with as many selector elements, [unique_ever_seen] returns its two
    inputs as they are. *)
Theorem unique_ever_seen_keeps_distinct_groups (iterable selector : list pyval) :
  length iterable = length selector ->
  all_distinct iterable = true ->
  ApiUtils.unique_ever_seen iterable selector = inr (iterable, selector).
Proof. apply unique_ever_seen_distinct. Qed.

Lemma unique_ever_seen_keeps_distinct_groups_witness :
  ApiUtils.unique_ever_seen [pints [300]; pints [400]; pints [500]]
    [PStr "a"; PStr "b"; PStr "c"]
  = inr ([pints [300]; pints [400]; pints [500]], [PStr "a"; PStr "b"; PStr "c"]).
Proof.
  apply unique_ever_seen_keeps_distinct_groups; reflexivity.
Defined.

Lemma groups_to_dict_merges_names_witness :
  ApiUtils.groups_to_dict (PStr <$> ["house"; "solar"; "barn"])
    [pints [1; 2]; PList [PNum (NFloat (S754_finite false 4503599627370496 (-52))); pint 2];
     pints [1; 2]]
  = inr [("connections", PList (PStr <$> ["house"; "solar"; "barn"]));
         ("values", pints [1; 2])].
Proof.
  apply groups_to_dict_merges_names; [repeat constructor | reflexivity].
Defined.


Lemma groups_to_dict_never_raises_witness :
  exists d,
    ApiUtils.groups_to_dict [PList [pint 1]; PStr "solar"; PList []]
      [pints [1]; pints [2]; pints [1]] = inr d.
Proof.
  destruct (groups_to_dict_never_raises [PList [pint 1]; PStr "solar"; PList []]
              [pints [1]; pints [2]; pints [1]]) as (d & Hd & _).
  - repeat constructor.
  - by exists d.
Defined.

(* ===================================================================== *)
(** * Further properties: the ingestion                                   *)
(* ===================================================================== *)

Lemma zip_app_unpaired_l {A B : Type} (l extra : list A) (k : list B) :
  length l = length k -> zip (l ++ extra) k = zip l k.
Proof.
  revert k. induction l as [|a l IH]; intros [|b k] Hlen; try done.
  - by destruct extra.
  - cbn. f_equal. apply IH. cbn in Hlen. lia.
Qed.

Lemma zip_app_unpaired_r {A B : Type} (l : list A) (k extra : list B) :
  length l = length k -> zip l (k ++ extra) = zip l k.
Proof.
  revert k. induction l as [|a l IH]; intros [|b k] Hlen; try done.
  cbn. f_equal. apply IH. cbn in Hlen. lia.
Qed.

(** X8.  The pairs of a POST are those of [zip]: connection groups beyond
    the number of value groups, and value groups beyond the number of
    connection groups, are ignored; the request is answered as if they were
    not there, whatever they hold. *)
Theorem post_ignores_unpaired_groups (env : Env) (unit_ : string)
    (groups extra_groups : list (list string))
    (values extra_values : list (list num)) (horizon : timedelta)
    (rolling : bool) (start : datetime) (duration : timedelta) (w : world) :
  length groups = length values ->
  post_meter_data_response env unit_ (groups ++ extra_groups) values horizon
    rolling start duration w
  = post_meter_data_response env unit_ groups values horizon rolling start
      duration w
  /\ post_meter_data_response env unit_ groups (values ++ extra_values) horizon
       rolling start duration w
     = post_meter_data_response env unit_ groups values horizon rolling start
         duration w.
Proof.
  intros Hlen. unfold post_meter_data_response.
  rewrite !create_run, zip_app_unpaired_l, zip_app_unpaired_r by done. done.
Qed.

(** X9.  A POST with a connection that is not accepted (it does not
    resolve, it breaks the sign rule, or there is no data source for its
    values) writes nothing: it ends on a response with status code 400 or
    on an exception, the session is unchanged and no write is traced. *)
Theorem unaccepted_request_writes_nothing (env : Env) (unit_ : string)
    (groups : list (list string)) (values : list (list num))
    (horizon : timedelta) (rolling : bool) (start : datetime)
    (duration : timedelta) (w : world) :
  forallb (accepted_group env (DataSource_of_current_user env)
             (Asset.id <$> get_assets env)) (zip groups values) = false ->
  exists fl w',
    post_meter_data_response env unit_ groups values horizon rolling start
      duration w = (fl, w')
    /\ rejected fl
    /\ session w' = session w
    /\ exists logs, trace w' = trace w ++ logs /\ existsb is_write logs = false.
Proof.
  intros Hna. unfold post_meter_data_response. rewrite create_run.
  pose proof (only_logged_entered env "POSTING POWER DATA" w) as Hent.
  pose proof (gloop_effects env horizon rolling start duration
                (DataSource_of_current_user env) (Asset.id <$> get_assets env)
                (zip groups values) ([], [])
                (entered env "POSTING POWER DATA" w)) as [Hlog Hcode].
  destruct (group_loop _ _ _ _ _ _ _ _ _ _) as [[[pm jobs]|r|e] w1] eqn:Hrun;
    cbn [fst snd] in *.
  - apply gloop_Normal in Hrun. congruence.
  - assert (only_logged w w1) as Hw by (eapply only_logged_trans; eauto).
    exists (Return r), w1. split; [done|]. split; [done|].
    split; [apply Hw|]. by apply only_logged_no_write.
  - assert (only_logged w w1) as Hw by (eapply only_logged_trans; eauto).
    exists (Raise e), w1. split; [done|]. split; [done|].
    split; [apply Hw|]. by apply only_logged_no_write.
Qed.

Section FirstFailure.

Variable env : Env.
Variables (horizon : timedelta) (rolling : bool)
          (start : datetime) (duration : timedelta).
Variables (data_source : option DataSource.t) (user_asset_ids : list Z).

(** The loop reaches a connection when all those before it are accepted,
    with the world it started in. *)
Lemma gloop_reaches pre cg1 c cg2 vg post pm jobs w :
  forallb (accepted_group env data_source user_asset_ids) pre = true ->
  forallb (accepted env data_source user_asset_ids vg) cg1 = true ->
  exists st,
    group_loop env horizon rolling start duration data_source user_asset_ids
      (pre ++ (cg1 ++ c :: cg2, vg) :: post) (pm, jobs) w
    = match connection_body env horizon rolling start duration data_source
              user_asset_ids vg c st w with
      | (Normal st', w') =>
          match connection_loop env horizon rolling start duration data_source
                  user_asset_ids vg cg2 st' w' with
          | (Normal st'', w'') =>
              group_loop env horizon rolling start duration data_source
                user_asset_ids post st'' w''
          | (Return r, w'') => (Return r, w'')
          | (Raise e, w'') => (Raise e, w'')
          end
      | (Return r, w') => (Return r, w')
      | (Raise e, w') => (Raise e, w')
      end.
Proof.
  intros Hpre Hcg1.
  destruct (gloop_accepted env horizon rolling start duration data_source
              user_asset_ids pre pm jobs w Hpre) as (jobs1 & H1).
  rewrite gloop_app, H1. cbn [group_loop]. rewrite run_bind, cloop_app.
  destruct (cloop_accepted env horizon rolling start duration data_source
              user_asset_ids vg cg1
              (pm ++ batch_of env horizon rolling start duration
                       (default 0 (DataSource.id <$> data_source))
                       user_asset_ids pre) jobs1 w Hcg1) as (jobs2 & H2).
  rewrite H2. cbn [connection_loop]. rewrite run_bind.
  match goal with
  | |- context [connection_body _ _ _ _ _ _ _ _ _ ?st _] => exists st
  end.
  destruct (connection_body _ _ _ _ _ _ _ _ _ _ _) as [[st'|r|e] w']; [|done..].
  destruct (connection_loop _ _ _ _ _ _ _ _ _ _ _) as [[st''|r|e] w'']; done.
Qed.

End FirstFailure.

(** X10.  When every connection before [c] is accepted, a POST is answered
    with [InvalidDomain] if the address [c] does not parse, and with
    [UnrecognizedConnectionGroup] if it parses to an asset id that is not
    one of the user's; one warning is logged and nothing is written. *)
Theorem post_first_bad_address (env : Env) (unit_ : string)
    (groups : list (list string)) (values : list (list num))
    (horizon : timedelta) (rolling : bool) (start : datetime)
    (duration : timedelta) (w : world)
    (pre post : list (list string * list num)) (cg1 cg2 : list string)
    (c : string) (vg : list num) :
  zip groups values = pre ++ (cg1 ++ c :: cg2, vg) :: post ->
  forallb (accepted_group env (DataSource_of_current_user env)
             (Asset.id <$> get_assets env)) pre = true ->
  forallb (accepted env (DataSource_of_current_user env)
             (Asset.id <$> get_assets env) vg) cg1 = true ->
  (validate_entity_address env c "connection" = None ->
   post_meter_data_response env unit_ groups values horizon rolling start
     duration w
   = (Return (Responses.invalid_domain []),
      after_event
        (EvLog "warn" "Cannot parse this connection's entity address: %s")
        (entered env "POSTING POWER DATA" w)))
  /\ (forall asset_id,
        validate_entity_address env c "connection" = Some asset_id ->
        existsb (Z.eqb asset_id) (Asset.id <$> get_assets env) = false ->
        post_meter_data_response env unit_ groups values horizon rolling start
          duration w
        = (Return (Responses.unrecognized_connection_group []),
           after_event (EvLog "warn" "Cannot identify connection %s")
             (entered env "POSTING POWER DATA" w))).
Proof.
  intros Hz Hpre Hcg1. unfold post_meter_data_response. rewrite create_run, Hz.
  destruct (gloop_reaches env horizon rolling start duration
              (DataSource_of_current_user env) (Asset.id <$> get_assets env)
              pre cg1 c cg2 vg post [] []
              (entered env "POSTING POWER DATA" w) Hpre Hcg1) as (st & ->).
  split.
  - intros Hv. by rewrite (body_unparsable _ _ _ _ _ _ _ _ _ _ _ Hv).
  - intros aid Hv Hin. by rewrite (body_unauthorized _ _ _ _ _ _ _ _ _ _ _ _ Hv Hin).
Qed.

(** X11.  A connection that passes the checks adds the measurements of its
    whole value group, and one forecasting job only if the group has two
    values or more and its last slot starts after [start]: a group of one
    value never gives a job.  The job runs from [start] to the start of the
    last slot; when the duration is a positive multiple of the number of
    values, this is [start + duration - duration / N]. *)
Theorem forecasting_job_of_connection (env : Env) (horizon : timedelta)
    (rolling : bool) (start : datetime) (duration : timedelta)
    (ds : DataSource.t) (user_asset_ids : list Z) (vg : list num)
    (c : string) (asset_id : Z) (a : Asset.t)
    (pm : list Power.t) (jobs : list Job.t) (w : world) :
  validate_entity_address env c "connection" = Some asset_id ->
  existsb (Z.eqb asset_id) user_asset_ids = true ->
  Asset_by_id env asset_id = Some a ->
  too_small a vg = false -> too_big a vg = false ->
  let last := dt_at start duration (length vg) (length vg - 1) in
  connection_body env horizon rolling start duration (Some ds) user_asset_ids
    vg c (pm, jobs) w
  = (Normal (pm ++ powers_of horizon rolling start duration (DataSource.id ds) vg a,
             if (2 <=? length vg)%nat && (start <? last)
             then jobs ++ [ {| Job.metric_kind := "Power"; Job.asset_id := asset_id;
                               Job.start := start; Job.end_ := last |} ]
             else jobs), w)
  /\ ((2 <= length vg)%nat -> (Z.of_nat (length vg) | duration) -> 0 < duration ->
      (start <? last) = true
      /\ last = start + duration - duration / Z.of_nat (length vg)).
Proof.
  intros Hv Hin Ha Hs Hb last. split.
  - rewrite (body_authorized _ _ _ _ _ _ _ _ _ _ _ _ _ Hv Hin), Ha, Hs, Hb.
    rewrite power_loop_whole. destruct vg as [|v0 [|v1 vg]].
    + cbn - [Z.ltb]. by rewrite Z.ltb_irrefl.
    + cbn [length Nat.sub]. unfold dt_at.
      change (Z.of_nat 0 * duration) with 0.
      change (PyTime.divide_nearest 0 (Z.of_nat 1)) with 0.
      rewrite Z.add_0_r, Z.ltb_irrefl. reflexivity.
    + fold last. replace (2 <=? length (v0 :: v1 :: vg))%nat with true
        by (symmetry; apply Nat.leb_le; cbn; lia).
      cbn [andb]. destruct (start <? last); reflexivity.
  - intros Hn [q Hq] Hd. unfold last.
    rewrite (dt_at_exact start duration q) by (done || lia).
    rewrite Hq, Z.div_mul by lia.
    split; [apply Z.ltb_lt|]; nia.
Qed.

Lemma divide_nearest_zero (n : Z) : 0 < n -> PyTime.divide_nearest 0 n = 0.
Proof. intros Hn. apply (divide_nearest_exact 0 n Hn). Qed.

Lemma dt_at_bounds (start : datetime) (duration : timedelta) (n j : nat) :
  (j < n)%nat -> 0 <= duration ->
  start <= dt_at start duration n j <= start + duration.
Proof.
  intros Hj Hd. unfold dt_at.
  pose proof (divide_nearest_mono 0 (Z.of_nat j * duration) (Z.of_nat n)
                ltac:(lia) ltac:(nia)) as H0.
  rewrite divide_nearest_zero in H0 by lia.
  pose proof (divide_nearest_mono (Z.of_nat j * duration) (duration * Z.of_nat n)
                (Z.of_nat n) ltac:(lia) ltac:(nia)) as H1.
  rewrite divide_nearest_exact in H1 by lia. lia.
Qed.

(** X12.  For a duration that is not negative the datetimes of the
    measurements of one value group never decrease with the index and lie
    between [start] and [start + duration].  When the duration is a positive
    multiple of the number of values, slot [j] starts at
    [start + j * (duration / N)], before the end of the window, and the
    keys of the measurements are distinct. *)
Theorem measurement_datetimes (horizon : timedelta) (rolling : bool)
    (start : datetime) (duration : timedelta) (ds : DataSource.t)
    (asset : Asset.t) (vg : list num) (pm : list Power.t) (e : datetime) :
  power_loop horizon rolling start duration (Some ds) asset vg 0 vg [] start
  = inr (pm, e) ->
  0 <= duration ->
  (forall (j k : nat) (p q : Power.t),
     pm !! j = Some p -> pm !! k = Some q -> (j <= k)%nat ->
     start <= Power.datetime p /\ Power.datetime p <= Power.datetime q
     /\ Power.datetime q <= start + duration)
  /\ ((Z.of_nat (length vg) | duration) -> 0 < duration ->
      NoDup (Power.key <$> pm)
      /\ forall (j : nat) (p : Power.t),
           pm !! j = Some p ->
           Power.datetime p
           = start + Z.of_nat j * (duration / Z.of_nat (length vg))
           /\ Power.datetime p < start + duration).
Proof.
  intros Hrun Hd. rewrite power_loop_whole in Hrun. injection Hrun as <- _.
  cbn [app]. unfold powers_of.
  assert (forall (j : nat) (p : Power.t),
            imap (power_at horizon rolling start duration (DataSource.id ds) asset
                    (length vg)) vg !! j = Some p ->
            (j < length vg)%nat
            /\ Power.datetime p = dt_at start duration (length vg) j
            /\ Power.asset_id p = Asset.id asset) as Hat.
  { intros j p Hp. rewrite list_lookup_imap in Hp.
    destruct (vg !! j) as [v|] eqn:Hv; [|done]. cbn in Hp. injection Hp as <-.
    apply lookup_lt_Some in Hv. done. }
  split.
  - intros j k p q Hp Hq Hjk.
    destruct (Hat j p Hp) as (Hj & -> & _). destruct (Hat k q Hq) as (Hk & -> & _).
    pose proof (dt_at_bounds start duration (length vg) j Hj Hd).
    pose proof (dt_at_bounds start duration (length vg) k Hk Hd).
    split; [lia|]. split; [|lia]. unfold dt_at.
    pose proof (divide_nearest_mono (Z.of_nat j * duration) (Z.of_nat k * duration)
                  (Z.of_nat (length vg)) ltac:(lia) ltac:(nia)). lia.
  - intros [x Hx] Hpos.
    assert (forall (j : nat) (p : Power.t),
              imap (power_at horizon rolling start duration (DataSource.id ds) asset
                      (length vg)) vg !! j = Some p ->
              Power.datetime p = start + Z.of_nat j * x /\ (j < length vg)%nat) as Hex.
    { intros j p Hp. destruct (Hat j p Hp) as (Hj & -> & _).
      rewrite (dt_at_exact start duration x) by (done || lia). done. }
    assert (0 < x) as Hxpos by nia.
    split.
    + apply NoDup_alt. intros i j k Hi Hj.
      rewrite list_lookup_fmap in Hi, Hj.
      destruct (imap _ vg !! i) as [p|] eqn:Hp; [|done].
      destruct (imap _ vg !! j) as [q|] eqn:Hq; [|done].
      cbn [fmap option_fmap option_map] in Hi, Hj. unfold Power.key in Hi, Hj.
      injection Hi as <-. injection Hj as Hdt _.
      destruct (Hex i p Hp) as [Ei _]. destruct (Hex j q Hq) as [Ej _]. nia.
    + intros j p Hp. destruct (Hex j p Hp) as [-> Hj].
      rewrite Hx, Z.div_mul by lia. split; [done|]. nia.
Qed.

(** The session with another table of the transaction. *)
Lemma bulk_save_powers_ok (pm : list Power.t) : forall s : Session.t,
  NoDup (Power.key <$> pm) ->
  Forall (fun p => Session.txn_power s !! Power.key p = None) pm ->
  Session.bulk_save_objects (MPower <$> pm) s
  = (None, {| Session.stored_power := Session.stored_power s;
              Session.stored_jobs := Session.stored_jobs s;
              Session.txn_power := upsert_all (Session.txn_power s) pm;
              Session.txn_jobs := Session.txn_jobs s |}).
Proof.
  induction pm as [|p pm IH]; intros s Hnd Hfresh; [by destruct s|].
  cbn [fmap list_fmap] in Hnd. apply NoDup_cons in Hnd as [Hp Hnd].
  apply Forall_cons in Hfresh as [Hfp Hfresh].
  cbn [fmap list_fmap Session.bulk_save_objects Session.insert]. rewrite Hfp.
  rewrite IH; [reflexivity|done|].
  cbn [Session.txn_power]. apply Forall_forall. intros q Hq.
  rewrite lookup_insert_ne.
  - rewrite Forall_forall in Hfresh. by apply Hfresh.
  - intros Heq. apply Hp. rewrite Heq. by apply list_elem_of_fmap_2.
Qed.

Lemma bulk_save_powers_result (pm : list Power.t) : forall s : Session.t,
  (Session.bulk_save_objects (MPower <$> pm) s).1 = None
  \/ (Session.bulk_save_objects (MPower <$> pm) s).1 = Some IntegrityError.
Proof.
  induction pm as [|p pm IH]; intros s; [by left|].
  cbn [fmap list_fmap Session.bulk_save_objects Session.insert].
  destruct (Session.txn_power s !! Power.key p); [by right|apply IH].
Qed.

Lemma bulk_save_powers_None (pm : list Power.t) : forall s : Session.t,
  (Session.bulk_save_objects (MPower <$> pm) s).1 = None ->
  NoDup (Power.key <$> pm)
  /\ Forall (fun p => Session.txn_power s !! Power.key p = None) pm.
Proof.
  induction pm as [|p pm IH]; intros s H; [split; constructor|].
  cbn [fmap list_fmap Session.bulk_save_objects Session.insert] in H.
  destruct (Session.txn_power s !! Power.key p) eqn:Hp; [done|].
  apply IH in H as [Hnd Hfresh]. cbn [Session.txn_power] in Hfresh.
  rewrite Forall_forall in Hfresh.
  split.
  - cbn [fmap list_fmap]. apply NoDup_cons. split; [|done].
    intros Hin. apply list_elem_of_fmap in Hin as (q & Hk & Hq).
    specialize (Hfresh q Hq). rewrite <- Hk, lookup_insert_eq in Hfresh. done.
  - constructor; [done|]. apply Forall_forall. intros q Hq.
    specialize (Hfresh q Hq).
    apply lookup_insert_None in Hfresh. tauto.
Qed.

Lemma bulk_save_jobs_ok (jobs : list Job.t) : forall s : Session.t,
  Session.bulk_save_objects (MJob <$> jobs) s
  = (None, {| Session.stored_power := Session.stored_power s;
              Session.stored_jobs := Session.stored_jobs s;
              Session.txn_power := Session.txn_power s;
              Session.txn_jobs := Session.txn_jobs s ++ jobs |}).
Proof.
  induction jobs as [|j jobs IH]; intros s.
  - cbn. rewrite app_nil_r. by destruct s.
  - cbn [fmap list_fmap Session.bulk_save_objects Session.insert]. rewrite IH.
    cbn. by rewrite <- app_assoc.
Qed.

Lemma upsert_all_NoDup (pm : list Power.t) (t : gmap (Z * Z) Power.t) :
  NoDup (Power.key <$> pm) ->
  Forall (fun p => upsert_all t pm !! Power.key p = Some p) pm.
Proof.
  intros Hnd. apply Forall_forall. intros p Hp.
  apply list_elem_of_split in Hp as (l1 & l2 & ->).
  apply upsert_all_last. rewrite fmap_app in Hnd.
  apply NoDup_app in Hnd as (_ & _ & Hnd). cbn [fmap list_fmap] in Hnd.
  by apply NoDup_cons in Hnd as [Hnd _].
Qed.

(** X13.  [save_to_database] on measurements.  With [overwrite] it never
    raises, and the table of the transaction is the old one overwritten
    with the batch.  Without it, a batch whose keys are distinct and new to
    the table is saved and leaves the session that the merge leaves; any
    other batch raises [IntegrityError], and the stored tables are as they
    were. *)
Theorem save_to_database_modes (pm : list Power.t) (w : world) :
  (exists w2,
     save_to_database (MPower <$> pm) true w = (Normal tt, w2)
     /\ Session.txn_power (session w2) = upsert_all (Session.txn_power (session w)) pm
     /\ (NoDup (Power.key <$> pm) ->
         Forall (fun p => Session.txn_power (session w) !! Power.key p = None) pm ->
         exists w1,
           save_to_database (MPower <$> pm) false w = (Normal tt, w1)
           /\ session w1 = session w2))
  /\ (~ (NoDup (Power.key <$> pm)
         /\ Forall (fun p => Session.txn_power (session w) !! Power.key p = None) pm) ->
      exists w1,
        save_to_database (MPower <$> pm) false w = (Raise IntegrityError, w1)
        /\ Session.stored_power (session w1) = Session.stored_power (session w)
        /\ Session.stored_jobs (session w1) = Session.stored_jobs (session w)).
Proof.
  split.
  - unfold save_to_database at 1. cbn [negb]. rewrite merge_each_run.
    eexists. split; [reflexivity|]. cbn [session]. rewrite merge_powers.
    split; [reflexivity|]. intros Hnd Hfresh.
    unfold save_to_database, db_session.bulk_save_objects. cbn [negb].
    rewrite run_bind. cbn [emit]. unfold db_session.run_bulk_save.
    cbn [session after_event trace]. rewrite bulk_save_powers_ok by done.
    eexists. split; reflexivity.
  - intros Hbad.
    unfold save_to_database, db_session.bulk_save_objects. cbn [negb].
    rewrite run_bind. cbn [emit]. unfold db_session.run_bulk_save.
    cbn [session after_event trace].
    pose proof (bulk_save_stored (MPower <$> pm) (session w)) as [Hsp Hsj].
    destruct (bulk_save_powers_result pm (session w)) as [Hr|Hr].
    + apply bulk_save_powers_None in Hr. done.
    + destruct (Session.bulk_save_objects (MPower <$> pm) (session w)) as [r s1].
      cbn [fst snd] in *. subst r. eexists. split; [reflexivity|]. done.
Qed.

(** X14.  A POST whose connections are all accepted and whose batch has
    distinct keys, none of them in the table, is answered as processed
    after one bulk save of the measurements, one of the job descriptors and
    a commit; the stored table is the old one with the batch, and every
    measurement of the batch is stored as built. *)
Theorem accepted_fresh_request_is_stored (env : Env) (unit_ : string)
    (groups : list (list string)) (values : list (list num))
    (horizon : timedelta) (rolling : bool) (start : datetime)
    (duration : timedelta) (w : world) :
  let pm := batch_of env horizon rolling start duration
              (default 0 (DataSource.id <$> DataSource_of_current_user env))
              (Asset.id <$> get_assets env) (zip groups values) in
  forallb (accepted_group env (DataSource_of_current_user env)
             (Asset.id <$> get_assets env)) (zip groups values) = true ->
  NoDup (Power.key <$> pm) ->
  Forall (fun p => Session.txn_power (session w) !! Power.key p = None) pm ->
  exists jobs w',
    post_meter_data_response env unit_ groups values horizon rolling start
      duration w = (Return (Responses.request_processed []), w')
    /\ Session.stored_power (session w')
       = upsert_all (Session.txn_power (session w)) pm
    /\ Session.txn_power (session w') = Session.stored_power (session w')
    /\ Forall (fun p => Session.stored_power (session w') !! Power.key p = Some p) pm
    /\ trace w'
       = trace (entered env "POSTING POWER DATA" w)
         ++ [EvLog "info" "SAVING TO DB..."; EvBulkSave (MPower <$> pm);
             EvBulkSave (MJob <$> jobs); EvCommit].
Proof.
  intros pm Hacc Hnd Hfresh. unfold post_meter_data_response.
  destruct (create_saves_batch env horizon rolling start duration unit_ groups
              values w Hacc) as (jobs & ->). fold pm.
  exists jobs. unfold save_block. rewrite run_bind. cbn [logger_info emit].
  unfold try_except_IntegrityError.
  rewrite run_bind. unfold save_to_database at 1. cbn [negb].
  unfold db_session.bulk_save_objects at 1. rewrite run_bind. cbn [emit].
  unfold db_session.run_bulk_save at 1.
  assert (session (entered env "POSTING POWER DATA" w) = session w) as Hs
    by apply only_logged_entered.
  cbn [session after_event trace]. rewrite Hs, bulk_save_powers_ok by done.
  rewrite run_bind. unfold save_to_database at 1. cbn [negb].
  unfold db_session.bulk_save_objects at 1. rewrite run_bind. cbn [emit].
  unfold db_session.run_bulk_save at 1.
  cbn [session after_event trace]. rewrite bulk_save_jobs_ok.
  rewrite run_bind. unfold db_session.commit. rewrite run_bind.
  cbn [emit with_session after_event session trace py_return].
  eexists. split; [reflexivity|].
  cbn [session trace Session.commit Session.stored_power Session.txn_power].
  split; [done|]. split; [done|]. split; [by apply upsert_all_NoDup|].
  by rewrite <- !app_assoc.
Qed.

(* ===================================================================== *)
(** * Further properties: the query                                       *)
(* ===================================================================== *)

Section QueryProofs.

Variable env : Env.
Variable user_asset_ids : list Z.

Lemma names_loop_effects (cg : list string) : forall names w,
  only_logged w (asset_names_loop env user_asset_ids cg names w).2
  /\ match (asset_names_loop env user_asset_ids cg names w).1 with
     | Return r => r.2 = 400
     | _ => True
     end.
Proof.
  induction cg as [|c cg IH]; intros names w; [split; [apply only_logged_refl|done]|].
  cbn [asset_names_loop].
  destruct (validate_entity_address env c "connection") as [aid|].
  - destruct (existsb (Z.eqb aid) user_asset_ids).
    + rewrite run_ret_bind.
      destruct (Asset_by_id env aid) as [a|]; cbn [getattr lift_exn].
      * rewrite run_ret_bind. apply IH.
      * split; [apply only_logged_refl|done].
    + split; [apply only_logged_event|done].
  - split; [apply only_logged_event|done].
Qed.

Lemma connections_loop_effects resolution horizon_window start end_ preferred
    fallback rolling (groups : list (list string)) : forall st w,
  only_logged w (connections_loop env user_asset_ids resolution horizon_window
                   start end_ preferred fallback rolling groups st w).2
  /\ match (connections_loop env user_asset_ids resolution horizon_window
              start end_ preferred fallback rolling groups st w).1 with
     | Return r => r.2 = 400
     | _ => True
     end.
Proof.
  induction groups as [|cg groups IH]; intros st w;
    [split; [apply only_logged_refl|done]|].
  cbn [connections_loop]. rewrite run_bind.
  pose proof (names_loop_effects cg [] w) as [Hl Hr].
  destruct (asset_names_loop env user_asset_ids cg [] w) as [[names|r|e] w1];
    cbn [fst snd] in *; [|done..].
  destruct (IH (ts_values_loop
                  (Power_collect env names (start, end_) resolution horizon_window
                     rolling preferred fallback) st) w1) as [Hl' Hr'].
  split; [|done]. eapply only_logged_trans; eauto.
Qed.

(** The loop over the names of a group whose first connections resolve. *)
Lemma names_loop_reaches (cg1 : list string) (c : string) (cg2 : list string) :
  forall names w,
    Forall (fun c => is_Some (resolve env user_asset_ids c)) cg1 ->
    exists names',
      asset_names_loop env user_asset_ids (cg1 ++ c :: cg2) names w
      = asset_names_loop env user_asset_ids (c :: cg2) names' w.
Proof.
  induction cg1 as [|c1 cg1 IH]; intros names w Hres; [by eexists|].
  apply Forall_cons in Hres as [[a Ha] Hres].
  apply resolve_Some in Ha as (aid & Hv & Hin & Ha).
  cbn [app asset_names_loop]. rewrite Hv, Hin, run_ret_bind, Ha.
  cbn [getattr lift_exn]. rewrite run_ret_bind. by apply IH.
Qed.

Lemma names_loop_resolved (cg : list string) : forall names w,
  Forall (fun c => is_Some (resolve env user_asset_ids c)) cg ->
  asset_names_loop env user_asset_ids cg names w
  = (Normal (names ++ omap (fun c => Asset.name <$> resolve env user_asset_ids c) cg),
     w).
Proof.
  induction cg as [|c1 cg IH]; intros names w Hres.
  - cbn. by rewrite app_nil_r.
  - apply Forall_cons in Hres as [[a Ha] Hres]. cbn [omap list_omap]. rewrite Ha.
    apply resolve_Some in Ha as (aid & Hv & Hin & Ha).
    cbn [asset_names_loop]. rewrite Hv, Hin, run_ret_bind, Ha.
    cbn [getattr lift_exn fmap option_fmap option_map]. rewrite run_ret_bind, IH by done.
    by rewrite <- app_assoc.
Qed.

Lemma connections_loop_reaches resolution horizon_window start end_ preferred
    fallback rolling (pre : list (list string)) (cg : list string)
    (post : list (list string)) : forall st w,
  Forall (Forall (fun c => is_Some (resolve env user_asset_ids c))) pre ->
  exists st',
    connections_loop env user_asset_ids resolution horizon_window start end_
      preferred fallback rolling (pre ++ cg :: post) st w
    = connections_loop env user_asset_ids resolution horizon_window start end_
        preferred fallback rolling (cg :: post) st' w.
Proof.
  induction pre as [|cg0 pre IH]; intros st w Hres; [by eexists|].
  apply Forall_cons in Hres as [H0 Hres].
  cbn [app connections_loop]. rewrite run_bind, names_loop_resolved by done.
  by apply IH.
Qed.

End QueryProofs.

Lemma collect_run_end (env : Env) (unit_ resolution : string)
    (horizon_window : option timedelta * option timedelta)
    (start : datetime) (duration : timedelta)
    (connection_groups : list (list string))
    (preferred fallback : option (list Z)) (rolling : bool) (w : world) :
  collect_connection_and_value_groups env unit_ resolution horizon_window
    start duration connection_groups preferred fallback rolling w
  = match connections_loop env (Asset.id <$> get_assets env) resolution
            horizon_window start (start + duration) preferred fallback
            rolling connection_groups ([], []) (entered env "GETTING" w) with
    | (Normal (value_groups, new_connection_groups), w1) =>
        (match collect_end env unit_ start duration value_groups
                 new_connection_groups with
         | inl e => Raise e
         | inr r => Return r
         end, w1)
    | (Return r, w1) => (Return r, w1)
    | (Raise e, w1) => (Raise e, w1)
    end.
Proof.
  unfold collect_connection_and_value_groups, entered, collect_end.
  rewrite run_bind. cbn [logger_info emit]. rewrite run_bind.
  destruct (get_assets env) as [|a0 assets]; cbn [logger_info emit];
    rewrite ?run_ret, run_bind;
    (destruct (connections_loop _ _ _ _ _ _ _ _ _ _ _ _) as [[[vgs cgs]|r|e] w1];
      [|reflexivity..]);
    rewrite run_bind;
    (destruct (ApiUtils.groups_to_dict cgs vgs) as [e|d]; cbn [lift_exn bind_exn];
      [reflexivity|]);
    rewrite run_ret, run_bind;
    (destruct (message_replace_name_with_ea env d) as [e|d']; cbn [lift_exn bind_exn];
      [reflexivity|]);
    rewrite run_ret; cbn zeta;
    change (Responses.request_processed [])
      with ([("status", PStr "PROCESSED");
             ("message", PStr "Request has been processed.")], 200);
    cbn iota; rewrite run_bind;
    (destruct (Dict.merge_kwargs _ _) as [e|m]; cbn [lift_exn bind_exn]; reflexivity).
Qed.

Lemma collect_end_code (env : Env) (unit_ : string) (start : datetime)
    (duration : timedelta) (vgs cgs : list pyval) (r : response) :
  collect_end env unit_ start duration vgs cgs = inr r -> r.2 = 200.
Proof.
  unfold collect_end. destruct (ApiUtils.groups_to_dict cgs vgs) as [e|d]; [done|].
  cbn [bind_exn]. destruct (message_replace_name_with_ea env d) as [e|d']; [done|].
  cbn [bind_exn]. cbn zeta.
  change (Responses.request_processed [])
    with ([("status", PStr "PROCESSED");
           ("message", PStr "Request has been processed.")], 200).
  cbn iota. destruct (Dict.merge_kwargs _ _) as [e|m]; [done|].
  cbn [bind_exn]. by intros [= <-].
Qed.

(** X15.  A GET of meter data never writes: whatever the request, the
    session is unchanged and the trace grows by log lines only.  It ends on
    a response with status code 200 or 400, or on an exception. *)
Theorem get_meter_data_never_writes (env : Env) (unit_ resolution : string)
    (groups : list (list string)) (horizon : option timedelta) (rolling : bool)
    (start : datetime) (duration : timedelta)
    (preferred fallback : option (list Z)) (w : world) :
  exists fl w',
    get_meter_data_response env unit_ resolution groups horizon rolling start
      duration preferred fallback w = (fl, w')
    /\ session w' = session w
    /\ (exists logs, trace w' = trace w ++ logs /\ existsb is_write logs = false)
    /\ match fl with
       | Normal _ => False
       | Return r => r.2 = 200 \/ r.2 = 400
       | Raise _ => True
       end.
Proof.
  unfold get_meter_data_response. rewrite collect_run_end.
  pose proof (connections_loop_effects env (Asset.id <$> get_assets env)
                resolution (horizon, Some 0) start (start + duration) preferred
                fallback rolling groups ([], []) (entered env "GETTING" w))
    as [Hlog Hcode].
  assert (only_logged w (connections_loop env (Asset.id <$> get_assets env)
                resolution (horizon, Some 0) start (start + duration) preferred
                fallback rolling groups ([], []) (entered env "GETTING" w)).2) as Hw.
  { eapply only_logged_trans; [apply only_logged_entered|exact Hlog]. }
  destruct (connections_loop _ _ _ _ _ _ _ _ _ _ _ _) as [[[vgs cgs]|r|e] w1];
    cbn [fst snd] in *; eexists _, _; (split; [reflexivity|]);
    (split; [apply Hw|]); (split; [by apply only_logged_no_write|]).
  - destruct (collect_end env unit_ start duration vgs cgs) as [e|r] eqn:He; [done|].
    left. by eapply collect_end_code.
  - by right.
  - done.
Qed.

(** X16.  When every connection before [c] resolves, a GET of meter data
    is answered with [InvalidDomain] if the address [c] does not parse, and
    with [UnrecognizedConnectionGroup] if it parses to an asset id that is
    not one of the user's, with one warning logged. *)
Theorem get_first_bad_address (env : Env) (unit_ resolution : string)
    (horizon : option timedelta) (rolling : bool)
    (start : datetime) (duration : timedelta)
    (preferred fallback : option (list Z)) (w : world)
    (pre post : list (list string)) (cg1 cg2 : list string) (c : string) :
  Forall (Forall (fun c => is_Some (resolve env (Asset.id <$> get_assets env) c)))
    pre ->
  Forall (fun c => is_Some (resolve env (Asset.id <$> get_assets env) c)) cg1 ->
  (validate_entity_address env c "connection" = None ->
   get_meter_data_response env unit_ resolution
     (pre ++ (cg1 ++ c :: cg2) :: post) horizon rolling start duration
     preferred fallback w
   = (Return (Responses.invalid_domain []),
      after_event
        (EvLog "warn" "Cannot parse this connection's entity address: %s")
        (entered env "GETTING" w)))
  /\ (forall asset_id,
        validate_entity_address env c "connection" = Some asset_id ->
        existsb (Z.eqb asset_id) (Asset.id <$> get_assets env) = false ->
        get_meter_data_response env unit_ resolution
          (pre ++ (cg1 ++ c :: cg2) :: post) horizon rolling start duration
          preferred fallback w
        = (Return (Responses.unrecognized_connection_group []),
           after_event (EvLog "warn" "Cannot identify connection %s")
             (entered env "GETTING" w))).
Proof.
  intros Hpre Hcg1. unfold get_meter_data_response.
  destruct (connections_loop_reaches env (Asset.id <$> get_assets env) resolution
              (horizon, Some 0) start (start + duration) preferred fallback
              rolling pre (cg1 ++ c :: cg2) post ([], [])
              (entered env "GETTING" w) Hpre) as (st & Hreach).
  destruct (names_loop_reaches env (Asset.id <$> get_assets env) cg1 c cg2 []
              (entered env "GETTING" w) Hcg1) as (names & Hnames).
  split.
  - intros Hv. rewrite collect_run_end, Hreach. cbn [connections_loop].
    rewrite run_bind, Hnames. cbn [asset_names_loop]. rewrite Hv. reflexivity.
  - intros aid Hv Hin. rewrite collect_run_end, Hreach. cbn [connections_loop].
    rewrite run_bind, Hnames. cbn [asset_names_loop]. rewrite Hv, Hin. reflexivity.
Qed.

Section QuerySuccess.

Variable env : Env.

Local Abbreviation named := (fun c => Forall (is_asset_name env) (members c)).

Lemma named_cases (c : pyval) :
  named c ->
  (exists n, c = PStr n /\ is_Some (Asset_by_name env n))
  \/ (exists l, c = PList l /\ Forall (is_asset_name env) l).
Proof.
  destruct c as [x|n|l|d]; cbn [members]; intros H.
  - by apply Forall_cons in H as [[] _].
  - apply Forall_cons in H as [H _]. left. eauto.
  - right. eauto.
  - by apply Forall_cons in H as [[] _].
Qed.

Lemma unique_ever_seen_loop_named (pairs : list (pyval * pyval)) :
  forall u s u' s' : list pyval,
    Forall (fun p => is_asset_name env p.2) pairs ->
    Forall named s ->
    ApiUtils.unique_ever_seen_loop pairs (u, s) = inr (u', s') ->
    Forall named s'.
Proof.
  induction pairs as [|[x c] pairs IH]; intros u s u' s' Hp Hs Hrun.
  - cbn in Hrun. by injection Hrun as <- <-.
  - apply Forall_cons in Hp as [Hc Hp]. cbn [snd] in Hc.
    cbn [ApiUtils.unique_ever_seen_loop ApiUtils.unique_ever_seen_step] in Hrun.
    destruct (ApiUtils.py_in x u); cbn [negb] in Hrun.
    + destruct (ApiUtils.py_index x u) as [i|]; [|done].
      destruct (s !! i) as [us|] eqn:Hi; [|done]. cbn [bind_exn] in Hrun.
      eapply IH; [done| |exact Hrun]. apply Forall_insert; [done|].
      change (match us with PList l => l | _ => [us] end) with (members us).
      cbn [members]. apply Forall_app. split; [|by constructor].
      rewrite Forall_forall in Hs. apply Hs. by eapply list_elem_of_lookup_2.
    + cbn [bind_exn] in Hrun. eapply IH; [done| |exact Hrun].
      apply Forall_app. split; [done|]. constructor; [|done].
      destruct c; try done. by constructor.
Qed.

Lemma asset_replace_named (l : list pyval) :
  Forall (is_asset_name env) l ->
  exists eas, asset_replace_name_with_id env l = inr eas.
Proof.
  induction 1 as [|x l Hx _ [eas IH]]; [by eexists|].
  destruct x as [?|n|?|?]; try done. destruct Hx as [a Ha].
  cbn [asset_replace_name_with_id]. rewrite Ha, IH. cbn. by eexists.
Qed.

(** The entry that [groups_to_dict] builds of a named connection group. *)
Lemma named_entry (c : pyval) :
  named c ->
  exists n, ApiUtils.py_len c = inr n
    /\ (n = 1%nat -> exists x, ApiUtils.py_getitem0 c = inr x /\ named x).
Proof.
  intros Hc. destruct (named_cases c Hc) as [(s & -> & Hs)|(l & -> & Hl)].
  - exists (String.length s). split; [done|]. intros H1.
    destruct s as [|ch [|ch' s]]; try done. eexists. split; [reflexivity|done].
  - exists (length l). split; [done|]. intros H1.
    destruct l as [|x [|y l]]; try done. exists x. split; [done|].
    apply Forall_cons in Hl as [Hx _]. destruct x; try done.
    all: cbn [members]; by constructor.
Qed.

(** The replacement of the names in an entry keeps its keys. *)
Lemma replace_in_named (key : string) (e v : pyval) :
  key = "connection" \/ key = "connections" ->
  named e ->
  exists eas,
    replace_in env [(key, e); ("values", v)]
    = Some (inr [(key, PList eas); ("values", v)]).
Proof.
  intros Hkey He.
  assert (ApiUtils.parse_as_list e = members e) as Hpl.
  { destruct (named_cases e He) as [(s & -> & _)|(l & -> & _)]; done. }
  destruct (asset_replace_named (members e) He) as [eas Heas].
  exists eas. destruct Hkey as [-> | ->]; unfold replace_in; cbn [Dict.get String.eqb];
    cbn; rewrite Hpl, Heas; reflexivity.
Qed.


Local Abbreviation entry_ok :=
  (fun g => exists key e v,
     g = PDict [(key, e); ("values", v)]
     /\ (key = "connection" \/ key = "connections") /\ named e).

Lemma groups_loop_named (pairs : list (pyval * pyval)) :
  forall groups : list pyval,
    Forall (fun p => named p.1) pairs ->
    exists gs,
      ApiUtils.groups_loop pairs groups = inr (groups ++ gs) /\ Forall entry_ok gs.
Proof.
  induction pairs as [|[c v] pairs IH]; intros groups Hp.
  - exists []. by rewrite app_nil_r.
  - apply Forall_cons in Hp as [Hc Hp]. cbn [fst] in Hc.
    destruct (named_entry c Hc) as (n & Hn & H1).
    cbn [ApiUtils.groups_loop]. rewrite Hn. cbn [bind_exn].
    destruct (Nat.eqb_spec n 1) as [->|_].
    + destruct (H1 eq_refl) as (x & -> & Hx). cbn [bind_exn].
      destruct (IH (groups ++ [PDict [("connection", x); ("values", v)]]) Hp)
        as (gs & -> & Hgs).
      eexists (_ :: gs). rewrite <- app_assoc. split; [reflexivity|].
      constructor; [|done]. eexists _, _, _. eauto.
    + destruct (IH (groups ++ [PDict [("connections", c); ("values", v)]]) Hp)
        as (gs & -> & Hgs).
      eexists (_ :: gs). rewrite <- app_assoc. split; [reflexivity|].
      constructor; [|done]. eexists _, _, _. eauto.
Qed.

Lemma replace_in_groups_named (gs : list pyval) :
  Forall entry_ok gs -> exists gs', replace_in_groups env gs = inr gs'.
Proof.
  induction 1 as [|g gs (key & e & v & -> & Hkey & He) _ [gs' IH]]; [by eexists|].
  destruct (replace_in_named key e v Hkey He) as [eas Hr].
  cbn [replace_in_groups]. rewrite Hr, IH. cbn. by eexists.
Qed.

Lemma collect_end_named (unit_ : string) (start : datetime)
    (duration : timedelta) (vgs cgs : list pyval) :
  Forall (is_asset_name env) cgs ->
  exists d,
    collect_end env unit_ start duration vgs cgs = inr (d, 200)
    /\ Dict.get "status" d = Some (PStr "PROCESSED")
    /\ Dict.get "unit" d = Some (PStr unit_)
    /\ Dict.get "start" d = Some (PStr (datetime_isoformat env start))
    /\ Dict.get "duration" d = Some (PStr (duration_isoformat env duration))
    /\ (Dict.mem "groups" d = true \/ Dict.mem "values" d = true).
Proof.
  intros Hc. unfold collect_end, ApiUtils.groups_to_dict.
  destruct (unique_ever_seen_loop_inv (zip vgs cgs) [] [] eq_refl eq_refl)
    as (u & s & Hrun & Hlen & _ & _). cbn [app] in *.
  unfold ApiUtils.unique_ever_seen. rewrite Hrun. cbn [bind_exn].
  assert (Forall named s) as Hs.
  { eapply unique_ever_seen_loop_named; [|constructor|exact Hrun].
    apply Forall_forall. intros [x c] Hin. cbn.
    apply elem_of_zip_r in Hin. rewrite Forall_forall in Hc. by apply Hc. }
  assert (exists gs, ApiUtils.groups_loop (zip s u) [] = inr gs /\ Forall entry_ok gs)
    as (gs & Hg & Hgs).
  { apply (groups_loop_named (zip s u) []). apply Forall_forall. intros [c x] Hin.
    cbn. apply elem_of_zip_l in Hin. rewrite Forall_forall in Hs. by apply Hs. }
  destruct (replace_in_groups_named gs Hgs) as [gs' Hgs'].
  assert (exists d,
    bind_exn (message_replace_name_with_ea env [("groups", PList gs)])
      (fun resp =>
       let resp := Dict.set "start" (PStr (datetime_isoformat env start)) resp in
       let resp := Dict.set "duration" (PStr (duration_isoformat env duration)) resp in
       let resp := Dict.set "unit" (PStr unit_) resp in
       let '(d, s) := Responses.request_processed [] in
       bind_exn (Dict.merge_kwargs resp d) (fun merged => inr (merged, s)))
    = inr (d, 200)
    /\ Dict.get "status" d = Some (PStr "PROCESSED")
    /\ Dict.get "unit" d = Some (PStr unit_)
    /\ Dict.get "start" d = Some (PStr (datetime_isoformat env start))
    /\ Dict.get "duration" d = Some (PStr (duration_isoformat env duration))
    /\ (Dict.mem "groups" d = true \/ Dict.mem "values" d = true)) as Hgroups.
  { unfold message_replace_name_with_ea, replace_in. cbn [Dict.get].
    cbn. rewrite Hgs'. cbn. eexists. split; [reflexivity|]. cbn. tauto. }
  destruct u as [|v [|v' u]], s as [|c [|c' s]]; try done;
    try (rewrite Hg; cbn [bind_exn]; apply Hgroups).
  clear Hgroups. apply Forall_cons in Hs as [Hc1 _].
  destruct (named_entry c Hc1) as (n & Hn & H1). rewrite Hn. cbn [bind_exn].
  destruct (Nat.eqb_spec n 1) as [->|_].
  - destruct (H1 eq_refl) as (x & -> & Hx). cbn [bind_exn].
    destruct (replace_in_named "connection" x v (or_introl eq_refl) Hx) as [eas Hr].
    unfold message_replace_name_with_ea. rewrite Hr. cbn.
    eexists. split; [reflexivity|]. cbn. tauto.
  - destruct (replace_in_named "connections" c v (or_intror eq_refl) Hc1) as [eas Hr].
    cbn [bind_exn]. unfold message_replace_name_with_ea. rewrite Hr. cbn.
    eexists. split; [reflexivity|]. cbn. tauto.
Qed.

Lemma ts_values_loop_named (items : list (string * list num)) :
  forall vgs cgs : list pyval,
    Forall (fun kv => is_Some (Asset_by_name env kv.1)) items ->
    Forall (is_asset_name env) cgs ->
    Forall (is_asset_name env) (ts_values_loop items (vgs, cgs)).2.
Proof.
  induction items as [|[k v] items IH]; intros vgs cgs Hi Hc; [done|].
  apply Forall_cons in Hi as [Hk Hi]. cbn [ts_values_loop]. apply IH; [done|].
  apply Forall_app. split; [done|]. by constructor.
Qed.

End QuerySuccess.

Lemma connections_loop_named (env : Env) (user_asset_ids : list Z)
    resolution horizon_window start end_ preferred fallback rolling
    (groups : list (list string)) : forall (vgs cgs : list pyval) (w : world),
  Forall (Forall (fun c => is_Some (resolve env user_asset_ids c))) groups ->
  Forall (fun cg =>
            Forall (fun kv => is_Some (Asset_by_name env kv.1))
              (Power_collect env
                 (omap (fun c => Asset.name <$> resolve env user_asset_ids c) cg)
                 (start, end_) resolution horizon_window rolling preferred
                 fallback)) groups ->
  Forall (is_asset_name env) cgs ->
  exists vgs' cgs',
    connections_loop env user_asset_ids resolution horizon_window start end_
      preferred fallback rolling groups (vgs, cgs) w
    = (Normal (vgs', cgs'), w)
    /\ Forall (is_asset_name env) cgs'.
Proof.
  induction groups as [|cg groups IH]; intros vgs cgs w Hres Hcol Hc;
    [by eexists _, _|].
  apply Forall_cons in Hres as [H0 Hres]. apply Forall_cons in Hcol as [Hcol0 Hcol].
  cbn [connections_loop]. rewrite run_bind, names_loop_resolved by done.
  cbn [app].
  pose proof (ts_values_loop_named env _ vgs cgs Hcol0 Hc) as Hts.
  destruct (ts_values_loop _ (vgs, cgs)) as [vgs1 cgs1]. by apply IH.
Qed.

(** X17.  When every connection of the request resolves and the series
    collected for each group are keyed by names of assets, a GET of meter
    data is answered with status code 200 and nothing is logged but the
    first lines; the response carries the status PROCESSED, the unit of the
    request, the start and the duration in ISO format, and either
    ["groups"] or ["values"]. *)
Theorem get_meter_data_succeeds (env : Env) (unit_ resolution : string)
    (groups : list (list string)) (horizon : option timedelta) (rolling : bool)
    (start : datetime) (duration : timedelta)
    (preferred fallback : option (list Z)) (w : world) :
  Forall (Forall (fun c => is_Some (resolve env (Asset.id <$> get_assets env) c)))
    groups ->
  Forall (fun cg =>
            Forall (fun kv => is_Some (Asset_by_name env kv.1))
              (Power_collect env
                 (omap (fun c => Asset.name
                                   <$> resolve env (Asset.id <$> get_assets env) c) cg)
                 (start, start + duration) resolution (horizon, Some 0) rolling
                 preferred fallback)) groups ->
  exists d,
    get_meter_data_response env unit_ resolution groups horizon rolling start
      duration preferred fallback w
    = (Return (d, 200), entered env "GETTING" w)
    /\ Dict.get "status" d = Some (PStr "PROCESSED")
    /\ Dict.get "unit" d = Some (PStr unit_)
    /\ Dict.get "start" d = Some (PStr (datetime_isoformat env start))
    /\ Dict.get "duration" d = Some (PStr (duration_isoformat env duration))
    /\ (Dict.mem "groups" d = true \/ Dict.mem "values" d = true).
Proof.
  intros Hres Hcol. unfold get_meter_data_response. rewrite collect_run_end.
  destruct (connections_loop_named env (Asset.id <$> get_assets env) resolution
              (horizon, Some 0) start (start + duration) preferred fallback
              rolling groups [] [] (entered env "GETTING" w) Hres Hcol
              ltac:(constructor)) as (vgs & cgs & -> & Hc).
  destruct (collect_end_named env unit_ start duration vgs cgs Hc)
    as (d & -> & Hd). by exists d.
Qed.

(* ===================================================================== *)
(** * Further properties: instances                                       *)
(* ===================================================================== *)

(** A group that does not parse after the paired one, and a value group
    without a connection group. *)
Lemma post_ignores_unpaired_groups_witness :
  post_meter_data_response Example.strict "MW"
    ([[Example.ea_house]] ++ [["garbage"]]) [Example.quarters]
    (PyTime.hours 2) false 0 (PyTime.hours 1) Example.fresh
  = post_meter_data_response Example.strict "MW" [[Example.ea_house]]
      [Example.quarters] (PyTime.hours 2) false 0 (PyTime.hours 1) Example.fresh.
Proof.
  apply (post_ignores_unpaired_groups Example.strict "MW" [[Example.ea_house]]
           [["garbage"]] [Example.quarters] [[NInt 1]]).
  reflexivity.
Defined.

(** The asset without a row, after the house. *)
Lemma unaccepted_request_writes_nothing_witness :
  exists fl w',
    post_meter_data_response Example.strict "MW"
      [[Example.ea_house; Example.ea_gone]] [Example.quarters]
      (PyTime.hours 2) false 0 (PyTime.hours 1) Example.filled = (fl, w')
    /\ session w' = session Example.filled.
Proof.
  destruct (unaccepted_request_writes_nothing Example.strict "MW"
              [[Example.ea_house; Example.ea_gone]] [Example.quarters]
              (PyTime.hours 2) false 0 (PyTime.hours 1) Example.filled)
    as (fl & w' & Hrun & _ & Hs & _); [reflexivity|].
  by exists fl, w'.
Defined.

(** An address that does not parse after the house, and an address of
    another owner. *)
Lemma post_first_bad_address_witness :
  (post_meter_data_response Example.strict "MW"
     [[Example.ea_house; "garbage"]] [Example.quarters]
     (PyTime.hours 2) false 0 (PyTime.hours 1) Example.fresh).1
  = Return (Responses.invalid_domain [])
  /\ (post_meter_data_response Example.strict "MW"
        [[Example.ea_house; "ea1.2018-06.com.a1-bvp:9:4"]] [Example.quarters]
        (PyTime.hours 2) false 0 (PyTime.hours 1) Example.fresh).1
     = Return (Responses.unrecognized_connection_group []).
Proof.
  split.
  - destruct (post_first_bad_address Example.strict "MW"
                [[Example.ea_house; "garbage"]] [Example.quarters]
                (PyTime.hours 2) false 0 (PyTime.hours 1) Example.fresh
                [] [] [Example.ea_house] [] "garbage" Example.quarters)
      as [Hbad _]; [reflexivity..|].
    by rewrite Hbad.
  - destruct (post_first_bad_address Example.strict "MW"
                [[Example.ea_house; "ea1.2018-06.com.a1-bvp:9:4"]]
                [Example.quarters]
                (PyTime.hours 2) false 0 (PyTime.hours 1) Example.fresh
                [] [] [Example.ea_house] [] "ea1.2018-06.com.a1-bvp:9:4"
                Example.quarters)
      as [_ Hbad]; [reflexivity..|].
    by rewrite (Hbad 4).
Defined.

(** Four quarters for the house: one job, from the start to the start of
    the last quarter. *)
Lemma forecasting_job_of_connection_witness :
  (connection_body Example.strict (PyTime.hours 2) false 0 (PyTime.hours 1)
     (Some Example.source) Example.ids Example.quarters Example.ea_house
     ([], []) Example.fresh).1
  = Normal (powers_of (PyTime.hours 2) false 0 (PyTime.hours 1) 7
              Example.quarters Example.house,
            [ {| Job.metric_kind := "Power"; Job.asset_id := 1;
                 Job.start := 0; Job.end_ := PyTime.minutes 45 |} ]).
Proof.
  destruct (forecasting_job_of_connection Example.strict (PyTime.hours 2) false
              0 (PyTime.hours 1) Example.source Example.ids Example.quarters
              Example.ea_house 1 Example.house [] [] Example.fresh)
    as [Hrun _]; [reflexivity..|].
  rewrite Hrun. reflexivity.
Defined.

Lemma measurement_datetimes_witness :
  exists pm e,
    power_loop (PyTime.hours 2) false 0 (PyTime.hours 1) (Some Example.source)
      Example.house Example.quarters 0 Example.quarters [] 0 = inr (pm, e)
    /\ NoDup (Power.key <$> pm).
Proof.
  destruct (power_loop (PyTime.hours 2) false 0 (PyTime.hours 1)
              (Some Example.source) Example.house Example.quarters 0
              Example.quarters [] 0) as [e|[pm e]] eqn:Hrun;
    [vm_compute in Hrun; discriminate|].
  exists pm, e. split; [reflexivity|].
  destruct (measurement_datetimes _ _ _ _ _ _ _ _ _ Hrun) as [_ Hdiv];
    [vm_compute; discriminate|].
  apply Hdiv; [by exists 900000000 | reflexivity].
Defined.

(** The slot of the house again: the bulk save raises and the merge
    overwrites. *)
Lemma save_to_database_modes_witness :
  (exists w1,
     save_to_database (MPower <$> [Example.again]) false Example.filled
     = (Raise IntegrityError, w1)
     /\ Session.stored_power (session w1)
        = Session.stored_power (session Example.filled))
  /\ (exists w1 w2,
        save_to_database (MPower <$> [Example.again]) false Example.fresh
        = (Normal tt, w1)
        /\ save_to_database (MPower <$> [Example.again]) true Example.fresh
           = (Normal tt, w2)
        /\ session w1 = session w2).
Proof.
  split.
  - destruct (save_to_database_modes [Example.again] Example.filled)
      as [_ Hbad].
    destruct Hbad as (w1 & Hrun & Hs & _).
    + intros [_ Hfresh]. apply Forall_cons in Hfresh as [Hfresh _].
      vm_compute in Hfresh. discriminate.
    + by exists w1.
  - destruct (save_to_database_modes [Example.again] Example.fresh)
      as [(w2 & Hm & _ & Hok) _].
    destruct Hok as (w1 & Hb & Hs).
    + repeat constructor. apply not_elem_of_nil.
    + repeat constructor.
    + by exists w1, w2.
Defined.

Lemma accepted_fresh_request_is_stored_witness :
  exists w',
    post_meter_data_response Example.strict "MW" [[Example.ea_house]]
      [Example.quarters] (PyTime.hours 2) false 0 (PyTime.hours 1) Example.fresh
    = (Return (Responses.request_processed []), w')
    /\ size (Session.stored_power (session w')) = 4%nat.
Proof.
  destruct (accepted_fresh_request_is_stored Example.strict "MW"
              [[Example.ea_house]] [Example.quarters] (PyTime.hours 2) false 0
              (PyTime.hours 1) Example.fresh)
    as (jobs & w' & Hrun & Hstored & _).
  - reflexivity.
  - apply (bool_decide_unpack _). vm_compute. exact I.
  - apply Forall_forall. intros p _. apply lookup_empty.
  - exists w'. split; [exact Hrun|]. rewrite Hstored. vm_compute. reflexivity.
Defined.

Lemma get_first_bad_address_witness :
  (get_meter_data_response Example.strict "MW" "PT15M"
     [[Example.ea_house]; [Example.ea_solar; "garbage"]] None false 0
     (PyTime.hours 1) None None Example.fresh).1
  = Return (Responses.invalid_domain []).
Proof.
  destruct (get_first_bad_address Example.strict "MW" "PT15M" None false 0
              (PyTime.hours 1) None None Example.fresh
              [[Example.ea_house]] [] [Example.ea_solar] [] "garbage")
    as [Hbad _].
  - repeat constructor; vm_compute; eauto.
  - repeat constructor; vm_compute; eauto.
  - exact (f_equal fst (Hbad eq_refl)).
Defined.

(** The house and the solar panel in one group. *)
Lemma get_meter_data_succeeds_witness :
  exists d,
    (get_meter_data_response Example.strict "MW" "PT15M"
       [[Example.ea_house; Example.ea_solar]] None false 0 (PyTime.hours 1)
       None None Example.fresh).1 = Return (d, 200)
    /\ Dict.get "unit" d = Some (PStr "MW").
Proof.
  destruct (get_meter_data_succeeds Example.strict "MW" "PT15M"
              [[Example.ea_house; Example.ea_solar]] None false 0
              (PyTime.hours 1) None None Example.fresh)
    as (d & Hrun & _ & Hunit & _).
  - repeat constructor; vm_compute; eauto.
  - repeat constructor; vm_compute; eauto.
  - exists d. by rewrite Hrun.
Defined.

(* ===================================================================== *)
(** * Further properties: services, forms and messages                    *)
(* ===================================================================== *)

Lemma accessible_loop_filter (role : string) (services : list pyval) :
  forall accessible : list pyval,
    Forall (fun svc => exists access,
              py_getitem svc "access" = inr (PList access)) services ->
    accessible_loop role services accessible
    = inr (accessible ++ List.filter (grants role) services).
Proof.
  induction services as [|svc services IH]; intros acc Hwf.
  - cbn. by rewrite app_nil_r.
  - apply Forall_cons in Hwf as [[access Ha] Hwf].
    cbn [accessible_loop List.filter]. unfold grants at 1. rewrite Ha.
    cbn [bind_exn str_in]. rewrite IH by done.
    destruct (ApiUtils.py_in (PStr role) access); [|done].
    by rewrite <- app_assoc.
Qed.

(** X18.  On a listing whose services each carry a list of access roles,
    [get_service_response] with a role that is not empty answers with the
    services that list the role, in the order of the listing, and with
    [InvalidRole] when there is none.  With the empty role, as without a
    role, it answers with all services. *)
Theorem get_service_response_filters (c : Ascii.ascii) (role' : string)
    (service_listing version : pyval) (services : list pyval) :
  py_getitem service_listing "version" = inr version ->
  py_getitem service_listing "services" = inr (PList services) ->
  Forall (fun svc => exists access,
            py_getitem svc "access" = inr (PList access)) services ->
  get_service_response (Some (String c role')) service_listing
  = inr (match List.filter (grants (String c role')) services with
         | [] => MoreResponses.invalid_role (String c role')
         | accessible =>
             ([("version", version); ("services", PList accessible);
               ("status", PStr "PROCESSED");
               ("message", PStr "Request has been processed.")], 200)
         end)
  /\ get_service_response (Some "") service_listing
     = get_service_response None service_listing
  /\ get_service_response None service_listing
     = inr ([("version", version); ("services", PList services);
             ("status", PStr "PROCESSED");
             ("message", PStr "Request has been processed.")], 200).
Proof.
  intros Hv Hs Hwf. unfold get_service_response. rewrite Hv, Hs.
  split; [|done].
  cbn [bind_exn py_iter]. rewrite accessible_loop_filter by done.
  cbn [bind_exn app]. destruct (List.filter _ services); reflexivity.
Qed.

Lemma check_access_next_skip (pre rest : list pyval) (name : pyval) :
  Forall (fun svc => exists n, py_getitem svc "name" = inr n
                               /\ py_eqb n name = false) pre ->
  MoreApiUtils.check_access_next (pre ++ rest) name
  = MoreApiUtils.check_access_next rest name.
Proof.
  induction 1 as [|svc pre (n & Hn & Hne) _ IH]; [done|].
  cbn [app MoreApiUtils.check_access_next]. by rewrite Hn, Hne.
Qed.

(** X19.  [check_access] returns the access roles of the first service of
    the name, whatever the services after it are; without the key
    ["access"] in that service it raises [KeyError]. *)
Theorem check_access_first_match (service_listing name : pyval)
    (pre post : list pyval) (svc n : pyval) :
  py_getitem service_listing "services" = inr (PList (pre ++ svc :: post)) ->
  Forall (fun svc => exists n, py_getitem svc "name" = inr n
                               /\ py_eqb n name = false) pre ->
  py_getitem svc "name" = inr n -> py_eqb n name = true ->
  MoreApiUtils.check_access service_listing name
  = lift_exc (py_getitem svc "access").
Proof.
  intros Hs Hpre Hn He. unfold MoreApiUtils.check_access. rewrite Hs.
  cbn [bind_exn py_iter]. rewrite check_access_next_skip by done.
  cbn [MoreApiUtils.check_access_next]. by rewrite Hn, He.
Qed.

(** X20.  When no service of the listing has the name, [check_access]
    raises [StopIteration]: it has no default. *)
Theorem check_access_no_match (service_listing name : pyval)
    (services : list pyval) :
  py_getitem service_listing "services" = inr (PList services) ->
  Forall (fun svc => exists n, py_getitem svc "name" = inr n
                               /\ py_eqb n name = false) services ->
  MoreApiUtils.check_access service_listing name = inl StopIteration.
Proof.
  intros Hs Hall. unfold MoreApiUtils.check_access. rewrite Hs.
  cbn [bind_exn py_iter].
  rewrite <- (app_nil_r services), check_access_next_skip by done. done.
Qed.

(** X21.  [contains_empty_items] is [False] exactly when every item of
    every group is a string that is not empty. *)
Theorem contains_empty_items_false (groups : list (list (option string))) :
  MoreApiUtils.contains_empty_items groups = false <->
  forall group item, group ∈ groups -> item ∈ group ->
    exists s, item = Some s /\ s <> "".
Proof.
  induction groups as [|g groups IH].
  - split; [|done]. intros _ group item Hg. by apply elem_of_nil in Hg.
  - cbn [MoreApiUtils.contains_empty_items].
    destruct (existsb _ g) eqn:He.
    + split; [done|]. intros H. exfalso.
      apply existsb_exists in He as (item & Hin & Hitem).
      apply list_elem_of_In in Hin.
      destruct (H g item) as (s & -> & Hs); [by left|done|].
      by apply String.eqb_eq in Hitem.
    + rewrite IH. split.
      * intros H group item Hg Hi. apply elem_of_cons in Hg as [->|Hg]; [|eauto].
        apply list_elem_of_In in Hi.
        destruct item as [s|].
        -- exists s. split; [done|]. intros ->.
           assert (existsb (fun item => match item with
                                        | Some s => String.eqb s ""
                                        | None => true
                                        end) g = true) as Hc; [|congruence].
           apply existsb_exists. by exists (Some "").
        -- assert (existsb (fun item => match item with
                                        | Some s => String.eqb s ""
                                        | None => true
                                        end) g = true) as Hc; [|congruence].
           apply existsb_exists. by exists None.
      * intros H group item Hg Hi. apply (H group item); [by right|done].
Qed.

Lemma dict_set_fresh (k : string) (v : pyval) (d : dict) :
  k ∉ d.*1 -> Dict.set k v d = d ++ [(k, v)].
Proof.
  induction d as [|[k' v'] d IH]; intros Hk; [done|].
  cbn [Dict.set]. rewrite fmap_cons, not_elem_of_cons in Hk.
  destruct Hk as [Hne Hk]. cbn in Hne.
  destruct (String.eqb_spec k k') as [->|_]; [done|].
  cbn [app]. by rewrite IH.
Qed.

Lemma parse_v_list_bind (json_list : string -> option (list pyval))
    (v_list : list string) : forall parsed_v_list,
  MoreApiUtils.parse_v_list json_list v_list parsed_v_list
  = parsed_v_list ++ (v_list ≫= fun v => default [PStr v] (json_list v)).
Proof.
  induction v_list as [|v v_list IH]; intros acc.
  - cbn. by rewrite app_nil_r.
  - cbn [MoreApiUtils.parse_v_list]. rewrite bind_cons.
    destruct (json_list v) as [l|]; rewrite IH, <- app_assoc; done.
Qed.

Lemma form_loop_fresh (json_list : string -> option (list pyval))
    (items : list (string * list string)) : forall parsed_d,
  NoDup (parsed_d.*1 ++ items.*1) ->
  MoreApiUtils.form_loop json_list items parsed_d
  = parsed_d ++ (form_entry json_list <$> items).
Proof.
  induction items as [|[k v_list] items IH]; intros d Hd.
  - cbn. by rewrite app_nil_r.
  - cbn [MoreApiUtils.form_loop]. rewrite parse_v_list_bind. cbn [app].
    rewrite fmap_cons. cbn [fst] in Hd.
    assert (k ∉ d.*1) as Hk.
    { apply NoDup_app in Hd as (_ & Hd & _). intros Hin.
      apply (Hd k Hin). by left. }
    assert ((match v_list ≫= (fun v => default [PStr v] (json_list v)) with
             | [single] => Dict.set k single d
             | _ => Dict.set k (PList (v_list ≫= (fun v => default [PStr v] (json_list v)))) d
             end) = d ++ [form_entry json_list (k, v_list)]) as ->.
    { unfold form_entry, flatten_single. cbn [fst snd].
      destruct (v_list ≫= _) as [|x [|y l]]; by rewrite dict_set_fresh. }
    rewrite IH.
    + by rewrite <- app_assoc.
    + rewrite fmap_app, <- app_assoc. exact Hd.
Qed.

(** X22.  For a GET request [get_form_from_request] returns one entry for
    each key of the query, in the order of the query.  The values of a key
    that decode to a list add the elements of the list, every other value
    is kept as the string of the query, also when it decodes to a number;
    an entry of one value holds the value itself and not a list. *)
Theorem get_form_from_request_query (json_list : string -> option (list pyval))
    (_request : MoreApiUtils.Request) :
  MoreApiUtils.method _request = "GET" ->
  NoDup (MoreApiUtils.args _request).*1 ->
  MoreApiUtils.get_form_from_request json_list _request
  = inr (Some (PDict (form_entry json_list <$> MoreApiUtils.args _request))).
Proof.
  intros Hm Hd. unfold MoreApiUtils.get_form_from_request. rewrite Hm.
  cbn [String.eqb Ascii.eqb Bool.eqb]. rewrite form_loop_fresh by done. done.
Qed.

Lemma string_app_assoc (a b c : string) : (a +:+ b) +:+ c = a +:+ (b +:+ c).
Proof.
  induction a as [|ch a IH]; [done|].
  change (String ch ((a +:+ b) +:+ c) = String ch (a +:+ b +:+ c)). by f_equal.
Qed.

Lemma string_app_nil_r (a : string) : a +:+ "" = a.
Proof.
  induction a as [|ch a IH]; [done|].
  change (String ch (a +:+ "") = String ch a). by f_equal.
Qed.

Lemma base_message_fold (args : list string) : forall message : string,
  fold_left (fun message a => message +:+ " " +:+ a) args message
  = message +:+ String.concat "" ((fun a => " " +:+ a) <$> args).
Proof.
  induction args as [|a args IH]; intros message.
  - symmetry. apply string_app_nil_r.
  - cbn [fold_left]. rewrite IH, fmap_cons, string_app_assoc. f_equal.
    destruct args as [|b args].
    + exact (string_app_nil_r (" " +:+ a)).
    + reflexivity.
Qed.

Lemma prefix_app (a b : string) : String.prefix a (a +:+ b) = true.
Proof.
  induction a as [|ch a IH]; [by destruct b|].
  change (String.prefix (String ch a) (String ch (a +:+ b)) = true).
  cbn [String.prefix]. by destruct (Ascii.ascii_dec ch ch).
Qed.

(** X23.  A function decorated with [BaseMessage] is called on the base
    message followed by every argument of the call after one blank, in the
    order of the arguments: the message starts with the base message, and
    it is the base message when the call has no argument. *)
Theorem BaseMessage_message (base_message : string)
    (func : string -> response) (args : list string) :
  exists message,
    Responses.BaseMessage base_message func args = func message
    /\ message = base_message
                 +:+ String.concat "" ((fun a => " " +:+ a) <$> args)
    /\ String.prefix base_message message = true
    /\ (args = [] -> message = base_message).
Proof.
  eexists. split; [reflexivity|]. rewrite base_message_fold.
  split; [done|]. split; [apply prefix_app|].
  intros ->. apply string_app_nil_r.
Qed.

(** X24.  [asset_replace_name_with_id] returns the entity addresses of the
    assets of the names, one for each name and in their order, when every
    name is the name of an asset; a name of no asset makes it raise
    [AttributeError]. *)
Theorem asset_replace_name_with_id_result (env : Env) (names : list string) :
  asset_replace_name_with_id env (PStr <$> names)
  = match mapM (Asset_by_name env) names with
    | Some assets => inr ((fun a => PStr (Asset.entity_address a)) <$> assets)
    | None => inl AttributeError
    end.
Proof.
  induction names as [|n names IH]; [done|].
  rewrite fmap_cons. cbn [asset_replace_name_with_id mapM].
  destruct (Asset_by_name env n) as [a|]; [|done].
  cbn [getattr bind_exn]. rewrite IH. cbn [mbind option_bind].
  destruct (mapM _ names); done.
Qed.



(* ===================================================================== *)
(** * Further properties: instances of the services, forms and messages   *)
(* ===================================================================== *)

(** The services of the sample listing that a Prosumer may call. *)
Lemma get_service_response_filters_witness :
  get_service_response (Some "Prosumer") Sample.listing
  = inr ([("version", PStr "1.0");
          ("services", PList [Sample.service "getMeterData" ["MDC"; "Prosumer"];
                              Sample.service "getService" ["MDC"; "Prosumer"; "ESCo"]]);
          ("status", PStr "PROCESSED");
          ("message", PStr "Request has been processed.")], 200).
Proof.
  refine (proj1 (get_service_response_filters _ _ Sample.listing
                   (PStr "1.0")
                   [Sample.service "getMeterData" ["MDC"; "Prosumer"];
                    Sample.service "postMeterData" ["MDC"];
                    Sample.service "getService" ["MDC"; "Prosumer"; "ESCo"]]
                   eq_refl eq_refl _)).
  repeat (constructor; [eexists; reflexivity|]). constructor.
Defined.

(** The second service of the sample listing. *)
Lemma check_access_first_match_witness :
  MoreApiUtils.check_access Sample.listing (PStr "postMeterData")
  = inr (PList [PStr "MDC"]).
Proof.
  refine (check_access_first_match Sample.listing (PStr "postMeterData")
            [Sample.service "getMeterData" ["MDC"; "Prosumer"]]
            [Sample.service "getService" ["MDC"; "Prosumer"; "ESCo"]]
            (Sample.service "postMeterData" ["MDC"]) (PStr "postMeterData")
            eq_refl _ eq_refl eq_refl).
  constructor; [|constructor]. eexists. split; reflexivity.
Defined.

(** A service that the sample listing does not hold. *)
Lemma check_access_no_match_witness :
  MoreApiUtils.check_access Sample.listing (PStr "getPrognosis")
  = inl StopIteration.
Proof.
  refine (check_access_no_match Sample.listing (PStr "getPrognosis")
            [Sample.service "getMeterData" ["MDC"; "Prosumer"];
             Sample.service "postMeterData" ["MDC"];
             Sample.service "getService" ["MDC"; "Prosumer"; "ESCo"]]
            eq_refl _).
  repeat (constructor; [eexists; split; reflexivity|]). constructor.
Defined.

(** The sample query: the horizon stays the string ["3"], the two
    connections form a list, the list of values is decoded, and the list of
    one value is flattened to the value. *)
Lemma get_form_from_request_query_witness :
  MoreApiUtils.get_form_from_request Sample.json_list Sample.get_request
  = inr (Some (PDict [("unit", PStr "MW"); ("horizon", PStr "3");
                      ("connection", PList [PStr "a"; PStr "b"]);
                      ("values", PList [pint 1; pint 2]);
                      ("value", pint 7)])).
Proof.
  refine (get_form_from_request_query Sample.json_list Sample.get_request
            eq_refl _).
  apply (bool_decide_unpack _). vm_compute. exact I.
Defined.

